(** * ThinkLab host monitor ([hostmon.py], v1.1.26)

    A shallow embedding of the sampling-and-delta engine ([CpuPercent],
    [NetRates]), of the snapshot assembly ([build_snapshot] and the readers
    it calls), of the compact JSON serialisation of the snapshot and of the
    serial protocol loop ([serve]), followed by the properties of the
    specification that concern them.

    Modelling conventions.
    - Python [int] is [Z]. Python [float] is idealised as an exact rational
      ([Q]): sums, differences, quotients, [max], [min], [int()] and
      [round()] are the exact operations, and only finite values occur.
      [float(s)] and [repr(x)] are parameters ([PyFloat]).
    - Python [str] is a Stdlib [string]; the case mapping, the whitespace
      class and the digit class are those of the ASCII repertoire, which is
      what the proc sources, the tools and the protocol carry. The text of
      a file is the text as Python reads it (line ends already translated).
    - A Python [dict] used as a map is a [gmap]; a [dict] that is
      serialised is an association list inside [pyval], in the order of
      insertion.
    - An exception is a value of [exn]; code that may raise returns a
      [result]; the two trackers are threaded explicitly, and a call that
      raises hands back the tracker as it left it.
    - The operating system is a record ([Host]) of what the library calls
      return during one request; a session is run over a finite supply of
      rounds and of answers of the existence polls, and ends [Blocked] when
      the supply does.
    - Of the configuration, the fallback parser of [read_yaml] (the one
      used when the yaml module is not installed) and the settings that
      [serve] derives are modelled; the yaml module, the command line and
      the traces on standard output are not. *)

From Stdlib Require Import ZArith QArith Qround Qminmax Lqa Ascii Lia.
From stdpp Require Import gmap strings sorting.

Local Open Scope Z_scope.
Local Set Warnings "-register-all".

(** ** Python text operations *)

Definition LF : ascii := "010"%char.
Definition CR : ascii := "013"%char.

Definition code (c : ascii) : N := N_of_ascii c.

Definition between (lo hi : N) (c : ascii) : bool :=
  ((lo <=? code c) && (code c <=? hi))%N.

(** [str.isspace] on one character: TAB, LF, VT, FF, CR, FS, GS, RS, US and
    the space. *)
Definition isspace (c : ascii) : bool := between 9 13 c || between 28 32 c.

Definition isdigit_char (c : ascii) : bool := between 48 57 c.
Definition islower_char (c : ascii) : bool := between 97 122 c.
Definition isupper_char (c : ascii) : bool := between 65 90 c.

Definition upper_char (c : ascii) : ascii :=
  if islower_char c then ascii_of_N (code c - 32) else c.
Definition lower_char (c : ascii) : ascii :=
  if isupper_char c then ascii_of_N (code c + 32) else c.

Fixpoint str_map (f : ascii → ascii) (s : string) : string :=
  match s with
  | EmptyString => EmptyString
  | String c s' => String (f c) (str_map f s')
  end.

(** [s.upper()] and [s.lower()] *)
Definition str_upper : string → string := str_map upper_char.
Definition str_lower : string → string := str_map lower_char.

(** Trimming the characters of a class [f] on the left and on the right. *)
Fixpoint str_lstrip_by (f : ascii → bool) (s : string) : string :=
  match s with
  | EmptyString => EmptyString
  | String c s' => if f c then str_lstrip_by f s' else s
  end.

Fixpoint str_rstrip_by (f : ascii → bool) (s : string) : string :=
  match s with
  | EmptyString => EmptyString
  | String c s' =>
      match str_rstrip_by f s' with
      | EmptyString => if f c then EmptyString else String c EmptyString
      | r => String c r
      end
  end.

Definition str_strip_by (f : ascii → bool) (s : string) : string :=
  str_rstrip_by f (str_lstrip_by f s).

(** [s.lstrip()], [s.rstrip()] and [s.strip()] *)
Definition str_lstrip : string → string := str_lstrip_by isspace.
Definition str_rstrip : string → string := str_rstrip_by isspace.
Definition str_strip : string → string := str_strip_by isspace.

Definition flush (cur : string) : list string :=
  match cur with
  | EmptyString => []
  | _ => [String.rev cur]
  end.

Fixpoint str_split_go (cur : string) (s : string) : list string :=
  match s with
  | EmptyString => flush cur
  | String c s' =>
      if isspace c then flush cur ++ str_split_go EmptyString s'
      else str_split_go (String c cur) s'
  end.

(** [s.split()]: the maximal runs of non-whitespace characters *)
Definition str_split : string → list string := str_split_go EmptyString.

(** [s.split(sep, 1)] when it has two parts: the text before the first
    [sep] and the text after it; [None] when [sep] does not occur (the
    Python list then has one element). *)
Fixpoint str_split1 (sep : ascii) (s : string) : option (string * string) :=
  match s with
  | EmptyString => None
  | String c s' =>
      if Ascii.eqb c sep then Some (EmptyString, s')
      else match str_split1 sep s' with
           | Some (a, b) => Some (String c a, b)
           | None => None
           end
  end.

(** [c in s] for a one-character [c] *)
Fixpoint str_has (c : ascii) (s : string) : bool :=
  match s with
  | EmptyString => false
  | String d s' => Ascii.eqb d c || str_has c s'
  end.

(** [s.startswith(p)] *)
Definition str_startswith (p s : string) : bool := String.prefix p s.

(** [p in s] for a text [p] *)
Fixpoint str_contains (p s : string) : bool :=
  String.prefix p s ||
  match s with
  | EmptyString => false
  | String _ s' => str_contains p s'
  end.

Fixpoint str_all (f : ascii → bool) (s : string) : bool :=
  match s with
  | EmptyString => true
  | String c s' => f c && str_all f s'
  end.

(** [s.isdigit()] *)
Definition str_isdigit (s : string) : bool :=
  match s with
  | EmptyString => false
  | _ => str_all isdigit_char s
  end.

(** [sep.join(l)] *)
Definition str_join (sep : string) (l : list string) : string :=
  String.concat sep l.

Fixpoint readlines_go (cur : string) (s : string) : list string :=
  match s with
  | EmptyString => flush cur
  | String c s' =>
      if Ascii.eqb c LF then String.rev (String c cur) :: readlines_go EmptyString s'
      else readlines_go (String c cur) s'
  end.

(** [f.readlines()], also the iteration [for ln in f]: the lines of a text
    file, each with its terminating newline when it has one. *)
Definition readlines : string → list string := readlines_go EmptyString.

(** [f.readline()] on a freshly opened file *)
Definition readline (s : string) : string :=
  match readlines s with
  | [] => EmptyString
  | l :: _ => l
  end.

(** The one-character line boundaries of [str.splitlines] besides CR. *)
Definition islinebreak (c : ascii) : bool :=
  between 10 12 c || between 28 30 c.

Fixpoint splitlines_go (cur : string) (s : string) : list string :=
  match s with
  | EmptyString => flush cur
  | String c s' =>
      if Ascii.eqb c CR then
        String.rev cur ::
        match s' with
        | String d s'' =>
            if Ascii.eqb d LF then splitlines_go EmptyString s''
            else splitlines_go EmptyString s'
        | EmptyString => []
        end
      else if islinebreak c then String.rev cur :: splitlines_go EmptyString s'
      else splitlines_go (String c cur) s'
  end.

(** [s.splitlines()] *)
Definition str_splitlines : string → list string := splitlines_go EmptyString.

Definition digit_value (c : ascii) : Z := Z.of_N (code c - 48).

(** The digits of an [int()] literal: decimal digits, where single
    underscores may separate two digits. [seen] tells whether the previous
    character was a digit. *)
Fixpoint int_digits (acc : Z) (seen : bool) (s : string) : option Z :=
  match s with
  | EmptyString => if seen then Some acc else None
  | String c s' =>
      if isdigit_char c then int_digits (acc * 10 + digit_value c) true s'
      else if Ascii.eqb c "_" then
        if seen then int_digits acc false s' else None
      else None
  end.

(** The whitespace that [int()] trims: TAB, LF, VT, FF, CR and the space
    (the separators FS, GS, RS, US are not among them). *)
Definition isspace_int (c : ascii) : bool := between 9 13 c || Ascii.eqb c " ".

(** [int(s)] in base ten; [None] stands for [ValueError]. *)
Definition py_int (s : string) : option Z :=
  match str_strip_by isspace_int s with
  | String "+" r => int_digits 0 false r
  | String "-" r => Z.opp <$> int_digits 0 false r
  | t => int_digits 0 false t
  end.

(** [str(n)] for an integer. The fuel is the number itself: each round
    divides by ten, so the binary length of the fuel is never reached. *)
Fixpoint dec_go (fuel : positive) (n : N) (acc : string) : string :=
  let acc' := String (ascii_of_N (48 + n mod 10)) acc in
  if (n <? 10)%N then acc'
  else match fuel with
       | xH => acc'
       | xO f | xI f => dec_go f (n / 10) acc'
       end.

Definition str_of_N (n : N) : string :=
  match n with
  | N0 => "0"
  | Npos p => dec_go p n EmptyString
  end.

Definition str_of_Z (z : Z) : string :=
  match z with
  | Zneg p => String "-" (str_of_N (Npos p))
  | _ => str_of_N (Z.to_N z)
  end.

(** ** Exceptions, results and Python values *)

Inductive exn : Type :=
  | OSError | ValueError | IndexError | TypeError | SerialException.

Inductive result (A : Type) : Type :=
  | Ok (a : A)
  | Raise (e : exn).
Arguments Ok {A} a.
Arguments Raise {A} e.

#[global] Instance result_ret : MRet result := λ A a, Ok a.
#[global] Instance result_bind : MBind result := λ A B f m,
  match m with
  | Ok a => f a
  | Raise e => Raise e
  end.
#[global] Instance result_fmap : FMap result := λ A B f m,
  match m with
  | Ok a => Ok (f a)
  | Raise e => Raise e
  end.

Definition or_raise {A} (e : exn) (o : option A) : result A :=
  match o with
  | Some a => Ok a
  | None => Raise e
  end.

(** [open(path).read()]: the text of the file, or [OSError]. *)
Definition open_read (file : option string) : result string := or_raise OSError file.

(** [l[i]] and [int(s)] with the exceptions they raise. *)
Definition item {A} (l : list A) (i : nat) : result A := or_raise IndexError (l !! i).
Definition int_of (s : string) : result Z := or_raise ValueError (py_int s).

(** The values that reach [json.dumps]. *)
Inductive pyval : Type :=
  | PNone
  | PBool (b : bool)
  | PInt (z : Z)
  | PFloat (q : Q)
  | PStr (s : string)
  | PList (l : list pyval)
  | PDict (d : list (string * pyval)).

Definition opt_int (o : option Z) : pyval :=
  match o with
  | Some z => PInt z
  | None => PNone
  end.
Definition opt_float (o : option Q) : pyval :=
  match o with
  | Some q => PFloat q
  | None => PNone
  end.
Definition opt_str (o : option string) : pyval :=
  match o with
  | Some s => PStr s
  | None => PNone
  end.

(** [d[k]] on a serialisable dict *)
Fixpoint assoc (k : string) (d : list (string * pyval)) : option pyval :=
  match d with
  | [] => None
  | (k', v) :: d' => if String.eqb k' k then Some v else assoc k d'
  end.
Definition py_get (k : string) (v : pyval) : option pyval :=
  match v with
  | PDict d => assoc k d
  | _ => None
  end.

(** The two built-ins on floats whose definition is the platform's:
    [float(s)] on a text ([None] stands for [ValueError]) and [repr(x)],
    which [json.dumps] uses for a float. The values are the finite ones:
    the proc sources hold decimal numbers. *)
Class PyFloat : Type := {
  float_of_str : string → option Q;
  float_repr : Q → string
}.

(** [int(x)] on a float: truncation toward zero *)
Definition Qtruncate (q : Q) : Z := Z.quot (Qnum q) (Zpos (Qden q)).

(** The nearest integer, ties to the even one. *)
Definition round_half_even (q : Q) : Z :=
  let f := Qfloor q in
  match (q - inject_Z f ?= 1 # 2)%Q with
  | Lt => f
  | Gt => f + 1
  | Eq => if Z.even f then f else f + 1
  end.

Definition pow10 (n : nat) : positive := Nat.iter n (Pos.mul 10) 1%positive.

(** [round(x, ndigits)] *)
Definition py_round (q : Q) (ndigits : nat) : Q :=
  let scale := pow10 ndigits in
  Qmake (round_half_even (q * inject_Z (Zpos scale))) scale.

(** ** The host as the program observes it during one request *)

Record Host : Type := {
  proc_stat : option string;       (* text of /proc/stat, None: open fails *)
  proc_net_dev : option string;    (* text of /proc/net/dev *)
  proc_loadavg : option string;    (* text of /proc/loadavg *)
  proc_uptime : option string;     (* text of /proc/uptime *)
  proc_meminfo : option string;    (* text of /proc/meminfo *)
  statvfs_root : option (Z * Z * Z);  (* f_frsize, f_blocks, f_bfree of "/" *)
  sys_block : option (list string);   (* os.listdir("/sys/block") *)
  which : string → bool;           (* shutil.which(tool) finds the tool *)
  run : string → option string;    (* stdout of a shell command that exits 0 *)
  hostname : string;               (* socket.gethostname() *)
  cpu_count : option Z;            (* os.cpu_count() *)
  time_rates : Q;                  (* time.time() read by NetRates.rates *)
  time_now : Q                     (* time.time() read by now_ms *)
}.

(** [sh(cmd)]: the stripped output, or the empty text when the command
    exits with a non-zero status. *)
Definition sh (h : Host) (cmd : string) : string :=
  match run h cmd with
  | Some out => str_strip out
  | None => ""
  end.

Definition now_ms (h : Host) : Z := Qtruncate (time_now h * 1000).

Definition uptime_seconds `{PyFloat} (h : Host) : option Z :=
  match proc_uptime h with
  | None => None
  | Some text =>
      match str_split text with
      | [] => None
      | w :: _ => Qtruncate <$> float_of_str w
      end
  end.

(** ** CPU percent *)

Record CpuPercent : Type := {
  prev_total : option Z;
  prev_idle : option Z;
  value : option Q
}.

Definition CpuPercent_init : CpuPercent :=
  {| prev_total := None; prev_idle := None; value := None |}.

Definition sum_Z (l : list Z) : Z := foldr Z.add 0 l.

Definition _read_stat (h : Host) : result (Z * Z) :=
  text ← open_read (proc_stat h);
  let ln := readline text in
  let parts := str_split ln in
  vals ← mapM int_of (drop 1 parts);
  v3 ← item vals 3;
  v4 ← (if decide (4 < length vals)%nat then item vals 4 else Ok 0);
  let idle := v3 + v4 in
  let total := sum_Z (take 8 vals) in
  Ok (total, idle).

Definition compute (h : Host) (c : CpuPercent) : result (option Q) * CpuPercent :=
  match _read_stat h with
  | Raise e => (Raise e, c)
  | Ok (total, idle) =>
      match prev_total c with
      | None =>
          (Ok None,
           {| prev_total := Some total; prev_idle := Some idle; value := None |})
      | Some pt =>
          match prev_idle c with
          | None => (Raise TypeError, c)
          | Some pi =>
              let dt := total - pt in
              let di := idle - pi in
              if dt <=? 0 then
                (Ok None,
                 {| prev_total := Some total; prev_idle := Some idle;
                    value := None |})
              else
                let usage :=
                  Qmax 0 (Qmin 100
                    ((1 - inject_Z di / inject_Z dt) * 100))%Q in
                let v := py_round usage 1 in
                (Ok (Some v),
                 {| prev_total := Some total; prev_idle := Some idle;
                    value := Some v |})
          end
      end
  end.

(** ** Network rates *)

Record NetRates : Type := {
  prev : option (gmap string (Z * Z));
  prev_t : option Q
}.

Definition NetRates_init : NetRates := {| prev := None; prev_t := None |}.

(** One round of the loop of [_read] over the lines after the two headers. *)
Definition _read_line (data : gmap string (Z * Z)) (ln : string)
    : result (gmap string (Z * Z)) :=
  if negb (str_has ":" ln) then Ok data
  else
    '(ifname, rest) ← or_raise ValueError (str_split1 ":" ln);
    let ifname := str_strip ifname in
    let cols := str_split rest in
    c0 ← item cols 0;
    rx ← int_of c0;
    c8 ← item cols 8;
    tx ← int_of c8;
    Ok (<[ifname := (rx, tx)]> data).

Fixpoint _read_lines (data : gmap string (Z * Z)) (lines : list string)
    : result (gmap string (Z * Z)) :=
  match lines with
  | [] => Ok data
  | ln :: lines' => data' ← _read_line data ln; _read_lines data' lines'
  end.

Definition _read (h : Host) : result (gmap string (Z * Z)) :=
  text ← open_read (proc_net_dev h);
  _read_lines ∅ (drop 2 (readlines text)).

Definition rate_of (cur pr : Z) (dt : Q) : Z :=
  Qtruncate (inject_Z (cur - pr) / dt).

Definition rates (h : Host) (n : NetRates)
    : result (Q * gmap string (Z * Z)) * NetRates :=
  match _read h with
  | Raise e => (Raise e, n)
  | Ok cur =>
      let t := time_rates h in
      match prev n with
      | None =>
          (Ok (1%Q, (λ _, (0, 0)) <$> cur),
           {| prev := Some cur; prev_t := Some t |})
      | Some p =>
          match prev_t n with
          | None => (Raise TypeError, n)
          | Some pt =>
              let dt := Qmax (1 # 1000) (t - pt) in
              let rates :=
                map_fold
                  (λ k '(rx, tx) acc,
                     let pr := default (rx, tx) (p !! k) in
                     <[k := (rate_of rx pr.1 dt, rate_of tx pr.2 dt)]> acc)
                  ∅ cur in
              (Ok (dt, rates), {| prev := Some cur; prev_t := Some t |})
          end
      end
  end.

(** ** The regular expressions of the readers, written out *)

Fixpoint str_drop_prefix (p s : string) : option string :=
  match p, s with
  | EmptyString, _ => Some s
  | String a p', String b s' =>
      if Ascii.eqb a b then str_drop_prefix p' s' else None
  | String _ _, EmptyString => None
  end.

Fixpoint str_take_while (f : ascii → bool) (s : string) : string :=
  match s with
  | EmptyString => EmptyString
  | String c s' => if f c then String c (str_take_while f s') else EmptyString
  end.

Fixpoint str_drop_while (f : ascii → bool) (s : string) : string :=
  match s with
  | EmptyString => EmptyString
  | String c s' => if f c then str_drop_while f s' else s
  end.

Definition nonempty (s : string) : bool :=
  match s with
  | EmptyString => false
  | _ => true
  end.

Definition not_LF (c : ascii) : bool := negb (Ascii.eqb c LF).

(** [s] without its final newline, when it ends with one. *)
Definition chop_lf (s : string) : option string :=
  match String.rev s with
  | String c r => if Ascii.eqb c LF then Some (String.rev r) else None
  | EmptyString => None
  end.

(** A pattern anchored by [^] and [$] under [re.match]: [$] also matches
    just before a newline that ends the text. *)
Definition re_anchored (body : string → bool) (s : string) : bool :=
  body s || match chop_lf s with
            | Some t => body t
            | None => false
            end.

(** The letters [sd] followed by one or more lower-case letters *)
Definition re_sd (s : string) : bool :=
  match str_drop_prefix "sd" s with
  | Some r => nonempty r && str_all islower_char r
  | None => false
  end.

(** [nvme], digits, [n], digits *)
Definition re_nvme (s : string) : bool :=
  match str_drop_prefix "nvme" s with
  | Some r =>
      nonempty (str_take_while isdigit_char r) &&
      match str_drop_while isdigit_char r with
      | String "n" r' => nonempty r' && str_all isdigit_char r'
      | _ => false
      end
  | None => false
  end.

(** The search of [disk_state]: the literal text [drive state is:], one or
    more whitespace characters, then the group: the rest of that line.
    Group 1 of the leftmost match. *)
Fixpoint re_drive_state (s : string) : option string :=
  let here :=
    match str_drop_prefix "drive state is:" s with
    | Some (String c r) =>
        if isspace c then Some (str_take_while not_LF (str_lstrip r)) else None
    | _ => None
    end in
  match here with
  | Some g => Some g
  | None =>
      match s with
      | EmptyString => None
      | String _ s' => re_drive_state s'
      end
  end.

(** The continuation of the hostname pattern at the text [r] that follows
    [hostname:]: optional whitespace, then the group, one or more characters
    other than a newline, up to the end of the text (or to a newline that
    ends it). *)
Definition re_hostname_tail (r : string) : option string :=
  match str_lstrip r with
  | EmptyString =>
      match String.rev r with
      | String c rr =>
          if not_LF c then Some (String c EmptyString)
          else match rr with
               | String c2 _ =>
                   if not_LF c2 then Some (String c2 EmptyString) else None
               | EmptyString => None
               end
      | EmptyString => None
      end
  | rem =>
      let g := str_take_while not_LF rem in
      match str_drop_while not_LF rem with
      | EmptyString => Some g
      | String _ EmptyString => Some g
      | _ => None
      end
  end.

(** The search of [proxmox_info] for the container's hostname, ignoring
    case: group 1 of the leftmost match. *)
Fixpoint re_hostname (s : string) : option string :=
  let here :=
    match str_drop_prefix "hostname:" (str_lower (String.substring 0 9 s)) with
    | Some _ => re_hostname_tail (String.substring 9 (String.length s - 9) s)
    | None => None
    end in
  match here with
  | Some g => Some g
  | None =>
      match s with
      | EmptyString => None
      | String _ s' => re_hostname s'
      end
  end.

Definition is_addr_char (c : ascii) : bool :=
  isdigit_char c || Ascii.eqb c ".".

(** The search of [primary_ip] in the default route: [default via], an
    address of digits and dots, [dev], a run of non-whitespace characters.
    Groups 1 and 2 of the leftmost match. *)
Fixpoint re_default_route (s : string) : option (string * string) :=
  let here :=
    match str_drop_prefix "default via " s with
    | Some r =>
        let gw := str_take_while is_addr_char r in
        match str_drop_prefix " dev " (str_drop_while is_addr_char r) with
        | Some r' =>
            let dev := str_take_while (λ c, negb (isspace c)) r' in
            if nonempty gw && nonempty dev then Some (gw, dev) else None
        | None => None
        end
    | None => None
    end in
  match here with
  | Some g => Some g
  | None =>
      match s with
      | EmptyString => None
      | String _ s' => re_default_route s'
      end
  end.

(** ** Disks *)

Definition list_block_devices (h : Host) : result (list string) :=
  names ← or_raise OSError (sys_block h);
  let keep name :=
    if str_startswith "loop" name || str_startswith "ram" name
       || str_startswith "dm-" name || str_startswith "md" name
    then false
    else re_anchored re_sd name || re_anchored re_nvme name in
  Ok (merge_sort String.le (filter (λ name, keep name = true) names)).

Definition disk_state (h : Host) (devname : string) : option string :=
  if str_startswith "nvme" devname then Some "active"
  else
    let out := sh h ("hdparm -C /dev/" +:+ devname) in
    match re_drive_state out with
    | None => None
    | Some g =>
        let state := str_lower (str_strip g) in
        if str_contains "standby" state then Some "standby"
        else if str_contains "sleep" state then Some "standby"
        else if str_contains "active" state || str_contains "idle" state
        then Some "active"
        else None
    end.

Definition read_disks (h : Host) : result (list pyval) :=
  names ← list_block_devices h;
  Ok ((λ name : string,
         PDict [("name", PStr name); ("state", opt_str (disk_state h name));
                ("temp_C", PNone)]) <$> (names : list string)).

(** ** Proxmox inventory *)

(** [not ln.strip() or ln.lower().startswith(("vmid","id"))] *)
Definition skipped_row (ln : string) : bool :=
  negb (nonempty (str_strip ln))
  || str_startswith "vmid" (str_lower ln)
  || str_startswith "id" (str_lower ln).

(** [name or str(vmid)] *)
Definition name_or_id (name : string) (vmid : Z) : string :=
  if nonempty name then name else str_of_Z vmid.

Definition guest (node kind : string) (vmid : Z) (name status : string) : pyval :=
  PDict [("id", PInt vmid); ("name", PStr (name_or_id name vmid));
         ("status", PStr status); ("node", PStr node); ("type", PStr kind)].

(** [parts[1:-1]] and [parts[-1]] *)
Definition middle (parts : list string) : list string := removelast (drop 1 parts).
Definition last_part (parts : list string) : string := List.last parts "".

(** One round of the loop over the lines of [qm list]. *)
Definition qm_row (node : string) (ln : string) : result (option pyval) :=
  if skipped_row ln then Ok None
  else
    let parts := str_split ln in
    if (3 <=? length parts)%nat && str_isdigit (default "" (head parts)) then
      vmid ← int_of (default "" (head parts));
      let status := str_lower (last_part parts) in
      let name := str_join " " (middle parts) in
      Ok (Some (guest node "qemu" vmid name status))
    else Ok None.

(** One round of the loop over the lines of [pct list]. *)
Definition pct_row (h : Host) (node : string) (ln : string) : result (option pyval) :=
  if skipped_row ln then Ok None
  else
    let parts := str_split ln in
    if (3 <=? length parts)%nat && str_isdigit (default "" (head parts)) then
      vmid ← int_of (default "" (head parts));
      let status := str_lower (last_part parts) in
      let name := str_join " " (middle parts) in
      let name :=
        if str_isdigit name then
          let cfg := sh h ("pct config " +:+ str_of_Z vmid +:+ " | grep -i '^hostname:'") in
          match re_hostname cfg with
          | Some g => str_strip g
          | None => name
          end
        else name in
      Ok (Some (guest node "lxc" vmid name status))
    else Ok None.

(** [v["status"]=="running"] *)
Definition is_running (v : pyval) : bool :=
  match py_get "status" v with
  | Some (PStr s) => String.eqb s "running"
  | _ => false
  end.

Definition count_running (l : list pyval) : Z :=
  Z.of_nat (length (filter (λ v, is_running v = true) l)).

Definition proxmox_info (h : Host) : result pyval :=
  let node := hostname h in
  vms ← (if which h "qm" then
           let out := sh h "qm list --no-status --full 2>/dev/null || qm list 2>/dev/null" in
           omap id <$> mapM (qm_row node) (str_splitlines out)
         else Ok []);
  lxcs ← (if which h "pct" then
            let out := sh h "pct list 2>/dev/null" in
            omap id <$> mapM (pct_row h node) (str_splitlines out)
          else Ok []);
  Ok (PDict [("vm_running", PInt (count_running vms));
             ("vm_total", PInt (Z.of_nat (length vms)));
             ("lxc_running", PInt (count_running lxcs));
             ("lxc_total", PInt (Z.of_nat (length lxcs)));
             ("vms", PList vms); ("lxcs", PList lxcs)]).

(** ** Memory, root filesystem, primary address *)

Definition meminfo_row (m : gmap string Z) (ln : string) : result (gmap string Z) :=
  '(k, v) ← or_raise ValueError (str_split1 ":" ln);
  w ← item (str_split (str_strip v)) 0;
  n ← int_of w;
  Ok (<[str_strip k := n * 1024]> m).

Fixpoint meminfo_rows (m : gmap string Z) (lines : list string)
    : result (gmap string Z) :=
  match lines with
  | [] => Ok m
  | ln :: lines' => m' ← meminfo_row m ln; meminfo_rows m' lines'
  end.

(** [mem_info()]: total, used, swap total, swap used *)
Definition mem_info (h : Host) : option Z * option Z * option Z * option Z :=
  match text ← open_read (proc_meminfo h); meminfo_rows ∅ (readlines text) with
  | Raise _ => (None, None, None, None)
  | Ok m =>
      let total := m !! "MemTotal" in
      let free := default 0 (m !! "MemFree") + default 0 (m !! "Buffers")
                  + default 0 (m !! "Cached") + default 0 (m !! "SReclaimable") in
      let used := (λ t, t - free) <$> total in
      let swap_t := m !! "SwapTotal" in
      let swap_u := default 0 (m !! "SwapTotal") - default 0 (m !! "SwapFree") in
      (total, used, swap_t, Some swap_u)
  end.

Definition fs_root (h : Host) : result pyval :=
  '(f_frsize, f_blocks, f_bfree) ← or_raise OSError (statvfs_root h);
  let total := f_frsize * f_blocks in
  let used := total - f_frsize * f_bfree in
  Ok (PDict [("mount", PStr "/"); ("total_bytes", PInt total);
             ("used_bytes", PInt used)]).

(** One round of the loop over the lines of [ip -4 -o addr show]. *)
Definition addr_row (ln : string) : result (string * string) :=
  let cols := str_split ln in
  ifname ← item cols 1;
  cidr ← item cols 3;
  Ok (ifname, cidr).

Definition primary_ip (h : Host) : result pyval :=
  let route := sh h "ip -4 route show default | head -n1" in
  let m := re_default_route route in
  let gw := fst <$> m in
  let dev := snd <$> m in
  let out := sh h "ip -4 -o addr show" in
  addrs ← mapM addr_row (str_splitlines out);
  let prim_ip :=
    match dev with
    | Some d =>
        if nonempty d
        then (λ found : nat * (string * string), found.2.2)
               <$> list_find (λ a : string * string, a.1 = d) addrs
        else None
    | None => None
    end in
  Ok (PDict [("primary_ifname", opt_str dev); ("primary_ipv4", opt_str prim_ip);
             ("gateway_ipv4", opt_str gw); ("route_metric", PNone);
             ("ip_status", PStr "ok");
             ("ipv4_addrs",
              PList ((λ a : string * string,
                        PDict [("if", PStr a.1); ("addr", PStr a.2)]) <$> addrs))]).

(** ** Snapshot *)

Definition VERSION : string := "1.1.26".
Definition SCHEMA : Z := 1.

(** The load-average block of [build_snapshot] with its defaults. *)
Definition loadavg `{PyFloat} (h : Host) : Q * Q * Q :=
  default (0, 0, 0)%Q
    (text ← proc_loadavg h;
     let la := str_split text in
     load1 ← la !! 0%nat ≫= float_of_str;
     load5 ← la !! 1%nat ≫= float_of_str;
     load15 ← la !! 2%nat ≫= float_of_str;
     Some (load1, load5, load15)).

Definition is_virtual (ifn : string) : bool :=
  String.eqb ifn "lo"
  || str_startswith "veth" ifn || str_startswith "tap" ifn
  || str_startswith "fw" ifn || str_startswith "vmbr" ifn.

(** The order of [sorted(rates.items())]: by interface name. *)
Definition item_le (a b : string * (Z * Z)) : Prop := String.le a.1 b.1.
#[global] Instance item_le_dec : RelDecision item_le.
Proof. intros a b. unfold item_le. apply _. Defined.

Definition iface_entry (it : string * (Z * Z)) : pyval :=
  PDict [("if", PStr it.1); ("rx_Bps", PInt it.2.1); ("tx_Bps", PInt it.2.2);
         ("virtual", PBool (is_virtual it.1))].

(** [os.cpu_count() or None] *)
Definition cores (h : Host) : option Z :=
  match cpu_count h with
  | Some 0 => None
  | o => o
  end.

(** The part of [build_snapshot] after the two trackers have answered. *)
Definition assemble `{PyFloat} (h : Host) (cpu_pct : option Q) (load : Q * Q * Q)
    (dt : Q) (rates : gmap string (Z * Z)) : result pyval :=
  let total_rx := sum_Z ((λ it : string * (Z * Z), it.2.1) <$> map_to_list rates) in
  let total_tx := sum_Z ((λ it : string * (Z * Z), it.2.2) <$> map_to_list rates) in
  let ifaces := iface_entry <$> merge_sort item_le (map_to_list rates) in
  let '(mem_t, mem_u, swap_t, swap_u) := mem_info h in
  let timestamp_ms := now_ms h in
  let uptime_s := uptime_seconds h in
  fs ← fs_root h;
  proxmox ← proxmox_info h;
  disks ← read_disks h;
  ip ← primary_ip h;
  Ok (PDict [
    ("schema_version", PInt SCHEMA);
    ("script_version", PStr VERSION);
    ("timestamp_ms", PInt timestamp_ms);
    ("hostname", PStr (hostname h));
    ("uptime_s", opt_int uptime_s);
    ("cpu", PDict [("percent", opt_float cpu_pct); ("cores", opt_int (cores h));
                   ("load1", PFloat load.1.1); ("load5", PFloat load.1.2);
                   ("load15", PFloat load.2)]);
    ("ram", PDict [("total_bytes", opt_int mem_t); ("used_bytes", opt_int mem_u);
                   ("swap_total_bytes", opt_int swap_t);
                   ("swap_used_bytes", opt_int swap_u)]);
    ("filesystems", PList [fs]);
    ("proxmox", proxmox);
    ("disks", PList disks);
    ("ip", ip);
    ("net", PDict [("window_s", PFloat (py_round dt 3));
                   ("total_rx_Bps", PInt total_rx);
                   ("total_tx_Bps", PInt total_tx);
                   ("total_rx_bps", PInt (total_rx * 8));
                   ("total_tx_bps", PInt (total_tx * 8));
                   ("interfaces", PList ifaces)])]).

Definition build_snapshot `{PyFloat} (h : Host) (cpu_calc : CpuPercent)
    (net_calc : NetRates) : result pyval * (CpuPercent * NetRates) :=
  match compute h cpu_calc with
  | (Raise e, cpu') => (Raise e, (cpu', net_calc))
  | (Ok cpu_pct, cpu') =>
      let load := loadavg h in
      match rates h net_calc with
      | (Raise e, net') => (Raise e, (cpu', net'))
      | (Ok (dt, r), net') => (assemble h cpu_pct load dt r, (cpu', net'))
      end
  end.

(** ** Compact JSON serialisation: [json.dumps(payload, separators=(',',':'))] *)

Definition DQ : ascii := "034"%char.   (* the double quote *)
Definition BS : ascii := "092"%char.   (* the backslash *)

Definition hex_digit (n : N) : ascii :=
  if (n <? 10)%N then ascii_of_N (48 + n) else ascii_of_N (87 + n).

(** The escape of a character outside the printable ASCII range: a
    backslash, [u] and four lower-case hexadecimal digits. *)
Definition u_escape (c : ascii) : string :=
  String BS (String "u" (String "0" (String "0"
    (String (hex_digit (code c / 16)) (String (hex_digit (code c mod 16)) ""))))).

Definition escape_char (c : ascii) : string :=
  if Ascii.eqb c DQ then String BS (String DQ "")
  else if Ascii.eqb c BS then String BS (String BS "")
  else if Ascii.eqb c "008" then String BS "b"
  else if Ascii.eqb c "012" then String BS "f"
  else if Ascii.eqb c LF then String BS "n"
  else if Ascii.eqb c CR then String BS "r"
  else if Ascii.eqb c "009" then String BS "t"
  else if between 32 126 c then String c ""
  else u_escape c.

Fixpoint escape_chars (s : string) : string :=
  match s with
  | EmptyString => EmptyString
  | String c s' => escape_char c +:+ escape_chars s'
  end.

(** [encode_basestring_ascii]: a text as a JSON string literal *)
Definition encode_string (s : string) : string :=
  String DQ (escape_chars s +:+ String DQ "").

Fixpoint dumps `{PyFloat} (v : pyval) : string :=
  match v with
  | PNone => "null"
  | PBool b => if b then "true" else "false"
  | PInt z => str_of_Z z
  | PFloat q => float_repr q
  | PStr s => encode_string s
  | PList l => "[" +:+ str_join "," (dumps <$> l) +:+ "]"
  | PDict d =>
      "{" +:+ str_join ","
                ((λ kv : string * pyval,
                    let '(k, x) := kv in encode_string k +:+ ":" +:+ dumps x) <$> d)
          +:+ "}"
  end.

(** ** The JSON grammar (RFC 8259) *)

Definition is_json_ws (c : ascii) : bool :=
  Ascii.eqb c " " || Ascii.eqb c "009" || Ascii.eqb c LF || Ascii.eqb c CR.

Inductive json_ws : string → Prop :=
  | ws_nil : json_ws ""
  | ws_cons c s : is_json_ws c = true → json_ws s → json_ws (String c s).

Inductive json_digits : string → Prop :=
  | digits_one c : isdigit_char c = true → json_digits (String c "")
  | digits_cons c s :
      isdigit_char c = true → json_digits s → json_digits (String c s).

Inductive json_int : string → Prop :=
  | int_zero : json_int "0"
  | int_one c : between 49 57 c = true → json_int (String c "")
  | int_more c s :
      between 49 57 c = true → json_digits s → json_int (String c s).

Inductive json_frac : string → Prop :=
  | frac_none : json_frac ""
  | frac_some s : json_digits s → json_frac (String "." s).

Inductive json_exp : string → Prop :=
  | exp_none : json_exp ""
  | exp_plain e s :
      e = "e"%char ∨ e = "E"%char → json_digits s → json_exp (String e s)
  | exp_signed e g s :
      e = "e"%char ∨ e = "E"%char → g = "+"%char ∨ g = "-"%char →
      json_digits s → json_exp (String e (String g s)).

Inductive json_number : string → Prop :=
  | number_pos i f e :
      json_int i → json_frac f → json_exp e → json_number (i +:+ f +:+ e)
  | number_neg i f e :
      json_int i → json_frac f → json_exp e →
      json_number (String "-" (i +:+ f +:+ e)).

Definition is_hex (c : ascii) : bool :=
  isdigit_char c || between 97 102 c || between 65 70 c.

Definition is_escapable (c : ascii) : bool :=
  Ascii.eqb c DQ || Ascii.eqb c BS || Ascii.eqb c "/" || Ascii.eqb c "b"
  || Ascii.eqb c "f" || Ascii.eqb c "n" || Ascii.eqb c "r" || Ascii.eqb c "t".

(** The characters between the quotes of a string literal. *)
Inductive json_chars : string → Prop :=
  | chars_nil : json_chars ""
  | chars_plain c s :
      (32 ≤ code c)%N → c ≠ DQ → c ≠ BS → json_chars s →
      json_chars (String c s)
  | chars_escape c s :
      is_escapable c = true → json_chars s → json_chars (String BS (String c s))
  | chars_unicode h1 h2 h3 h4 s :
      is_hex h1 = true → is_hex h2 = true → is_hex h3 = true →
      is_hex h4 = true → json_chars s →
      json_chars (String BS (String "u"
                    (String h1 (String h2 (String h3 (String h4 s)))))).

Definition quoted (s : string) : string := String DQ (s +:+ String DQ "").

Inductive json_value : string → Prop :=
  | value_null : json_value "null"
  | value_true : json_value "true"
  | value_false : json_value "false"
  | value_number s : json_number s → json_value s
  | value_string s : json_chars s → json_value (quoted s)
  | value_array_empty w : json_ws w → json_value ("[" +:+ w +:+ "]")
  | value_array es : json_elements es → json_value ("[" +:+ es +:+ "]")
  | value_object s : json_object s → json_value s
with json_object : string → Prop :=
  | object_empty w : json_ws w → json_object ("{" +:+ w +:+ "}")
  | object_members ms : json_members ms → json_object ("{" +:+ ms +:+ "}")
with json_elements : string → Prop :=
  | elements_one e : json_element e → json_elements e
  | elements_more e es :
      json_element e → json_elements es → json_elements (e +:+ "," +:+ es)
with json_element : string → Prop :=
  | element w1 v w2 :
      json_ws w1 → json_value v → json_ws w2 → json_element (w1 +:+ v +:+ w2)
with json_members : string → Prop :=
  | members_one m : json_member m → json_members m
  | members_more m ms :
      json_member m → json_members ms → json_members (m +:+ "," +:+ ms)
with json_member : string → Prop :=
  | member w1 k w2 e :
      json_ws w1 → json_chars k → json_ws w2 → json_element e →
      json_member (w1 +:+ quoted k +:+ w2 +:+ ":" +:+ e).

(** ** The protocol loop of [serve] *)

(** What one round of the [while True] loop meets: the outcome of
    [ser.readline().decode(errors="ignore")], the host at that moment and
    the exception that [ser.write] raises there, if any. *)
Record Round : Type := {
  rd : result string;
  host : Host;
  wr : option exn
}.

(** The calls of the session that the outside observes. *)
Inductive action : Type :=
  | PathExists (present : bool)   (* os.path.exists(serial_path) and its answer *)
  | Sleep (seconds : Q)       (* time.sleep *)
  | SerialOpen                      (* serial.Serial(...) *)
  | SerialRead                      (* ser.readline() *)
  | SerialWrite (data : string)     (* ser.write(data) *)
  | SerialClose.                    (* leaving the with block *)

(** How far a run over a finite supply of rounds and polls gets: [serve]
    returned, an exception left it, or it is still blocked in a wait or in
    the loop when the supply ends. *)
Inductive outcome : Type :=
  | Returned
  | Uncaught (e : exn)
  | Blocked.

(** The body of the [try]: the calls of [ser.write] with their data, how
    the body ends, and the trackers afterwards. The data is the text before
    [.encode()]: the serialiser emits ASCII characters only, which the
    encoding maps to the bytes of the same codes. *)
Definition try_body `{PyFloat} (r : Round) (st : CpuPercent * NetRates)
    : list action * result unit * (CpuPercent * NetRates) :=
  match rd r with
  | Raise e => ([], Raise e, st)
  | Ok raw =>
      let line := str_strip raw in
      if negb (nonempty line) then ([], Ok (), st)
      else
        let cmd := str_upper (str_strip line) in
        if String.eqb cmd "GET" then
          match build_snapshot (host r) st.1 st.2 with
          | (Raise e, st') => ([], Raise e, st')
          | (Ok payload, st') =>
              let out := dumps payload in
              ([SerialWrite (out +:+ String LF "")],
               match wr r with
               | Some e => Raise e
               | None => Ok ()
               end, st')
          end
        else ([], Ok (), st)
  end.

(** [while not os.path.exists(serial_path): time.sleep(1)] over the
    answers [polls]; the flag tells whether the path appeared. *)
Fixpoint wait_for_path (polls : list bool) : list action * bool :=
  match polls with
  | [] => ([], false)
  | true :: _ => ([PathExists true], true)
  | false :: polls' =>
      let '(acts, found) := wait_for_path polls' in
      (PathExists false :: Sleep 1 :: acts, found)
  end.

(** The [while True] loop with its two handlers. *)
Fixpoint loop `{PyFloat} (rounds : list Round) (polls : list bool)
    (st : CpuPercent * NetRates) : list action * outcome :=
  match rounds with
  | [] => ([], Blocked)
  | r :: rounds' =>
      let '(acts, res, st') := try_body r st in
      match res with
      | Ok _ =>
          let '(more, o) := loop rounds' polls st' in
          (SerialRead :: acts ++ more, o)
      | Raise SerialException =>
          let '(waits, found) := wait_for_path polls in
          if found then (SerialRead :: acts ++ waits ++ [Sleep 1; SerialClose], Returned)
          else (SerialRead :: acts ++ waits, Blocked)
      | Raise _ =>
          let '(more, o) := loop rounds' polls st' in
          (SerialRead :: acts ++ Sleep (1 # 10) :: more, o)
      end
  end.

(** A run of [serve]: the answers of the existence polls before the port
    is opened, the exception of the opening if any, the rounds of the
    loop and the answers of the polls after a disconnection. *)
Record World : Type := {
  polls_before : list bool;
  open_fault : option exn;
  rounds : list Round;
  polls_after : list bool
}.

Definition serve `{PyFloat} (w : World) : list action * outcome :=
  let '(waits, found) := wait_for_path (polls_before w) in
  if found then
    match open_fault w with
    | Some e => (waits ++ [SerialOpen], Uncaught e)
    | None =>
        let '(acts, o) :=
          loop (rounds w) (polls_after w) (CpuPercent_init, NetRates_init) in
        (waits ++ SerialOpen :: acts, o)
    end
  else (waits, Blocked).

(** ** An instance of the float built-ins and sample hosts

    Decimal notation with at most three fractional digits: [float(s)] reads
    an optional sign, digits and an optional fraction; [repr] prints the
    value rounded to thousandths without trailing zeros (one fractional
    digit at least). It agrees with Python on the values [0.0], [1.0],
    [2.0], [25.0], [0.5] used below. *)

Definition parse_decimal (s : string) : option Q :=
  let t := str_strip s in
  let '(neg, body) :=
    match t with
    | String "-" r => (true, r)
    | String "+" r => (false, r)
    | _ => (false, t)
    end in
  let '(ip, fp) :=
    match str_split1 "." body with
    | Some (a, b) => (a, b)
    | None => (body, EmptyString)
    end in
  if str_all isdigit_char ip && str_all isdigit_char fp && nonempty (ip +:+ fp)
  then
    match int_digits 0 false (ip +:+ fp) with
    | Some n =>
        let q := Qmake n (pow10 (String.length fp)) in
        Some (if neg : bool then Qopp q else q)
    | None => None
    end
  else None.

Definition digit_char (n : N) : ascii := ascii_of_N (48 + n mod 10).

Definition print_decimal (q : Q) : string :=
  let r := round_half_even (q * 1000) in
  let m := Z.to_N (Z.abs r) in
  let f := (m mod 1000)%N in
  let d1 := digit_char (f / 100) in
  let d2 := digit_char (f / 10) in
  let d3 := digit_char f in
  let frac :=
    if negb (Ascii.eqb d3 "0") then String d1 (String d2 (String d3 ""))
    else if negb (Ascii.eqb d2 "0") then String d1 (String d2 "")
    else String d1 "" in
  (if r <? 0 then "-" else "") +:+ str_of_N (m / 1000) +:+ String "." frac.

Definition decimal_floats : PyFloat :=
  {| float_of_str := parse_decimal; float_repr := print_decimal |}.

(** The text of a file from its lines. *)
Definition text_of (lines : list string) : string :=
  String.concat "" ((λ l, l +:+ String LF "") <$> lines).

Definition net_dev_header : list string :=
  ["Inter-|   Receive                |  Transmit";
   " face |bytes    packets errs drop|bytes    packets errs drop"].

(** A host with one disk and no virtualisation tools, at time 0. *)
Definition host_a : Host :=
  {| proc_stat := Some (text_of ["cpu  100 0 50 800 50 0 0 0 0 0";
                                 "cpu0 100 0 50 800 50 0 0 0 0 0"]);
     proc_net_dev := Some (text_of (net_dev_header ++
       ["    lo: 500 5 0 0 0 0 0 0 500 5 0 0 0 0 0 0";
        "  eth0: 1000 10 0 0 0 0 0 0 2000 20 0 0 0 0 0 0"]));
     proc_loadavg := Some (text_of ["0.5 0.25 0.125 1/234 5678"]);
     proc_uptime := Some (text_of ["3600.5 7000.25"]);
     proc_meminfo := Some (text_of ["MemTotal:       8000 kB";
                                    "MemFree:        1000 kB";
                                    "Buffers:         500 kB";
                                    "Cached:         1500 kB";
                                    "SwapTotal:      2000 kB";
                                    "SwapFree:       2000 kB";
                                    "SReclaimable:    100 kB"]);
     statvfs_root := Some (4096, 1000, 400);
     sys_block := Some ["loop0"; "nvme0n1"; "nvme0n1p1"; "dm-1"];
     which := λ _, false;
     run := λ _, None;
     hostname := "thinklab";
     cpu_count := Some 4;
     time_rates := 0;
     time_now := 1700000000 |}.

(** A host like [h] except for the sources named by the arguments. *)
Definition with_counters (stat net_dev : option string) (h : Host) : Host :=
  {| proc_stat := stat;
     proc_net_dev := net_dev;
     proc_loadavg := proc_loadavg h;
     proc_uptime := proc_uptime h;
     proc_meminfo := proc_meminfo h;
     statvfs_root := statvfs_root h;
     sys_block := sys_block h;
     which := which h;
     run := run h;
     hostname := hostname h;
     cpu_count := cpu_count h;
     time_rates := time_rates h;
     time_now := time_now h |}.

Definition with_optional (loadavg_text uptime_text meminfo_text : option string)
    (h : Host) : Host :=
  {| proc_stat := proc_stat h;
     proc_net_dev := proc_net_dev h;
     proc_loadavg := loadavg_text;
     proc_uptime := uptime_text;
     proc_meminfo := meminfo_text;
     statvfs_root := statvfs_root h;
     sys_block := sys_block h;
     which := which h;
     run := run h;
     hostname := hostname h;
     cpu_count := cpu_count h;
     time_rates := time_rates h;
     time_now := time_now h |}.

Definition with_devices (fs : option (Z * Z * Z)) (names : option (list string))
    (h : Host) : Host :=
  {| proc_stat := proc_stat h;
     proc_net_dev := proc_net_dev h;
     proc_loadavg := proc_loadavg h;
     proc_uptime := proc_uptime h;
     proc_meminfo := proc_meminfo h;
     statvfs_root := fs;
     sys_block := names;
     which := which h;
     run := run h;
     hostname := hostname h;
     cpu_count := cpu_count h;
     time_rates := time_rates h;
     time_now := time_now h |}.

Definition with_tools (found : string → bool) (output : string → option string)
    (h : Host) : Host :=
  {| proc_stat := proc_stat h;
     proc_net_dev := proc_net_dev h;
     proc_loadavg := proc_loadavg h;
     proc_uptime := proc_uptime h;
     proc_meminfo := proc_meminfo h;
     statvfs_root := statvfs_root h;
     sys_block := sys_block h;
     which := found;
     run := output;
     hostname := hostname h;
     cpu_count := cpu_count h;
     time_rates := time_rates h;
     time_now := time_now h |}.

Definition at_time (t_rates t_now : Q) (h : Host) : Host :=
  {| proc_stat := proc_stat h;
     proc_net_dev := proc_net_dev h;
     proc_loadavg := proc_loadavg h;
     proc_uptime := proc_uptime h;
     proc_meminfo := proc_meminfo h;
     statvfs_root := statvfs_root h;
     sys_block := sys_block h;
     which := which h;
     run := run h;
     hostname := hostname h;
     cpu_count := cpu_count h;
     time_rates := t_rates;
     time_now := t_now |}.

(** [host_a] two seconds later. *)
Definition host_b : Host :=
  at_time 2 1700000002
    (with_counters
       (Some (text_of ["cpu  300 0 100 1500 100 0 0 0 0 0"]))
       (Some (text_of (net_dev_header ++
          ["    lo: 500 5 0 0 0 0 0 0 500 5 0 0 0 0 0 0";
           "  eth0: 3000 30 0 0 0 0 0 0 2600 26 0 0 0 0 0 0"])))
       host_a).

(** [host_a] when the optional sources are all missing. *)
Definition host_bare : Host := with_optional None None None host_a.

(** [host_b] when the statistics of the root filesystem cannot be read,
    when the block devices cannot be listed, when the CPU statistics are
    missing, when a line of the network counters has three fields only or
    a field that is no number, and when a line of the address listing has
    three columns only. *)
Definition host_no_statvfs : Host := with_devices None (sys_block host_b) host_b.
Definition host_no_sys_block : Host := with_devices (statvfs_root host_b) None host_b.
Definition host_no_proc_stat : Host := with_counters None (proc_net_dev host_b) host_b.
Definition host_short_line : Host :=
  with_counters (proc_stat host_b)
    (Some (text_of (net_dev_header ++ ["  eth0: 1 2 3"]))) host_b.
Definition host_bad_field : Host :=
  with_counters (proc_stat host_b)
    (Some (text_of (net_dev_header ++ ["  eth0: 12 0 0 0 0 0 0 0 n/a 0"]))) host_b.
Definition host_short_addr : Host :=
  with_tools (which host_b)
    (λ cmd, if String.eqb cmd "ip -4 -o addr show"
            then Some (text_of ["2: eth0 inet"]) else None)
    host_b.

(** ** Predicates used by the statements *)

Definition is_Ok {A} (r : result A) : Prop := ∃ a, r = Ok a.

(** The two fields of each tracker are set together. *)
Definition cpu_wf (c : CpuPercent) : Prop :=
  is_Some (prev_total c) → is_Some (prev_idle c).
Definition net_wf (n : NetRates) : Prop :=
  is_Some (prev n) → is_Some (prev_t n).

(** The sources whose failure [build_snapshot] does not absorb: the CPU
    statistics and the network counters can be read and parsed, the root
    filesystem and the block devices can be queried, and each line of the
    address listing has its four columns. *)
Definition required_sources_ok (h : Host) : Prop :=
  is_Ok (_read_stat h) ∧ is_Ok (_read h)
  ∧ is_Some (statvfs_root h) ∧ is_Some (sys_block h)
  ∧ Forall (λ ln, (4 ≤ length (str_split ln))%nat)
           (str_splitlines (sh h "ip -4 -o addr show")).

Definition snapshot_keys : list string :=
  ["schema_version"; "script_version"; "timestamp_ms"; "hostname"; "uptime_s";
   "cpu"; "ram"; "filesystems"; "proxmox"; "disks"; "ip"; "net"].

(** The integer under key [k] of an entry. *)
Definition int_field (k : string) (v : pyval) : Z :=
  match py_get k v with
  | Some (PInt z) => z
  | _ => 0
  end.

(** A character that the wire carries as itself: an ASCII character
    ([.encode()] maps it to the byte of the same code) other than the
    newline. *)
Definition wire_safe (c : ascii) : bool :=
  (code c <? 128)%N && negb (Ascii.eqb c LF).

(** The spellings of the command that differ by case only. *)
Definition get_spellings : list string :=
  ["get"; "geT"; "gEt"; "gET"; "Get"; "GeT"; "GEt"; "GET"].

(** The trace of [n] polls that find the device path absent. *)
Definition absent_polls (n : nat) : list action :=
  concat (replicate n [PathExists false; Sleep 1]).

(** The data handed to [ser.write] along a trace. *)
Definition writes (acts : list action) : list string :=
  omap (λ a, match a with SerialWrite data => Some data | _ => None end) acts.

(** Sample rounds: a request on a healthy host, a request when the root
    filesystem cannot be queried, and a read that fails because the serial
    device went away. *)
Definition round_get : Round :=
  {| rd := Ok (" get" +:+ String CR (String LF "")); host := host_a; wr := None |}.
Definition round_get_no_statvfs : Round :=
  {| rd := Ok ("GET" +:+ String LF ""); host := host_no_statvfs; wr := None |}.
Definition round_unplugged : Round :=
  {| rd := Raise SerialException; host := host_a; wr := None |}.
Definition world_a : World :=
  {| polls_before := [false; true];
     open_fault := None;
     rounds := [round_get; round_unplugged; round_get];
     polls_after := [false; false; true] |}.

(** The trackers after a first request on [host_a], the answer to a second
    request on [host_b], and the first response of [world_a]. *)
Definition trackers_a : CpuPercent * NetRates :=
  (@build_snapshot decimal_floats host_a CpuPercent_init NetRates_init).2.
Definition payload_b : pyval :=
  match (@build_snapshot decimal_floats host_b trackers_a.1 trackers_a.2).1 with
  | Ok payload => payload
  | Raise _ => PNone
  end.
Definition response_a : string :=
  default "" (head (writes (@serve decimal_floats world_a).1)).

(** The network counters of [host_a] and [host_b]. *)
Definition counters_a : gmap string (Z * Z) :=
  <["eth0" := (1000, 2000)]> (<["lo" := (500, 500)]> ∅).
Definition counters_b : gmap string (Z * Z) :=
  <["eth0" := (3000, 2600)]> (<["lo" := (500, 500)]> ∅).

(** ** The configuration file and the settings of [serve] *)

(** The configuration path: absent, present but not readable, or present
    with its text. *)
Inductive file : Type :=
  | Missing
  | Unreadable
  | Content (text : string).

(** The values that the fallback parser of [read_yaml] stores. *)
Inductive cfgval : Type :=
  | CBool (b : bool)
  | CInt (z : Z)
  | CStr (s : string).

Definition is_word_char (c : ascii) : bool :=
  between 65 90 c || between 97 122 c || isdigit_char c || Ascii.eqb c "_".

(** The pattern of the fallback parser under [re.match]: optional
    whitespace, the key (one or more letters, digits or underscores),
    optional whitespace, a colon, optional whitespace, the value (as few
    characters other than a newline as possible), optional whitespace, the
    end of the line. Groups 1 and 2. *)
Definition re_key_value (ln : string) : option (string * string) :=
  let s := str_lstrip ln in
  let k := str_take_while is_word_char s in
  if nonempty k then
    match str_lstrip (str_drop_while is_word_char s) with
    | String ":" rest =>
        let v := str_strip rest in
        if str_has LF v then None else Some (k, v)
    | _ => None
    end
  else None.

(** The conversion of a value: the two truth values in any case, a run of
    digits, or the text itself. *)
Definition yaml_scalar (v : string) : result cfgval :=
  if String.eqb (str_lower v) "true" || String.eqb (str_lower v) "false"
  then Ok (CBool (String.eqb (str_lower v) "true"))
  else if str_isdigit v then CInt <$> int_of v
  else Ok (CStr v).

(** One round of the loop of the fallback parser. *)
Definition yaml_row (cfg : gmap string cfgval) (ln : string)
    : result (gmap string cfgval) :=
  match re_key_value ln with
  | Some (k, v) => x ← yaml_scalar v; Ok (<[k := x]> cfg)
  | None => Ok cfg
  end.

Fixpoint yaml_rows (cfg : gmap string cfgval) (lines : list string)
    : result (gmap string cfgval) :=
  match lines with
  | [] => Ok cfg
  | ln :: lines' => cfg' ← yaml_row cfg ln; yaml_rows cfg' lines'
  end.

(** [read_yaml(path)] when the yaml module is not installed (the other
    branch hands the file to that module). *)
Definition read_yaml (f : file) : result (gmap string cfgval) :=
  match f with
  | Missing => Ok ∅
  | Unreadable => Raise OSError
  | Content text => yaml_rows ∅ (readlines text)
  end.

(** The truth value of a configuration value, as [or] and [bool()] take it. *)
Definition truthy (v : cfgval) : bool :=
  match v with
  | CBool b => b
  | CInt z => negb (z =? 0)
  | CStr s => nonempty s
  end.

(** [x or y] *)
Definition py_or (x y : cfgval) : cfgval := if truthy x then x else y.

(** The four settings that [serve] derives from the configuration.
    [int()] of a text may raise [ValueError]; [None] for the log level
    stands for the [AttributeError] of [.lower()] on a value that is no
    text. *)
Definition serial_path (cfg : gmap string cfgval) : cfgval :=
  match cfg !! "serial_device" with
  | Some v => py_or v (CStr "/dev/ttyACM0")
  | None => CStr "/dev/ttyACM0"
  end.

Definition baud (cfg : gmap string cfgval) : result Z :=
  match default (CInt 115200) (cfg !! "baud") with
  | CBool b => Ok (if b then 1 else 0)
  | CInt z => Ok z
  | CStr s => int_of s
  end.

Definition trace (cfg : gmap string cfgval) : bool :=
  truthy (default (CBool false) (cfg !! "trace_payloads")).

Definition log_level (cfg : gmap string cfgval) : option string :=
  match py_or (default (CStr "info") (cfg !! "log_level")) (CStr "info") with
  | CStr s => Some (str_lower s)
  | _ => None
  end.

(** ** Further sample hosts *)

(** [host_a] with a default route and two addresses. *)
Definition host_net : Host :=
  with_tools (which host_a)
    (λ cmd,
       if String.eqb cmd "ip -4 route show default | head -n1"
       then Some (text_of ["default via 192.168.1.1 dev eth0 proto dhcp metric 100"])
       else if String.eqb cmd "ip -4 -o addr show"
       then Some (text_of
                    ["1: lo    inet 127.0.0.1/8 scope host lo";
                     "2: eth0    inet 192.168.1.10/24 brd 192.168.1.255 scope global eth0"])
       else None)
    host_a.

(** [host_a] with both inventory tools: two machines, and one container
    whose listed name is its number. *)
Definition host_pve : Host :=
  with_tools (λ _, true)
    (λ cmd,
       if str_startswith "qm list" cmd
       then Some (text_of ["VMID NAME STATUS"; "100 web Running"; "101 db stopped"])
       else if String.eqb cmd "pct list 2>/dev/null"
       then Some (text_of ["ID NAME STATUS"; "200 200 running"])
       else if str_startswith "pct config 200" cmd
       then Some (text_of ["hostname: mail"])
       else None)
    host_a.

(** ** Further predicates used by the statements *)

(** A name that the two inclusion patterns of [list_block_devices] accept. *)
Definition is_base_device (name : string) : bool :=
  re_anchored re_sd name || re_anchored re_nvme name.

(** The characters of a name that the NVMe pattern accepts. *)
Definition is_nvme_char (c : ascii) : bool :=
  isdigit_char c || Ascii.eqb c "n" || Ascii.eqb c "v" || Ascii.eqb c "m"
  || Ascii.eqb c "e".

(** An entry of the inventory of kind [kind] on node [node]: an identifier
    that is not negative, a name that is not empty and a status without
    upper-case letters. *)
Definition guest_ok (node kind : string) (v : pyval) : Prop :=
  ∃ (vmid : Z) (name status : string),
    v = PDict [("id", PInt vmid); ("name", PStr name); ("status", PStr status);
               ("node", PStr node); ("type", PStr kind)]
    ∧ 0 ≤ vmid ∧ name ≠ "" ∧ str_lower status = status.

(** A character other than the minus sign: a text of such characters holds
    no negative number. *)
Definition not_minus (c : ascii) : bool := negb (Ascii.eqb c "-").

(** A line of the network counters that [_read] takes: a line without a
    colon, or one with at least nine fields after the first colon of which
    the first and the ninth are integers. *)
Definition net_line_ok (ln : string) : bool :=
  match str_split1 ":" ln with
  | None => true
  | Some (_, rest) =>
      let cols := str_split rest in
      match cols !! 0%nat ≫= py_int, cols !! 8%nat ≫= py_int with
      | Some _, Some _ => true
      | _, _ => false
      end
  end.

(** The entry that a line of the network counters contributes: the trimmed
    name before the first colon with the first and the ninth field after
    it. *)
Definition net_line_entry (ln : string) : option (string * (Z * Z)) :=
  '(name, rest) ← str_split1 ":" ln;
  let cols := str_split rest in
  rx ← cols !! 0%nat ≫= py_int;
  tx ← cols !! 8%nat ≫= py_int;
  Some (str_strip name, (rx, tx)).

(** A value as the fallback parser of [read_yaml] stores it: an integer
    that is not negative, or a text without surrounding whitespace and
    without newline that is neither a run of digits nor one of the two
    truth values. *)
Definition cfgval_ok (x : cfgval) : Prop :=
  match x with
  | CBool _ => True
  | CInt z => 0 ≤ z
  | CStr s =>
      str_strip s = s ∧ str_has LF s = false ∧ str_isdigit s = false
      ∧ str_lower s ≠ "true" ∧ str_lower s ≠ "false"
  end.

(** * Properties *)

(** ** Texts *)

Lemma app_String (c : ascii) (s t : string) : String c s +:+ t = String c (s +:+ t).
Proof. reflexivity. Qed.

Lemma app_empty_l (s : string) : "" +:+ s = s.
Proof. reflexivity. Qed.

Lemma app_empty_r (s : string) : s +:+ "" = s.
Proof. induction s as [|c s IH]; [reflexivity | by rewrite app_String, IH]. Qed.

Lemma app_assoc_str (a b c : string) : (a +:+ b) +:+ c = a +:+ b +:+ c.
Proof. induction a as [|x a IH]; [reflexivity | by rewrite !app_String, IH]. Qed.

Lemma str_has_app (c : ascii) (a b : string) :
  str_has c (a +:+ b) = str_has c a || str_has c b.
Proof.
  induction a as [|x a IH]; [reflexivity|].
  rewrite app_String. cbn [str_has]. rewrite IH. by rewrite orb_assoc.
Qed.

Lemma str_all_app (f : ascii → bool) (a b : string) :
  str_all f (a +:+ b) = str_all f a && str_all f b.
Proof.
  induction a as [|x a IH]; [reflexivity|].
  rewrite app_String. cbn [str_all]. rewrite IH. by rewrite andb_assoc.
Qed.

Lemma rstrip_by_cons (f : ascii → bool) (c : ascii) (s : string) :
  str_rstrip_by f (String c s) =
    match str_rstrip_by f s with
    | EmptyString => if f c then EmptyString else String c EmptyString
    | r => String c r
    end.
Proof. reflexivity. Qed.

Lemma rstrip_by_idem (f : ascii → bool) (s : string) :
  str_rstrip_by f (str_rstrip_by f s) = str_rstrip_by f s.
Proof.
  induction s as [|c s IH]; [done|]. rewrite rstrip_by_cons.
  destruct (str_rstrip_by f s) as [|d r] eqn:E.
  - destruct (f c) eqn:Hc; [done|]. cbn. by rewrite Hc.
  - by rewrite rstrip_by_cons, IH.
Qed.

Lemma lstrip_by_head (f : ascii → bool) (s : string) :
  str_lstrip_by f s = ""
  ∨ ∃ c t, str_lstrip_by f s = String c t ∧ f c = false.
Proof.
  induction s as [|c s IH]; [by left|]. cbn.
  destruct (f c) eqn:Hc; [exact IH|]. right. by exists c, s.
Qed.

Lemma rstrip_by_head (f : ascii → bool) (c : ascii) (s : string) :
  f c = false → ∃ r, str_rstrip_by f (String c s) = String c r.
Proof.
  intros Hc. cbn. destruct (str_rstrip_by f s); [|by eexists].
  rewrite Hc. by eexists.
Qed.

Lemma str_strip_idem (s : string) : str_strip (str_strip s) = str_strip s.
Proof.
  unfold str_strip, str_strip_by.
  destruct (lstrip_by_head isspace s) as [->|(c & t & -> & Hc)]; [done|].
  destruct (rstrip_by_head isspace c t Hc) as [r Hr].
  replace (str_lstrip_by isspace (str_rstrip_by isspace (String c t)))
    with (str_rstrip_by isspace (String c t)).
  - apply rstrip_by_idem.
  - rewrite Hr. cbn. by rewrite Hc.
Qed.

Lemma upper_char_G (c : ascii) : upper_char c = "G"%char → c = "g"%char ∨ c = "G"%char.
Proof. destruct c as [[] [] [] [] [] [] [] []]; cbv; intros; (congruence || auto). Qed.

Lemma upper_char_E (c : ascii) : upper_char c = "E"%char → c = "e"%char ∨ c = "E"%char.
Proof. destruct c as [[] [] [] [] [] [] [] []]; cbv; intros; (congruence || auto). Qed.

Lemma upper_char_T (c : ascii) : upper_char c = "T"%char → c = "t"%char ∨ c = "T"%char.
Proof. destruct c as [[] [] [] [] [] [] [] []]; cbv; intros; (congruence || auto). Qed.

Lemma upper_GET_iff (s : string) : str_upper s = "GET" ↔ In s get_spellings.
Proof.
  split.
  - destruct s as [|c1 [|c2 [|c3 [|c4 s]]]]; try discriminate.
    cbn. intros [= H1 H2 H3].
    destruct (upper_char_G c1 H1) as [-> | ->], (upper_char_E c2 H2) as [-> | ->],
      (upper_char_T c3 H3) as [-> | ->]; tauto.
  - intros Hin. repeat destruct Hin as [<-|Hin]; try reflexivity. destruct Hin.
Qed.

Lemma digit_not_space (c : ascii) : isdigit_char c = true → isspace_int c = false.
Proof. destruct c as [[] [] [] [] [] [] [] []]; cbv; congruence. Qed.

Lemma rstrip_digits (s : string) :
  str_all isdigit_char s = true → str_rstrip_by isspace_int s = s.
Proof.
  induction s as [|c s IH]; [done|]. cbn [str_all]. rewrite rstrip_by_cons.
  intros [Hc Hs]%andb_true_iff. rewrite (IH Hs).
  destruct s; [by rewrite (digit_not_space c Hc)|done].
Qed.

Lemma strip_digits (s : string) :
  str_all isdigit_char s = true → str_strip_by isspace_int s = s.
Proof.
  intros Hs. unfold str_strip_by.
  replace (str_lstrip_by isspace_int s) with s; [by apply rstrip_digits|].
  destruct s as [|c s]; [done|]. cbn [str_all] in Hs.
  apply andb_true_iff in Hs as [Hc _]. cbn. by rewrite (digit_not_space c Hc).
Qed.

Lemma int_digits_total (s : string) :
  ∀ (acc : Z) (seen : bool),
    str_all isdigit_char s = true → seen = true ∨ s ≠ "" →
    ∃ z, int_digits acc seen s = Some z.
Proof.
  induction s as [|c s IH]; intros acc seen Hs Hne.
  - destruct Hne as [->|]; [by exists acc|done].
  - cbn [str_all] in Hs. apply andb_true_iff in Hs as [Hc Hs].
    cbn [int_digits]. rewrite Hc. apply IH; auto.
Qed.

Lemma py_int_digits (s : string) : str_isdigit s = true → ∃ z, py_int s = Some z.
Proof.
  destruct s as [|c s]; [done|]. unfold str_isdigit. intros Hs.
  unfold py_int. rewrite (strip_digits _ Hs).
  assert (Hgo : ∃ z, int_digits 0 false (String c s) = Some z)
    by (apply int_digits_total; auto).
  cbn [str_all] in Hs. apply andb_true_iff in Hs as [Hc _].
  destruct c as [[] [] [] [] [] [] [] []]; try discriminate Hc; exact Hgo.
Qed.

(** ** Decimal notation of integers *)

Lemma digit_is_digit (k : N) :
  (k < 10)%N → isdigit_char (ascii_of_N (48 + k)) = true.
Proof.
  intros Hk.
  assert (k = 0 ∨ k = 1 ∨ k = 2 ∨ k = 3 ∨ k = 4 ∨ k = 5 ∨ k = 6 ∨ k = 7
          ∨ k = 8 ∨ k = 9)%N as Hc by lia.
  repeat destruct Hc as [->|Hc]; try reflexivity. by subst.
Qed.

Lemma digit_is_leading (k : N) :
  (0 < k < 10)%N → between 49 57 (ascii_of_N (48 + k)) = true.
Proof.
  intros Hk.
  assert (k = 1 ∨ k = 2 ∨ k = 3 ∨ k = 4 ∨ k = 5 ∨ k = 6 ∨ k = 7
          ∨ k = 8 ∨ k = 9)%N as Hc by lia.
  repeat destruct Hc as [->|Hc]; try reflexivity. by subst.
Qed.

Lemma dec_go_unfold (fuel : positive) (n : N) (acc : string) :
  dec_go fuel n acc =
    let acc' := String (ascii_of_N (48 + n mod 10)) acc in
    if (n <? 10)%N then acc'
    else match fuel with
         | xH => acc'
         | xO f | xI f => dec_go f (n / 10) acc'
         end.
Proof. destruct fuel; reflexivity. Qed.

Lemma dec_go_spec (fuel : positive) :
  ∀ (n : N) (acc : string),
    (0 < n)%N → (n ≤ Npos fuel)%N →
    ∃ c s, dec_go fuel n acc = String c (s +:+ acc)
           ∧ between 49 57 c = true ∧ str_all isdigit_char s = true.
Proof.
  induction fuel as [f IH|f IH|]; intros n acc Hpos Hle;
    rewrite dec_go_unfold; cbv zeta;
    destruct (N.ltb_spec n 10) as [Hlt|Hge].
  all: try (exists (ascii_of_N (48 + n mod 10)), ""; rewrite N.mod_small by lia;
            split; [reflexivity|]; split; [apply digit_is_leading; lia|reflexivity]).
  - destruct (IH (n / 10)%N (String (ascii_of_N (48 + n mod 10)) acc))
      as (c & s & E & Hc & Hs).
    + apply N.div_str_pos. lia.
    + apply N.Div0.div_le_upper_bound. lia.
    + exists c, (s +:+ String (ascii_of_N (48 + n mod 10)) "").
      rewrite E, app_assoc_str. split; [reflexivity|]. split; [exact Hc|].
      rewrite str_all_app, Hs. cbn. rewrite digit_is_digit; [reflexivity|].
      apply N.mod_lt. lia.
  - destruct (IH (n / 10)%N (String (ascii_of_N (48 + n mod 10)) acc))
      as (c & s & E & Hc & Hs).
    + apply N.div_str_pos. lia.
    + apply N.Div0.div_le_upper_bound. lia.
    + exists c, (s +:+ String (ascii_of_N (48 + n mod 10)) "").
      rewrite E, app_assoc_str. split; [reflexivity|]. split; [exact Hc|].
      rewrite str_all_app, Hs. cbn. rewrite digit_is_digit; [reflexivity|].
      apply N.mod_lt. lia.
Qed.

Lemma str_of_N_spec (n : N) :
  str_of_N n = "0" ∨
  ∃ c s, str_of_N n = String c s ∧ between 49 57 c = true
         ∧ str_all isdigit_char s = true.
Proof.
  destruct n as [|p]; [by left|right].
  destruct (dec_go_spec p (Npos p) "") as (c & s & E & Hc & Hs); [lia..|].
  exists c, s. cbn. rewrite E, app_empty_r. done.
Qed.

(** ** Rounding *)

Lemma round_half_even_bounds (q : Q) (a b : Z) :
  (inject_Z a <= q)%Q → (q <= inject_Z b)%Q → a ≤ round_half_even q ≤ b.
Proof.
  intros Ha Hb. unfold round_half_even.
  pose proof (Qfloor_resp_le _ _ Ha) as Hfa. rewrite Qfloor_Z in Hfa.
  pose proof (Qfloor_resp_le _ _ Hb) as Hfb. rewrite Qfloor_Z in Hfb.
  assert (Htop : Qfloor q = b → (q - inject_Z (Qfloor q) <= 0)%Q).
  { intros ->. lra. }
  destruct (Qcompare_spec (q - inject_Z (Qfloor q)) (1 # 2)) as [E|L|G].
  - destruct (Z.even (Qfloor q)); split; try lia.
    destruct (decide (Qfloor q = b)) as [Hb'|]; [|lia].
    specialize (Htop Hb'). rewrite E in Htop. lra.
  - lia.
  - split; [lia|].
    destruct (decide (Qfloor q = b)) as [Hb'|]; [|lia].
    specialize (Htop Hb'). lra.
Qed.

Lemma py_round_1_bounds (u : Q) :
  (0 <= u)%Q → (u <= 100)%Q →
  ∃ k : Z, py_round u 1 = (k # 10)%Q ∧ 0 ≤ k ≤ 1000.
Proof.
  intros H0 H100. exists (round_half_even (u * inject_Z 10)). split; [reflexivity|].
  apply round_half_even_bounds.
  - change (inject_Z 0) with 0%Q. change (inject_Z 10) with 10%Q. lra.
  - change (inject_Z 1000) with 1000%Q. change (inject_Z 10) with 10%Q. lra.
Qed.

Lemma Qtruncate_spec (q : Q) :
  Qtruncate q = if Qle_bool 0 q then Qfloor q else Qceiling q.
Proof.
  destruct q as [n d]. unfold Qtruncate, Qceiling, Qfloor, Qle_bool, Qopp.
  cbn [Qnum Qden]. rewrite Z.mul_1_r. change (0 * Z.pos d) with 0.
  destruct (Z.leb_spec 0 n) as [Hn|Hn].
  - apply Z.quot_div_nonneg; lia.
  - rewrite <- (Z.opp_involutive n) at 1. rewrite Z.quot_opp_l by lia.
    f_equal. apply Z.quot_div_nonneg; lia.
Qed.

Lemma Qtruncate_comp (x y : Q) : (x == y)%Q → Qtruncate x = Qtruncate y.
Proof.
  intros E. rewrite !Qtruncate_spec.
  rewrite (Qleb_comp 0%Q 0%Q (Qeq_refl 0%Q) x y E).
  destruct (Qle_bool 0 y).
  - by apply Qfloor_comp.
  - by apply Qceiling_comp.
Qed.

Lemma rate_of_same (x : Z) (dt : Q) : rate_of x x dt = 0.
Proof.
  unfold rate_of. rewrite Z.sub_diag. unfold Qtruncate, Qdiv, Qmult. cbn. reflexivity.
Qed.

(** ** CPU percent *)

(** C3. First-sample law: the first [compute()] of a fresh tracker returns
    absent and stores the reading as the prior; a second call on a reading
    whose total has advanced returns a value [k/10], that is a value with
    one decimal place, between 0 and 100, and stores the new reading. *)
Theorem cpu_first_sample_law (h1 h2 : Host) (t1 i1 t2 i2 : Z) :
  _read_stat h1 = Ok (t1, i1) →
  _read_stat h2 = Ok (t2, i2) →
  t1 < t2 →
  let c1 := {| prev_total := Some t1; prev_idle := Some i1; value := None |} in
  compute h1 CpuPercent_init = (Ok None, c1) ∧
  ∃ k : Z,
    compute h2 c1 =
      (Ok (Some (k # 10)%Q),
       {| prev_total := Some t2; prev_idle := Some i2; value := Some (k # 10)%Q |}) ∧
    (0 <= k # 10)%Q ∧ (k # 10 <= 100)%Q.
Proof.
  intros H1 H2 Hlt c1. split.
  - unfold compute. rewrite H1. reflexivity.
  - unfold compute. rewrite H2. cbn [prev_total prev_idle c1].
    destruct (Z.leb_spec (t2 - t1) 0) as [Hle|_]; [lia|].
    set (u := Qmax 0 (Qmin 100 _)).
    destruct (py_round_1_bounds u) as (k & Hk & Hk0 & Hk1).
    + apply Q.le_max_l.
    + apply Q.max_lub; [discriminate|apply Q.le_min_l].
    + exists k. rewrite Hk. split; [reflexivity|].
      unfold Qle; cbn; lia.
Qed.

Lemma cpu_first_sample_law_witness :
  (1000 < 2000) ∧
  compute host_a CpuPercent_init
  = (Ok None, {| prev_total := Some 1000; prev_idle := Some 850; value := None |}) ∧
  ∃ k : Z,
    compute host_b {| prev_total := Some 1000; prev_idle := Some 850; value := None |}
    = (Ok (Some (k # 10)%Q),
       {| prev_total := Some 2000; prev_idle := Some 1600; value := Some (k # 10)%Q |})
    ∧ (0 <= k # 10)%Q ∧ (k # 10 <= 100)%Q.
Proof.
  split; [lia|].
  apply (cpu_first_sample_law host_a host_b 1000 850 2000 1600);
    [reflexivity | reflexivity | lia].
Defined.

(** C4. Delta non-negativity: when the total of the current reading does not
    exceed the stored one ([delta_total <= 0]), [compute()] returns absent,
    raises nothing, and the stored prior is replaced by the current
    reading. *)
Theorem cpu_delta_not_positive (h : Host) (c : CpuPercent) (pt pi t i : Z) :
  prev_total c = Some pt →
  prev_idle c = Some pi →
  _read_stat h = Ok (t, i) →
  t - pt ≤ 0 →
  compute h c =
    (Ok None, {| prev_total := Some t; prev_idle := Some i; value := None |}).
Proof.
  intros Hpt Hpi Hr Hle. unfold compute. rewrite Hr, Hpt, Hpi.
  destruct (Z.leb_spec (t - pt) 0); [reflexivity|lia].
Qed.

Lemma cpu_delta_not_positive_witness :
  1000 - 1000 ≤ 0 ∧
  compute host_a {| prev_total := Some 1000; prev_idle := Some 850; value := None |}
  = (Ok None, {| prev_total := Some 1000; prev_idle := Some 850; value := None |}).
Proof.
  split; [lia|].
  apply (cpu_delta_not_positive host_a _ 1000 850 1000 850);
    [reflexivity | reflexivity | reflexivity | lia].
Defined.

(** ** Network rates *)

Lemma map_fold_insert_lookup {A B} (f : string → A → gmap string B → gmap string B)
    (g : string → A → B) (m : gmap string A) (k : string) :
  (∀ i x acc, f i x acc = <[i := g i x]> acc) →
  map_fold f ∅ m !! k = g k <$> m !! k.
Proof.
  intros Hf.
  apply (map_fold_weak_ind (λ r m, r !! k = g k <$> m !! k)).
  - by rewrite !lookup_empty.
  - intros i x m' r Hi IH. rewrite Hf.
    destruct (decide (i = k)) as [->|Hne].
    + by rewrite !lookup_insert_eq.
    + by rewrite !lookup_insert_ne.
Qed.

(** C5. Network zero-baseline: the first [rates()] returns the window 1.0
    and a mapping that gives every interface of the current reading the
    rate (0,0), whatever its counters, and holds no other interface; the
    current mapping and timestamp become the prior. *)
Theorem net_zero_baseline (h : Host) (cur : gmap string (Z * Z)) :
  _read h = Ok cur →
  ∃ r : gmap string (Z * Z),
    rates h NetRates_init =
      (Ok (1%Q, r), {| prev := Some cur; prev_t := Some (time_rates h) |}) ∧
    ∀ k : string,
      (is_Some (cur !! k) → r !! k = Some (0, 0)) ∧
      (cur !! k = None → r !! k = None).
Proof.
  intros Hr. exists ((λ _, (0, 0)) <$> cur). split.
  - unfold rates. rewrite Hr. reflexivity.
  - intros k. rewrite lookup_fmap. split.
    + intros [v ->]. reflexivity.
    + intros ->. reflexivity.
Qed.

Lemma net_zero_baseline_witness :
  _read host_a = Ok counters_a ∧
  ∃ r : gmap string (Z * Z),
    rates host_a NetRates_init
    = (Ok (1%Q, r), {| prev := Some counters_a; prev_t := Some (time_rates host_a) |})
    ∧ ∀ k : string,
        (is_Some (counters_a !! k) → r !! k = Some (0, 0))
        ∧ (counters_a !! k = None → r !! k = None).
Proof.
  assert (H : _read host_a = Ok counters_a) by (vm_compute; reflexivity).
  split; [exact H|]. exact (net_zero_baseline host_a counters_a H).
Defined.



Lemma read_line_skips_without_colon (data : gmap string (Z * Z)) (ln : string) :
  str_has ":" ln = false → _read_line data ln = Ok data.
Proof. intros Hln. unfold _read_line. by rewrite Hln. Qed.

(** C7. The counter read skips the two header lines and the lines without
    a colon, and no other line: in [host_short_line] the line [eth0: 1 2 3],
    which has a colon and three fields, is not skipped; [_read] raises
    [IndexError] on its ninth field, and the exception leaves
    [build_snapshot]. A field that is no integer ([host_bad_field]) raises
    [ValueError] in the same way. *)
Theorem net_read_malformed_line :
  _read host_short_line = Raise IndexError ∧
  _read host_bad_field = Raise ValueError ∧
  (@build_snapshot decimal_floats host_short_line CpuPercent_init NetRates_init).1
  = Raise IndexError.
Proof. repeat split; vm_compute; reflexivity. Qed.

(** ** The serialiser stays inside the JSON grammar *)

Lemma pyval_nested_ind (P : pyval → Prop) :
  P PNone → (∀ b, P (PBool b)) → (∀ z, P (PInt z)) → (∀ q, P (PFloat q)) →
  (∀ s, P (PStr s)) →
  (∀ l, Forall P l → P (PList l)) →
  (∀ d, Forall (λ kv : string * pyval, P kv.2) d → P (PDict d)) →
  ∀ v, P v.
Proof.
  intros HN HB HI HF HS HL HD. fix IH 1.
  intros [| b | z | q | s | l | d];
    [apply HN | apply HB | apply HI | apply HF | apply HS | |].
  - apply HL. induction l as [|x l IHl]; constructor; [apply IH | exact IHl].
  - apply HD. induction d as [|[k x] d IHd]; constructor; [apply IH | exact IHd].
Qed.

Lemma digits_json (s : string) :
  str_all isdigit_char s = true → s ≠ "" → json_digits s.
Proof.
  induction s as [|c s IH]; [done|]. cbn [str_all].
  intros [Hc Hs]%andb_true_iff _.
  destruct s as [|d s]; [by apply digits_one|].
  apply digits_cons; [exact Hc|]. by apply IH.
Qed.

Lemma str_of_N_int (n : N) : json_int (str_of_N n).
Proof.
  destruct (str_of_N_spec n) as [->|(c & s & -> & Hc & Hs)]; [apply int_zero|].
  destruct s as [|d s]; [by apply int_one|].
  apply int_more; [exact Hc|]. by apply digits_json.
Qed.

Lemma str_of_Z_number (z : Z) : json_number (str_of_Z z).
Proof.
  destruct z as [|p|p]; cbn [str_of_Z].
  - rewrite <- (app_empty_r (str_of_N _)). rewrite <- (app_empty_r (str_of_N _ +:+ "")).
    rewrite app_assoc_str.
    apply number_pos; [apply str_of_N_int | apply frac_none | apply exp_none].
  - rewrite <- (app_empty_r (str_of_N _)). rewrite <- (app_empty_r (str_of_N _ +:+ "")).
    rewrite app_assoc_str.
    apply number_pos; [apply str_of_N_int | apply frac_none | apply exp_none].
  - rewrite <- (app_empty_r (str_of_N _)). rewrite <- (app_empty_r (str_of_N _ +:+ "")).
    rewrite app_assoc_str.
    apply number_neg; [apply str_of_N_int | apply frac_none | apply exp_none].
Qed.

Lemma hex_digit_is_hex (n : N) : (n < 16)%N → is_hex (hex_digit n) = true.
Proof.
  intros Hn.
  assert (n = 0 ∨ n = 1 ∨ n = 2 ∨ n = 3 ∨ n = 4 ∨ n = 5 ∨ n = 6 ∨ n = 7 ∨ n = 8
          ∨ n = 9 ∨ n = 10 ∨ n = 11 ∨ n = 12 ∨ n = 13 ∨ n = 14 ∨ n = 15)%N
    as Hc by lia.
  repeat destruct Hc as [->|Hc]; try reflexivity. by subst.
Qed.

Lemma escape_char_cases (c : ascii) :
  (escape_char c = String c "" ∧ (32 ≤ code c)%N ∧ c ≠ DQ ∧ c ≠ BS)
  ∨ (∃ e, escape_char c = String BS (String e "") ∧ is_escapable e = true)
  ∨ (∃ h3 h4,
       escape_char c =
         String BS (String "u" (String "0" (String "0" (String h3 (String h4 "")))))
       ∧ is_hex h3 = true ∧ is_hex h4 = true).
Proof.
  unfold escape_char.
  destruct (Ascii.eqb_spec c DQ) as [|HDQ]; [right; left; by eexists|].
  destruct (Ascii.eqb_spec c BS) as [|HBS]; [right; left; by eexists|].
  destruct (Ascii.eqb c "008"); [right; left; by eexists|].
  destruct (Ascii.eqb c "012"); [right; left; by eexists|].
  destruct (Ascii.eqb c LF); [right; left; by eexists|].
  destruct (Ascii.eqb c CR); [right; left; by eexists|].
  destruct (Ascii.eqb c "009"); [right; left; by eexists|].
  destruct (between 32 126 c) eqn:Hb.
  - left. apply andb_true_iff in Hb as [H32%N.leb_le _]. done.
  - right; right. eexists _, _. split; [reflexivity|].
    pose proof (N_ascii_bounded c) as Hlt. fold (code c) in Hlt.
    split; apply hex_digit_is_hex.
    + apply N.Div0.div_lt_upper_bound. lia.
    + apply N.mod_lt. lia.
Qed.

Lemma escape_chars_json (s : string) : json_chars (escape_chars s).
Proof.
  induction s as [|c s IH]; [apply chars_nil|]. cbn [escape_chars].
  destruct (escape_char_cases c)
    as [[-> Hc]|[(e & -> & He)|(h3 & h4 & -> & H3 & H4)]].
  - destruct Hc as (H32 & HDQ & HBS). by apply chars_plain.
  - by apply chars_escape.
  - by apply chars_unicode.
Qed.

Lemma encode_string_json (s : string) : json_value (encode_string s).
Proof. apply (value_string (escape_chars s)), escape_chars_json. Qed.

Lemma element_of_value (v : string) : json_value v → json_element v.
Proof.
  intros Hv. rewrite <- (app_empty_r v), <- (app_empty_l (v +:+ "")).
  apply element; [apply ws_nil | exact Hv | apply ws_nil].
Qed.

Lemma join_elements (l : list string) :
  l ≠ [] → Forall json_value l → json_elements (str_join "," l).
Proof.
  induction l as [|x l IH]; [done|]. intros _ Hall.
  apply Forall_cons in Hall as [Hx Hl].
  destruct l as [|y l].
  - apply elements_one, element_of_value, Hx.
  - change (str_join "," (x :: y :: l)) with (x +:+ "," +:+ str_join "," (y :: l)).
    apply elements_more; [by apply element_of_value | by apply IH].
Qed.

Lemma join_members (l : list string) :
  l ≠ [] → Forall json_member l → json_members (str_join "," l).
Proof.
  induction l as [|x l IH]; [done|]. intros _ Hall.
  apply Forall_cons in Hall as [Hx Hl].
  destruct l as [|y l].
  - by apply members_one.
  - change (str_join "," (x :: y :: l)) with (x +:+ "," +:+ str_join "," (y :: l)).
    apply members_more; [done | by apply IH].
Qed.

Lemma member_of_pair (k v : string) :
  json_value v → json_member (encode_string k +:+ ":" +:+ v).
Proof.
  intros Hv.
  change (encode_string k +:+ ":" +:+ v)
    with ("" +:+ quoted (escape_chars k) +:+ "" +:+ ":" +:+ v).
  apply member; [apply ws_nil | apply escape_chars_json | apply ws_nil |].
  by apply element_of_value.
Qed.

Lemma dumps_dict_object `{PyFloat} (d : list (string * pyval)) :
  Forall (λ kv : string * pyval, json_value (dumps kv.2)) d →
  json_object (dumps (PDict d)).
Proof.
  intros Hd. cbn [dumps]. destruct d as [|kv d].
  - apply (object_empty ""), ws_nil.
  - apply object_members, join_members; [done|].
    apply Forall_fmap. eapply Forall_impl; [exact Hd|].
    intros [k x] Hx. by apply member_of_pair.
Qed.

Lemma dumps_json `{PyFloat} (v : pyval) :
  (∀ q : Q, json_number (float_repr q)) → json_value (dumps v).
Proof.
  intros Hrepr.
  induction v as [| b | z | q | s | l IH | d IH] using pyval_nested_ind.
  - apply value_null.
  - destruct b; [apply value_true | apply value_false].
  - apply value_number, str_of_Z_number.
  - apply value_number, Hrepr.
  - apply encode_string_json.
  - cbn [dumps]. destruct l as [|x l].
    + apply (value_array_empty ""), ws_nil.
    + apply value_array, join_elements; [done|]. by apply Forall_fmap.
  - by apply value_object, dumps_dict_object.
Qed.

(** ** The serialiser emits ASCII text without newline *)

Lemma json_digits_all (s : string) : json_digits s → str_all isdigit_char s = true.
Proof. induction 1 as [c Hc|c s Hc _ IH]; cbn [str_all]; by rewrite Hc. Qed.

Lemma leading_is_digit (c : ascii) : between 49 57 c = true → isdigit_char c = true.
Proof. destruct c as [[] [] [] [] [] [] [] []]; cbv; congruence. Qed.

Lemma digit_wire_safe (c : ascii) : isdigit_char c = true → wire_safe c = true.
Proof. destruct c as [[] [] [] [] [] [] [] []]; cbv; congruence. Qed.

Lemma digits_wire_safe (s : string) :
  str_all isdigit_char s = true → str_all wire_safe s = true.
Proof.
  induction s as [|c s IH]; [done|]. cbn [str_all].
  intros [Hc Hs]%andb_true_iff. by rewrite (digit_wire_safe c Hc), IH.
Qed.

Lemma json_number_wire_safe (s : string) : json_number s → str_all wire_safe s = true.
Proof.
  assert (Hint : ∀ i, json_int i → str_all wire_safe i = true).
  { intros i [|c Hc|c t Hc Ht]; [done| |].
    - apply digits_wire_safe. cbn [str_all]. by rewrite (leading_is_digit c Hc).
    - apply digits_wire_safe. cbn [str_all].
      by rewrite (leading_is_digit c Hc), (json_digits_all t Ht). }
  assert (Hfrac : ∀ f, json_frac f → str_all wire_safe f = true).
  { intros f [|t Ht]; [done|]. cbn [str_all].
    by rewrite (digits_wire_safe t (json_digits_all t Ht)). }
  assert (Hexp : ∀ e, json_exp e → str_all wire_safe e = true).
  { intros e [|c t Hc Ht|c g t Hc Hg Ht]; [done| |].
    - cbn [str_all]. rewrite (digits_wire_safe t (json_digits_all t Ht)).
      by destruct Hc as [->| ->].
    - cbn [str_all]. rewrite (digits_wire_safe t (json_digits_all t Ht)).
      by destruct Hc as [->| ->], Hg as [->| ->]. }
  intros [i f e Hi Hf He|i f e Hi Hf He]; cbn [str_all];
    by rewrite !str_all_app, (Hint i Hi), (Hfrac f Hf), (Hexp e He).
Qed.

Lemma escape_char_wire_safe (c : ascii) : str_all wire_safe (escape_char c) = true.
Proof. destruct c as [[] [] [] [] [] [] [] []]; reflexivity. Qed.

Lemma encode_string_wire_safe (s : string) : str_all wire_safe (encode_string s) = true.
Proof.
  unfold encode_string. cbn [str_all]. rewrite str_all_app.
  replace (str_all wire_safe (escape_chars s)) with true; [done|].
  induction s as [|c s IH]; [done|]. cbn [escape_chars].
  by rewrite str_all_app, escape_char_wire_safe, <- IH.
Qed.

Lemma join_wire_safe (l : list string) :
  Forall (λ s, str_all wire_safe s = true) l → str_all wire_safe (str_join "," l) = true.
Proof.
  induction l as [|x l IH]; [done|]. intros [Hx Hl]%Forall_cons.
  destruct l as [|y l]; [exact Hx|].
  change (str_join "," (x :: y :: l)) with (x +:+ "," +:+ str_join "," (y :: l)).
  by rewrite !str_all_app, Hx, IH.
Qed.

Lemma dumps_wire_safe `{PyFloat} (v : pyval) :
  (∀ q : Q, json_number (float_repr q)) → str_all wire_safe (dumps v) = true.
Proof.
  intros Hrepr.
  induction v as [| b | z | q | s | l IH | d IH] using pyval_nested_ind.
  - done.
  - by destruct b.
  - apply json_number_wire_safe, str_of_Z_number.
  - apply json_number_wire_safe, Hrepr.
  - apply encode_string_wire_safe.
  - cbn [dumps]. rewrite !str_all_app, join_wire_safe; [done|]. by apply Forall_fmap.
  - cbn [dumps]. rewrite !str_all_app, join_wire_safe; [done|].
    apply Forall_fmap. eapply Forall_impl; [exact IH|].
    intros [k x] Hx. cbn in *. by rewrite !str_all_app, encode_string_wire_safe, Hx.
Qed.

Lemma wire_safe_no_LF (s : string) : str_all wire_safe s = true → str_has LF s = false.
Proof.
  induction s as [|c s IH]; [done|]. cbn [str_all str_has].
  intros [Hc Hs]%andb_true_iff. rewrite (IH Hs), orb_false_r.
  unfold wire_safe in Hc. apply andb_true_iff in Hc as [_ Hc].
  by destruct (Ascii.eqb c LF).
Qed.

Lemma digit_char_is_digit (n : N) : isdigit_char (digit_char n) = true.
Proof. apply digit_is_digit, N.mod_lt. lia. Qed.

Lemma print_decimal_number (q : Q) : json_number (print_decimal q).
Proof.
  unfold print_decimal.
  set (r := round_half_even (q * 1000)). set (m := Z.to_N (Z.abs r)).
  set (f := (m mod 1000)%N).
  set (frac := if negb (Ascii.eqb (digit_char f) "0") then _ else _).
  assert (Hfrac : json_frac (String "." frac)).
  { apply frac_some. subst frac.
    destruct (negb (Ascii.eqb (digit_char f) "0")); [|destruct (negb _)];
      repeat first [ apply digits_one, digit_char_is_digit
                   | apply digits_cons; [apply digit_char_is_digit|] ]. }
  rewrite <- (app_empty_r (String "." frac)).
  destruct (r <? 0); [rewrite app_String|]; rewrite app_empty_l.
  - apply number_neg; [apply str_of_N_int | exact Hfrac | apply exp_none].
  - apply number_pos; [apply str_of_N_int | exact Hfrac | apply exp_none].
Qed.

(** ** Snapshot assembly *)

Lemma assemble_dict `{PyFloat} h cpu_pct load dt r v :
  assemble h cpu_pct load dt r = Ok v → ∃ d, v = PDict d.
Proof.
  unfold assemble. destruct (mem_info h) as [[[mem_t mem_u] swap_t] swap_u].
  destruct (fs_root h); [|done]. destruct (proxmox_info h); [|done].
  destruct (read_disks h); [|done]. destruct (primary_ip h); [|done].
  cbn. intros [= <-]. eauto.
Qed.

Lemma build_snapshot_dict `{PyFloat} h c n v st :
  build_snapshot h c n = (Ok v, st) → ∃ d, v = PDict d.
Proof.
  unfold build_snapshot. destruct (compute h c) as [[cpu_pct|e] c']; [|done].
  destruct (rates h n) as [[[dt r]|e] n']; [|done].
  intros [= Hv _]. by eapply assemble_dict.
Qed.

Lemma sum_Z_perm (l1 l2 : list Z) : l1 ≡ₚ l2 → sum_Z l1 = sum_Z l2.
Proof. unfold sum_Z. induction 1; cbn [foldr] in *; lia. Qed.

Lemma sum_field_entries (proj : string * (Z * Z) → Z) (k : string)
    (items : list (string * (Z * Z))) :
  (∀ it, int_field k (iface_entry it) = proj it) →
  sum_Z (int_field k <$> (iface_entry <$> merge_sort item_le items))
  = sum_Z (proj <$> items).
Proof.
  intros Hk. rewrite <- list_fmap_compose.
  replace ((int_field k ∘ iface_entry) <$> merge_sort item_le items)
    with (proj <$> merge_sort item_le items).
  - apply sum_Z_perm. by rewrite merge_sort_Permutation.
  - apply list_fmap_ext. intros i it _. symmetry. apply Hk.
Qed.

(** C10. In every assembled snapshot the aggregates of the net block agree
    with its interface list: every entry carries integer [rx_Bps] and
    [tx_Bps], [total_rx_Bps] and [total_tx_Bps] are their sums over the
    entries, and [total_rx_bps], [total_tx_bps] are eight times these
    sums. *)
Theorem net_totals_consistent `{PyFloat} (h : Host) (c : CpuPercent) (n : NetRates)
    (snap : pyval) (st : CpuPercent * NetRates) :
  build_snapshot h c n = (Ok snap, st) →
  ∃ (net : pyval) (ifaces : list pyval),
    py_get "net" snap = Some net ∧
    py_get "interfaces" net = Some (PList ifaces) ∧
    Forall (λ e, ∃ rx tx : Z, py_get "rx_Bps" e = Some (PInt rx)
                             ∧ py_get "tx_Bps" e = Some (PInt tx)) ifaces ∧
    let total_rx := sum_Z (int_field "rx_Bps" <$> ifaces) in
    let total_tx := sum_Z (int_field "tx_Bps" <$> ifaces) in
    py_get "total_rx_Bps" net = Some (PInt total_rx) ∧
    py_get "total_tx_Bps" net = Some (PInt total_tx) ∧
    py_get "total_rx_bps" net = Some (PInt (8 * total_rx)) ∧
    py_get "total_tx_bps" net = Some (PInt (8 * total_tx)).
Proof.
  unfold build_snapshot. destruct (compute h c) as [[cpu_pct|e] c']; [|done].
  destruct (rates h n) as [[[dt r]|e] n']; [|done].
  intros [= Hv _]. revert Hv. unfold assemble.
  destruct (mem_info h) as [[[mem_t mem_u] swap_t] swap_u].
  destruct (fs_root h); [|done]. destruct (proxmox_info h); [|done].
  destruct (read_disks h); [|done]. destruct (primary_ip h); [|done].
  cbn [mbind result_bind]. intros [= <-].
  eexists _, _. split; [reflexivity|]. split; [reflexivity|]. split.
  { apply Forall_fmap, Forall_forall. intros [ifn [rx tx]] _. by exists rx, tx. }
  cbv zeta.
  rewrite (sum_field_entries (λ it, it.2.1)) by done.
  rewrite (sum_field_entries (λ it, it.2.2)) by done.
  rewrite !(Z.mul_comm 8). done.
Qed.

Lemma net_totals_consistent_witness :
  @build_snapshot decimal_floats host_b trackers_a.1 trackers_a.2
  = (Ok payload_b, (@build_snapshot decimal_floats host_b trackers_a.1 trackers_a.2).2) ∧
  ∃ (net : pyval) (ifaces : list pyval),
    py_get "net" payload_b = Some net ∧
    py_get "interfaces" net = Some (PList ifaces) ∧
    py_get "total_rx_Bps" net = Some (PInt (sum_Z (int_field "rx_Bps" <$> ifaces))) ∧
    py_get "total_rx_bps" net
    = Some (PInt (8 * sum_Z (int_field "rx_Bps" <$> ifaces))).
Proof.
  assert (Hb : @build_snapshot decimal_floats host_b trackers_a.1 trackers_a.2
               = (Ok payload_b,
                  (@build_snapshot decimal_floats host_b trackers_a.1 trackers_a.2).2))
    by (vm_compute; reflexivity).
  split; [exact Hb|].
  destruct (@net_totals_consistent decimal_floats host_b trackers_a.1 trackers_a.2
              payload_b _ Hb) as (net & ifaces & H1 & H2 & _ & H3 & _ & H4 & _).
  exists net, ifaces. auto.
Defined.

Lemma mapM_is_Ok {A B} (f : A → result B) (l : list A) :
  Forall (λ x, is_Ok (f x)) l → is_Ok (mapM f l).
Proof.
  induction 1 as [|x l [y Hy] _ [ys Hys]]; [by exists []|].
  exists (y :: ys). cbn. rewrite Hy. cbn. by rewrite Hys.
Qed.

Lemma qm_row_is_Ok (node ln : string) : is_Ok (qm_row node ln).
Proof.
  unfold qm_row. destruct (skipped_row ln); [by eexists|].
  destruct (_ && _) eqn:E; [|by eexists].
  apply andb_true_iff in E as [_ Hd].
  destruct (py_int_digits _ Hd) as [z Hz]. unfold int_of. rewrite Hz. by eexists.
Qed.

Lemma pct_row_is_Ok (h : Host) (node ln : string) : is_Ok (pct_row h node ln).
Proof.
  unfold pct_row. destruct (skipped_row ln); [by eexists|].
  destruct (_ && _) eqn:E; [|by eexists].
  apply andb_true_iff in E as [_ Hd].
  destruct (py_int_digits _ Hd) as [z Hz]. unfold int_of. rewrite Hz. by eexists.
Qed.

Lemma proxmox_info_is_Ok (h : Host) : is_Ok (proxmox_info h).
Proof.
  unfold proxmox_info.
  assert (Hvms : is_Ok (if which h "qm" then
            omap id <$> mapM (qm_row (hostname h))
              (str_splitlines (sh h "qm list --no-status --full 2>/dev/null || qm list 2>/dev/null"))
          else Ok [])).
  { destruct (which h "qm"); [|by eexists].
    destruct (mapM_is_Ok (qm_row (hostname h))
      (str_splitlines (sh h "qm list --no-status --full 2>/dev/null || qm list 2>/dev/null")))
      as [ys ->]; [|by eexists].
    apply Forall_forall. intros ln _. apply qm_row_is_Ok. }
  destruct Hvms as [vms ->].
  assert (Hlxcs : is_Ok (if which h "pct" then
            omap id <$> mapM (pct_row h (hostname h))
              (str_splitlines (sh h "pct list 2>/dev/null"))
          else Ok [])).
  { destruct (which h "pct"); [|by eexists].
    destruct (mapM_is_Ok (pct_row h (hostname h))
      (str_splitlines (sh h "pct list 2>/dev/null"))) as [ys ->]; [|by eexists].
    apply Forall_forall. intros ln _. apply pct_row_is_Ok. }
  destruct Hlxcs as [lxcs ->]. by eexists.
Qed.

Lemma proxmox_info_no_tools (h : Host) :
  which h "qm" = false → which h "pct" = false →
  proxmox_info h =
    Ok (PDict [("vm_running", PInt 0); ("vm_total", PInt 0);
               ("lxc_running", PInt 0); ("lxc_total", PInt 0);
               ("vms", PList []); ("lxcs", PList [])]).
Proof. intros Hq Hp. unfold proxmox_info. by rewrite Hq, Hp. Qed.

Lemma primary_ip_is_Ok (h : Host) :
  Forall (λ ln, (4 ≤ length (str_split ln))%nat)
         (str_splitlines (sh h "ip -4 -o addr show")) →
  is_Ok (primary_ip h).
Proof.
  intros Hrows. unfold primary_ip.
  destruct (mapM_is_Ok addr_row (str_splitlines (sh h "ip -4 -o addr show")))
    as [addrs ->]; [|by eexists].
  eapply Forall_impl; [exact Hrows|]. intros ln Hlen. cbn beta in Hlen. unfold addr_row, item.
  destruct (lookup_lt_is_Some_2 (str_split ln) 1) as [a ->]; [lia|].
  destruct (lookup_lt_is_Some_2 (str_split ln) 3) as [b ->]; [lia|].
  by eexists.
Qed.

Lemma compute_is_Ok (h : Host) (c : CpuPercent) :
  cpu_wf c → is_Ok (_read_stat h) → is_Ok (compute h c).1.
Proof.
  intros Hwf [[t i] Hr]. unfold compute. rewrite Hr.
  destruct (prev_total c) as [pt|] eqn:Ept; [|by eexists].
  destruct (Hwf (ltac:(by eexists))) as [pi ->].
  destruct (_ <=? _); by eexists.
Qed.

Lemma rates_is_Ok (h : Host) (n : NetRates) :
  net_wf n → is_Ok (_read h) → is_Ok (rates h n).1.
Proof.
  intros Hwf [cur Hr]. unfold rates. rewrite Hr.
  destruct (prev n) as [p|] eqn:Ep; [|by eexists].
  destruct (Hwf (ltac:(by eexists))) as [pt ->]. by eexists.
Qed.

Lemma compute_wf (h : Host) (c : CpuPercent) : cpu_wf c → cpu_wf (compute h c).2.
Proof.
  intros Hc. unfold compute. destruct (_read_stat h) as [[total idle]|e]; [|done].
  destruct (prev_total c) as [pt|]; [|by eexists].
  destruct (prev_idle c) as [pi|]; [|done].
  destruct (_ <=? _); by eexists.
Qed.

Lemma rates_wf (h : Host) (n : NetRates) : net_wf n → net_wf (rates h n).2.
Proof.
  intros Hn. unfold rates. destruct (_read h) as [cur|e]; [|done].
  destruct (prev n) as [p|]; [|by eexists].
  destruct (prev_t n) as [pt|]; [by eexists|done].
Qed.

Lemma build_snapshot_wf `{PyFloat} (h : Host) (c : CpuPercent) (n : NetRates) :
  cpu_wf c → net_wf n →
  cpu_wf (build_snapshot h c n).2.1 ∧ net_wf (build_snapshot h c n).2.2.
Proof.
  intros Hc Hn. unfold build_snapshot.
  pose proof (compute_wf h c Hc) as Hc'. pose proof (rates_wf h n Hn) as Hn'.
  destruct (compute h c) as [[cpu_pct|e] c']; [|done].
  destruct (rates h n) as [[[dt r]|e] n']; done.
Qed.

Lemma mem_info_missing (h : Host) :
  proc_meminfo h = None → mem_info h = (None, None, None, None).
Proof. intros E. unfold mem_info. by rewrite E. Qed.

Lemma uptime_missing `{PyFloat} (h : Host) : proc_uptime h = None → uptime_seconds h = None.
Proof. intros E. unfold uptime_seconds. by rewrite E. Qed.

Lemma loadavg_missing `{PyFloat} (h : Host) : proc_loadavg h = None → loadavg h = (0, 0, 0)%Q.
Proof. intros E. unfold loadavg. by rewrite E. Qed.




(** ** Protocol loop *)



Lemma try_body_writes `{PyFloat} r st data :
  In (SerialWrite data) (try_body r st).1.1 →
  ∃ d, data = dumps (PDict d) +:+ String LF "".
Proof.
  unfold try_body. destruct (rd r) as [raw|e]; [|done].
  destruct (negb _); [done|]. destruct (String.eqb _ _); [|done].
  destruct (build_snapshot _ _ _) as [[v|e] st'] eqn:E; [|done].
  destruct (build_snapshot_dict _ _ _ _ _ E) as [d ->].
  cbn. intros [[= <-]|[]]. eauto.
Qed.

Lemma wait_for_path_no_write polls data : ¬ In (SerialWrite data) (wait_for_path polls).1.
Proof.
  induction polls as [|[] polls IH]; cbn; [tauto | intros [|[]]; done |].
  destruct (wait_for_path polls) as [acts found]. cbn in *.
  intros [|[|]]; [done | done | tauto].
Qed.

Lemma loop_writes `{PyFloat} rounds polls st data :
  In (SerialWrite data) (loop rounds polls st).1 →
  ∃ r st0, In (SerialWrite data) (try_body r st0).1.1.
Proof.
  revert st. induction rounds as [|r rounds IH]; intros st; [done|].
  cbn [loop]. destruct (try_body r st) as [[acts res] st'] eqn:E.
  assert (Hacts : In (SerialWrite data) acts → ∃ r st0, In (SerialWrite data) (try_body r st0).1.1).
  { intros Hin. exists r, st. by rewrite E. }
  pose proof (wait_for_path_no_write polls data) as Hw.
  destruct res as [[]|e].
  - destruct (loop rounds polls st') as [more o] eqn:El. cbn.
    intros [|[|]%in_app_or]; [done | auto |].
    apply (IH st'). by rewrite El.
  - destruct e;
      try (destruct (loop rounds polls st') as [more o] eqn:El; cbn;
           intros [|[|[|]]%in_app_or]; [done | auto | done |];
           apply (IH st'); by rewrite El).
    destruct (wait_for_path polls) as [waits found]. cbn in Hw.
    destruct found; cbn.
    + intros [|[|[|[|[|[]]]]%in_app_or]%in_app_or]; done || auto.
    + intros [|[|]%in_app_or]; done || auto.
Qed.



Lemma wait_for_path_found (n : nat) (polls : list bool) :
  wait_for_path (replicate n false ++ true :: polls)
  = (absent_polls n ++ [PathExists true], true).
Proof.
  induction n as [|n IH]; [done|]. cbn [replicate app wait_for_path].
  by rewrite IH.
Qed.

Lemma wait_for_path_absent (n : nat) :
  wait_for_path (replicate n false) = (absent_polls n, false).
Proof.
  induction n as [|n IH]; [done|]. cbn [replicate wait_for_path]. by rewrite IH.
Qed.

Lemma try_body_serial_fault `{PyFloat} (r : Round) (st : CpuPercent * NetRates) :
  rd r = Raise SerialException
  ∨ (wr r = Some SerialException ∧ ∃ data, (try_body r st).1.1 = [SerialWrite data]) →
  (try_body r st).1.2 = Raise SerialException.
Proof.
  unfold try_body. intros [-> | [Hwr [data Hdata]]]; [done|].
  destruct (rd r) as [raw|e]; [|done].
  destruct (negb _); [done|]. destruct (String.eqb _ _); [|done].
  destruct (build_snapshot _ _ _) as [[payload|e] st']; [|done].
  cbn. by rewrite Hwr.
Qed.

(** C9. A serial fault, while reading or while writing a response, ends
    the session: the loop polls the device path once per second for as long
    as it is absent, without bound ([n] is arbitrary, and while the path
    stays absent the session is still blocked); at the first poll that
    finds it, the loop sleeps one second more, leaves the port and returns.
    After the fault the port is neither opened nor read nor written again,
    and the rounds that would follow ([rest]) play no part. *)
Theorem serial_fault_ends_session `{PyFloat} (r : Round) (rest : list Round)
    (st : CpuPercent * NetRates) :
  rd r = Raise SerialException
  ∨ (wr r = Some SerialException ∧ ∃ data, (try_body r st).1.1 = [SerialWrite data]) →
  let acts := (try_body r st).1.1 in
  (∀ (n : nat) (polls : list bool),
     loop (r :: rest) (replicate n false ++ true :: polls) st
     = (SerialRead :: acts ++ absent_polls n ++ [PathExists true; Sleep 1; SerialClose], Returned)) ∧
  (∀ n : nat,
     loop (r :: rest) (replicate n false) st
     = (SerialRead :: acts ++ absent_polls n, Blocked)).
Proof.
  intros Hfault acts. pose proof (try_body_serial_fault r st Hfault) as Hres.
  subst acts. cbn [loop]. destruct (try_body r st) as [[acts res] st'].
  cbn in Hres |- *. subst res. split.
  - intros n polls. rewrite wait_for_path_found. by rewrite <- app_assoc.
  - intros n. by rewrite wait_for_path_absent.
Qed.

Lemma serial_fault_ends_session_witness :
  rd round_unplugged = Raise SerialException ∧
  @loop decimal_floats [round_unplugged; round_get] [false; false; true] trackers_a
  = ([SerialRead; PathExists false; Sleep 1; PathExists false; Sleep 1;
      PathExists true; Sleep 1; SerialClose], Returned).
Proof.
  split; [reflexivity|].
  exact (proj1 (@serial_fault_ends_session decimal_floats round_unplugged [round_get]
                  trackers_a (or_introl eq_refl)) 2%nat []).
Defined.

(** Wherever in the session a read fails with a serial fault, the rounds
    after it make no difference. *)
Lemma rounds_after_read_fault_ignored `{PyFloat} (pre : list Round) (r : Round)
    (rest : list Round) (polls : list bool) (st : CpuPercent * NetRates) :
  rd r = Raise SerialException →
  loop (pre ++ r :: rest) polls st = loop (pre ++ [r]) polls st.
Proof.
  intros Hrd. revert st. induction pre as [|a pre IH]; intros st.
  - cbn [app loop]. unfold try_body. rewrite Hrd. reflexivity.
  - cbn [app loop]. destruct (try_body a st) as [[acts res] st'].
    destruct res as [[]|[]]; by rewrite ?IH.
Qed.

(** ** Sample evaluations *)

Example command_spellings :
  Forall (λ s, str_upper (str_strip s) = "GET") ["get"; "GET"; "Get"; "  gEt "].
Proof. repeat constructor. Qed.

Example other_commands :
  Forall (λ s, str_upper (str_strip s) ≠ "GET") [""; "status"; "GETX"; "G ET"].
Proof. repeat constructor; discriminate. Qed.

Example int_literals :
  py_int " -1_000 " = Some (-1000) ∧ py_int "+7" = Some 7
  ∧ py_int "1__0" = None ∧ py_int "12_" = None ∧ py_int "" = None
  ∧ py_int "0x10" = None.
Proof. repeat split. Qed.

Example split_fields :
  str_split "  eth0:  12 3 " = ["eth0:"; "12"; "3"]
  ∧ str_split1 ":" "eth0: 1:2" = Some ("eth0", " 1:2")
  ∧ str_splitlines (text_of ["a"; ""; "b"]) = ["a"; ""; "b"].
Proof. repeat split. Qed.

Example device_filtering (h : Host) :
  sys_block h
  = Some ["sda"; "sdb"; "loop0"; "ram0"; "dm-1"; "md0"; "nvme0n1"; "nvme0n1p1"] →
  list_block_devices h = Ok ["nvme0n1"; "sda"; "sdb"].
Proof. intros E. unfold list_block_devices. rewrite E. reflexivity. Qed.

Example nvme_always_active (h : Host) : disk_state h "nvme0n1" = Some "active".
Proof. reflexivity. Qed.

Example sata_state_from_tool (h : Host) :
  run h "hdparm -C /dev/sda" = Some (text_of [""; "/dev/sda:"; " drive state is:  standby"]) →
  disk_state h "sda" = Some "standby".
Proof.
  intros E. unfold disk_state, sh.
  change ("hdparm -C /dev/" +:+ "sda") with "hdparm -C /dev/sda".
  rewrite E. reflexivity.
Qed.

Example sata_state_tool_fails (h : Host) :
  run h "hdparm -C /dev/sda" = None → disk_state h "sda" = None.
Proof.
  intros E. unfold disk_state, sh.
  change ("hdparm -C /dev/" +:+ "sda") with "hdparm -C /dev/sda".
  rewrite E. reflexivity.
Qed.

Example dumps_escapes_newline `{PyFloat} :
  dumps (PList [PStr (String LF "a"); PNone; PInt (-12); PBool true])
  = "[" +:+ String DQ (String BS ("na" +:+ String DQ ",null,-12,true]")).
Proof. reflexivity. Qed.

Example session_trace :
  (@serve decimal_floats world_a).1
  = [PathExists false; Sleep 1; PathExists true; SerialOpen;
     SerialRead; SerialWrite response_a;
     SerialRead; PathExists false; Sleep 1; PathExists false; Sleep 1;
     PathExists true; Sleep 1; SerialClose]
  ∧ (@serve decimal_floats world_a).2 = Returned.
Proof. split; vm_compute; reflexivity. Qed.

Example fault_in_assembly_is_swallowed :
  @loop decimal_floats [round_get_no_statvfs; round_get_no_statvfs] []
    (CpuPercent_init, NetRates_init)
  = ([SerialRead; Sleep (1 # 10); SerialRead; Sleep (1 # 10)], Blocked).
Proof. vm_compute. reflexivity. Qed.

Example not_json_objects :
  ¬ json_object "[]" ∧ ¬ json_object "" ∧ ¬ json_value "nul".
Proof.
  repeat split.
  - inversion 1.
  - inversion 1.
  - inversion 1 as [| | | s Hn | | | | s Ho]; try discriminate.
    + inversion Hn as [i f e Hi Hf He Heq|].
      inversion Hi as [Hz|c Hc Hz|c t Hc Ht Hz]; subst i;
        [discriminate Heq | |]; injection Heq as -> _; discriminate Hc.
    + inversion Ho; discriminate.
Qed.

Example second_sample :
  py_get "cpu" payload_b ≫= py_get "percent" = Some (PFloat (250 # 10))
  ∧ py_get "net" payload_b ≫= py_get "total_rx_bps" = Some (PInt 8000).
Proof. split; vm_compute; reflexivity. Qed.

(** * Further properties *)

(** ** Block devices *)

Lemma rev_app_spec (s acc : string) : String.rev_app s acc = String.rev s +:+ acc.
Proof.
  unfold String.rev. revert acc.
  induction s as [|c s IH]; intros acc; cbn [String.rev_app].
  - by rewrite app_empty_l.
  - rewrite (IH (String c acc)), (IH (String c "")).
    by rewrite app_assoc_str, app_String, app_empty_l.
Qed.

Lemma rev_cons (c : ascii) (s : string) :
  String.rev (String c s) = String.rev s +:+ String c "".
Proof. unfold String.rev at 1. cbn [String.rev_app]. apply rev_app_spec. Qed.

Lemma rev_app_distr (a b : string) :
  String.rev (a +:+ b) = String.rev b +:+ String.rev a.
Proof.
  induction a as [|c a IH].
  - by rewrite app_empty_l, app_empty_r.
  - by rewrite app_String, !rev_cons, IH, app_assoc_str.
Qed.

Lemma rev_involutive (s : string) : String.rev (String.rev s) = s.
Proof.
  induction s as [|c s IH]; [done|].
  by rewrite rev_cons, rev_app_distr, IH.
Qed.

Lemma chop_lf_Some (s t : string) : chop_lf s = Some t → s = t +:+ String LF "".
Proof.
  unfold chop_lf. intros Hc.
  destruct (String.rev s) as [|c r] eqn:Hr; [done|].
  destruct (Ascii.eqb_spec c LF) as [->|]; [|done].
  injection Hc as <-.
  by rewrite <- (rev_involutive s), Hr, rev_cons.
Qed.

Lemma chop_lf_head (s : string) (c : ascii) (t : string) :
  chop_lf s = Some (String c t) → ∃ r, s = String c r.
Proof. intros ->%chop_lf_Some. rewrite app_String. eauto. Qed.

Lemma drop_prefix_head (a : ascii) (p s r : string) :
  str_drop_prefix (String a p) s = Some r → ∃ s', s = String a s'.
Proof.
  destruct s as [|b s]; cbn; [done|].
  destruct (Ascii.eqb_spec a b) as [->|]; [eauto|done].
Qed.

Lemma anchored_head (body : string → bool) (a : ascii) (s : string) :
  (∀ t, body t = true → ∃ r, t = String a r) →
  re_anchored body s = true → ∃ r, s = String a r.
Proof.
  intros Hb. unfold re_anchored. intros [H|H]%orb_true_iff; [by apply Hb|].
  destruct (chop_lf s) as [t|] eqn:Hc; [|done].
  destruct (Hb t H) as [r ->]. by eapply chop_lf_head.
Qed.

Lemma re_sd_head (t : string) : re_sd t = true → ∃ r, t = String "s" r.
Proof.
  unfold re_sd. destruct (str_drop_prefix "sd" t) eqn:Hd; [|done].
  intros _. by eapply drop_prefix_head.
Qed.

Lemma re_nvme_head (t : string) : re_nvme t = true → ∃ r, t = String "n" r.
Proof.
  unfold re_nvme. destruct (str_drop_prefix "nvme" t) eqn:Hd; [|done].
  intros _. by eapply drop_prefix_head.
Qed.

Lemma base_device_not_excluded (name : string) :
  is_base_device name = true →
  str_startswith "loop" name || str_startswith "ram" name
  || str_startswith "dm-" name || str_startswith "md" name = false.
Proof.
  unfold is_base_device. intros [H|H]%orb_true_iff.
  - destruct (anchored_head _ "s" name re_sd_head H) as [r ->]. reflexivity.
  - destruct (anchored_head _ "n" name re_nvme_head H) as [r ->]. reflexivity.
Qed.

(** X1. Whenever /sys/block can be listed, [list_block_devices] returns,
    in ascending order, exactly the entries of the listing that one of
    the two inclusion patterns accepts, each as often as it is listed: the
    exclusion of the loop, ram, dm- and md names never removes an entry
    that the inclusion patterns would keep. *)
Theorem block_devices_listing (h : Host) (names : list string) :
  sys_block h = Some names →
  ∃ devs : list string,
    list_block_devices h = Ok devs
    ∧ Sorted String.le devs
    ∧ devs ≡ₚ filter (λ name, is_base_device name = true) names.
Proof.
  intros Hs. unfold list_block_devices. rewrite Hs. cbn.
  eexists. split; [reflexivity|]. split.
  - apply Sorted_merge_sort, _.
  - rewrite merge_sort_Permutation.
    erewrite list_filter_iff; [reflexivity|].
    intros name. cbn beta. split.
    + destruct (_ || _ || _ || _); [done|]. by unfold is_base_device.
    + intros Hb. rewrite (base_device_not_excluded _ Hb). exact Hb.
Qed.

Lemma block_devices_listing_witness :
  sys_block host_a = Some ["loop0"; "nvme0n1"; "nvme0n1p1"; "dm-1"] ∧
  ∃ devs : list string,
    list_block_devices host_a = Ok devs
    ∧ Sorted String.le devs
    ∧ devs ≡ₚ filter (λ name, is_base_device name = true)
                ["loop0"; "nvme0n1"; "nvme0n1p1"; "dm-1"].
Proof. split; [reflexivity|]. apply block_devices_listing. reflexivity. Defined.

Lemma drop_prefix_Some (p s r : string) :
  str_drop_prefix p s = Some r → s = p +:+ r.
Proof.
  revert s. induction p as [|a p IH]; intros s; cbn.
  - intros [= ->]. by rewrite app_empty_l.
  - destruct s as [|b s]; [done|].
    destruct (Ascii.eqb_spec a b) as [->|]; [|done].
    intros ->%IH. by rewrite app_String.
Qed.

Lemma take_drop_while (f : ascii → bool) (s : string) :
  str_take_while f s +:+ str_drop_while f s = s.
Proof.
  induction s as [|c s IH]; cbn; [done|].
  destruct (f c); [|by rewrite app_empty_l].
  by rewrite app_String, IH.
Qed.

Lemma take_while_all (f : ascii → bool) (s : string) :
  str_all f (str_take_while f s) = true.
Proof.
  induction s as [|c s IH]; cbn; [done|].
  destruct (f c) eqn:Hf; cbn; [by rewrite Hf|done].
Qed.

Lemma str_all_impl (f g : ascii → bool) (s : string) :
  (∀ c, f c = true → g c = true) → str_all f s = true → str_all g s = true.
Proof.
  intros Hfg. induction s as [|c s IH]; cbn; [done|].
  intros [Hc Hs]%andb_true_iff. by rewrite (Hfg c Hc), IH.
Qed.

Lemma re_sd_chars (y : string) : re_sd y = true → str_all islower_char y = true.
Proof.
  unfold re_sd. destruct (str_drop_prefix "sd" y) as [r|] eqn:Hd; [|done].
  intros [_ Hr]%andb_true_iff. apply drop_prefix_Some in Hd as ->.
  by rewrite str_all_app, Hr.
Qed.

Lemma re_nvme_chars (y : string) : re_nvme y = true → str_all is_nvme_char y = true.
Proof.
  unfold re_nvme. destruct (str_drop_prefix "nvme" y) as [r|] eqn:Hd; [|done].
  intros [_ Hr]%andb_true_iff. apply drop_prefix_Some in Hd as ->.
  rewrite str_all_app. apply andb_true_iff. split; [reflexivity|].
  rewrite <- (take_drop_while isdigit_char r), str_all_app.
  apply andb_true_iff. split.
  - apply str_all_impl with isdigit_char; [|apply take_while_all].
    intros c Hc. unfold is_nvme_char. by rewrite Hc.
  - destruct (str_drop_while isdigit_char r) as [|c r']; [done|].
    destruct (Ascii.eqb_spec c "n") as [->|]; [|by destruct c as [[] [] [] [] [] [] [] []]].
    apply andb_true_iff in Hr as [_ Hr]. cbn.
    apply str_all_impl with isdigit_char; [|done].
    intros c Hc. unfold is_nvme_char. by rewrite Hc.
Qed.

(** A text that ends with a newline has the newline in every non-empty
    suffix. *)
Lemma suffix_has_LF (a d t : string) :
  a +:+ d = t +:+ String LF "" → d ≠ "" → str_has LF d = true.
Proof.
  revert t. induction a as [|c a IH]; intros t.
  - rewrite app_empty_l. intros -> _. rewrite str_has_app. cbn.
    by rewrite orb_true_r.
  - rewrite app_String. destruct t as [|c' t].
    + rewrite app_empty_l. intros [= _ Ha] Hd.
      destruct a; [rewrite app_empty_l in Ha; by subst|by rewrite app_String in Ha].
    + rewrite app_String. intros [= _ Ha]. by apply (IH t).
Qed.

Lemma anchored_suffix (body : string → bool) (a d : string) :
  d ≠ "" → str_has LF d = false →
  re_anchored body (a +:+ d) = body (a +:+ d).
Proof.
  intros Hd Hlf. unfold re_anchored.
  destruct (chop_lf (a +:+ d)) as [t|] eqn:Hc; [|by rewrite orb_false_r].
  apply chop_lf_Some in Hc. apply suffix_has_LF in Hc; [congruence|done].
Qed.

Lemma digits_no_LF (d : string) : str_all isdigit_char d = true → str_has LF d = false.
Proof.
  induction d as [|c d IH]; cbn; [done|].
  intros [Hc Hd]%andb_true_iff. rewrite (IH Hd), orb_false_r.
  destruct (Ascii.eqb_spec c LF) as [->|]; done.
Qed.

Lemma block_devices_elem (h : Host) (devs : list string) (name : string) :
  list_block_devices h = Ok devs → name ∈ devs →
  is_base_device name = true ∧ ∃ names, sys_block h = Some names ∧ name ∈ names.
Proof.
  unfold list_block_devices. destruct (sys_block h) as [names|]; [|done].
  cbn. intros [= <-]. rewrite merge_sort_Permutation.
  intros [Hk Hin]%list_elem_of_filter. split; [|eauto].
  destruct (_ || _ || _ || _); [done|]. exact Hk.
Qed.

(** X2. Partitions are never listed: a name made of an accepted SATA name
    followed by digits, or of an accepted NVMe name followed by [p] and
    digits, is not among the devices returned. *)
Theorem partitions_not_listed (h : Host) (devs : list string) (base digits : string) :
  list_block_devices h = Ok devs →
  digits ≠ "" → str_all isdigit_char digits = true →
  (re_anchored re_sd base = true → base +:+ digits ∉ devs)
  ∧ (re_anchored re_nvme base = true → base +:+ "p" +:+ digits ∉ devs).
Proof.
  intros Hl Hne Hd. split; intros Hb Hin.
  - destruct (block_devices_elem _ _ _ Hl Hin) as [Hx _].
    unfold is_base_device in Hx.
    rewrite !anchored_suffix in Hx by auto using digits_no_LF.
    apply orb_true_iff in Hx as [Hx|Hx].
    + apply re_sd_chars in Hx. rewrite str_all_app in Hx.
      apply andb_true_iff in Hx as [_ Hx].
      destruct digits as [|c d]; [done|]. cbn in Hx, Hd.
      apply andb_true_iff in Hx as [Hx _]. apply andb_true_iff in Hd as [Hd _].
      revert Hx Hd. unfold islower_char, isdigit_char, between.
      rewrite !andb_true_iff, !N.leb_le. lia.
    + destruct (anchored_head _ "s" base re_sd_head Hb) as [r ->].
      rewrite app_String in Hx. by apply re_nvme_head in Hx as [? [=]].
  - destruct (block_devices_elem _ _ _ Hl Hin) as [Hx _].
    unfold is_base_device in Hx.
    assert (Hp : str_has LF ("p" +:+ digits) = false).
    { rewrite app_String, app_empty_l. cbn. by apply digits_no_LF. }
    rewrite !anchored_suffix in Hx by (try done; by rewrite app_String).
    apply orb_true_iff in Hx as [Hx|Hx].
    + destruct (anchored_head _ "n" base re_nvme_head Hb) as [r ->].
      rewrite app_String in Hx. by apply re_sd_head in Hx as [? [=]].
    + apply re_nvme_chars in Hx. rewrite !str_all_app in Hx.
      apply andb_true_iff in Hx as [_ Hx]. apply andb_true_iff in Hx as [Hx _].
      by vm_compute in Hx.
Qed.

Lemma partitions_not_listed_witness :
  list_block_devices host_a = Ok ["nvme0n1"] ∧
  ("sda" +:+ "1" ∉ ["nvme0n1"]) ∧ ("nvme0n1" +:+ "p" +:+ "1" ∉ ["nvme0n1"]).
Proof.
  split; [reflexivity|].
  destruct (partitions_not_listed host_a ["nvme0n1"] "sda" "1") as [H1 _];
    [reflexivity|done|reflexivity|].
  destruct (partitions_not_listed host_a ["nvme0n1"] "nvme0n1" "1") as [_ H2];
    [reflexivity|done|reflexivity|].
  split; [apply H1|apply H2]; reflexivity.
Defined.

Lemma disk_state_range (h : Host) (name : string) :
  disk_state h name = None ∨ disk_state h name = Some "active"
  ∨ disk_state h name = Some "standby".
Proof.
  unfold disk_state. destruct (str_startswith "nvme" name); [auto|].
  destruct (re_drive_state _); [|auto].
  destruct (str_contains "standby" _); [auto|].
  destruct (str_contains "sleep" _); [auto|].
  destruct (_ || _); auto.
Qed.

(** X3. [read_disks] gives one record per device of
    [list_block_devices], in the same order; each record has the three
    keys [name], [state], [temp_C]; the temperature is always null; the
    state is null, [active] or [standby]; and an NVMe device is always
    [active]. *)
Theorem disk_records (h : Host) (disks : list pyval) :
  read_disks h = Ok disks →
  ∃ names : list string,
    list_block_devices h = Ok names ∧
    Forall2 (λ (name : string) (d : pyval),
               ∃ st : pyval,
                 d = PDict [("name", PStr name); ("state", st); ("temp_C", PNone)]
                 ∧ (st = PNone ∨ st = PStr "active" ∨ st = PStr "standby")
                 ∧ (str_startswith "nvme" name = true → st = PStr "active"))
            names disks.
Proof.
  unfold read_disks. destruct (list_block_devices h) as [names|]; [|done].
  cbn. intros [= <-]. exists names. split; [done|].
  apply Forall2_fmap_r, Forall_Forall2_diag, Forall_forall. intros name _.
  eexists. split; [reflexivity|]. split.
  - destruct (disk_state_range h name) as [->|[->| ->]]; cbn; auto.
  - intros Hn. unfold disk_state. by rewrite Hn.
Qed.

Lemma disk_records_witness :
  read_disks host_a
  = Ok [PDict [("name", PStr "nvme0n1"); ("state", PStr "active"); ("temp_C", PNone)]] ∧
  ∃ names : list string,
    list_block_devices host_a = Ok names ∧
    Forall2 (λ (name : string) (d : pyval),
               ∃ st : pyval,
                 d = PDict [("name", PStr name); ("state", st); ("temp_C", PNone)]
                 ∧ (st = PNone ∨ st = PStr "active" ∨ st = PStr "standby")
                 ∧ (str_startswith "nvme" name = true → st = PStr "active"))
            names
            [PDict [("name", PStr "nvme0n1"); ("state", PStr "active"); ("temp_C", PNone)]].
Proof. split; [reflexivity|]. apply disk_records. reflexivity. Defined.

Lemma drop_prefix_None (p s : string) :
  String.prefix p s = false → str_drop_prefix p s = None.
Proof.
  revert s. induction p as [|a p IH]; intros [|b s]; cbn; try done.
  destruct (ascii_dec a b) as [->|Hne].
  - rewrite Ascii.eqb_refl. apply IH.
  - intros _. by destruct (Ascii.eqb_spec a b).
Qed.

Lemma re_drive_state_None (s : string) :
  str_contains "drive state is:" s = false → re_drive_state s = None.
Proof.
  induction s as [|c s IH].
  - reflexivity.
  - cbn [str_contains re_drive_state].
    intros [Hp Hs]%orb_false_iff.
    rewrite (drop_prefix_None _ _ Hp). cbv beta iota zeta. by apply IH.
Qed.

(** X4. For a device that is not NVMe, the state is null whenever the
    output of the tool does not contain the text [drive state is:]; this
    includes a tool that fails, whose output counts as empty. *)
Theorem disk_state_without_marker (h : Host) (name : string) :
  str_startswith "nvme" name = false →
  str_contains "drive state is:" (sh h ("hdparm -C /dev/" +:+ name)) = false →
  disk_state h name = None.
Proof.
  intros Hn Hc. unfold disk_state. rewrite Hn.
  by rewrite (re_drive_state_None _ Hc).
Qed.

Lemma disk_state_without_marker_witness :
  str_startswith "nvme" "sda" = false ∧
  sh host_a ("hdparm -C /dev/" +:+ "sda") = "" ∧
  disk_state host_a "sda" = None.
Proof.
  split; [reflexivity|]. split; [reflexivity|].
  apply disk_state_without_marker; reflexivity.
Defined.

(** ** Proxmox inventory *)

Lemma int_digits_nonneg (s : string) :
  ∀ (acc : Z) (seen : bool) (z : Z),
    int_digits acc seen s = Some z → 0 ≤ acc → 0 ≤ z.
Proof.
  induction s as [|c s IH]; intros acc seen z; cbn.
  - destruct seen; [|done]. intros [= ->]. done.
  - destruct (isdigit_char c).
    + intros Hz Hacc. apply (IH _ _ _ Hz). unfold digit_value. lia.
    + destruct (Ascii.eqb c "_"); [|done]. destruct seen; [|done].
      intros Hz Hacc. by apply (IH _ _ _ Hz).
Qed.

Lemma py_int_digits_nonneg (s : string) (z : Z) :
  str_isdigit s = true → py_int s = Some z → 0 ≤ z.
Proof.
  intros Hd. unfold py_int. destruct s as [|c s]; [done|].
  cbn in Hd. rewrite (strip_digits (String c s) Hd).
  apply andb_true_iff in Hd as [Hc _].
  destruct (Ascii.eqb_spec c "+") as [->|]; [done|].
  destruct (Ascii.eqb_spec c "-") as [->|]; [done|].
  intros Hz.
  assert (int_digits 0 false (String c s) = Some z) as Hz'.
  { revert Hz. by destruct c as [[] [] [] [] [] [] [] []]. }
  by apply int_digits_nonneg in Hz'.
Qed.

Lemma str_of_Z_nonempty (z : Z) : str_of_Z z ≠ "".
Proof.
  destruct z as [|p|p]; cbn; [done| |done].
  destruct (str_of_N_spec (Npos p)) as [H|(c & s & H & _)];
    cbn in H; by rewrite H.
Qed.

Lemma name_or_id_nonempty (name : string) (vmid : Z) : name_or_id name vmid ≠ "".
Proof.
  unfold name_or_id. destruct name; cbn; [apply str_of_Z_nonempty|done].
Qed.

Lemma lower_char_idem (c : ascii) : lower_char (lower_char c) = lower_char c.
Proof. by destruct c as [[] [] [] [] [] [] [] []]. Qed.

Lemma str_lower_idem (s : string) : str_lower (str_lower s) = str_lower s.
Proof.
  unfold str_lower. induction s as [|c s IH]; cbn; [done|].
  by rewrite lower_char_idem, IH.
Qed.

Lemma guest_is_ok (node kind : string) (vmid : Z) (name status : string) :
  0 ≤ vmid → guest_ok node kind (guest node kind vmid name (str_lower status)).
Proof.
  intros Hv. exists vmid, (name_or_id name vmid), (str_lower status).
  split; [done|]. split; [done|].
  split; [apply name_or_id_nonempty|apply str_lower_idem].
Qed.

Lemma qm_row_guest (node ln : string) :
  ∃ o, qm_row node ln = Ok o ∧ ∀ v, o = Some v → guest_ok node "qemu" v.
Proof.
  unfold qm_row. destruct (skipped_row ln); [by eexists|].
  destruct (_ && _) eqn:E; [|by eexists].
  apply andb_true_iff in E as [_ Hd].
  destruct (py_int_digits _ Hd) as [z Hz]. unfold int_of. rewrite Hz. cbn.
  eexists. split; [reflexivity|]. intros v [= <-].
  apply guest_is_ok. by eapply py_int_digits_nonneg.
Qed.

Lemma pct_row_guest (h : Host) (node ln : string) :
  ∃ o, pct_row h node ln = Ok o ∧ ∀ v, o = Some v → guest_ok node "lxc" v.
Proof.
  unfold pct_row. destruct (skipped_row ln); [by eexists|].
  destruct (_ && _) eqn:E; [|by eexists].
  apply andb_true_iff in E as [_ Hd].
  destruct (py_int_digits _ Hd) as [z Hz]. unfold int_of. rewrite Hz. cbn.
  eexists. split; [reflexivity|]. intros v [= <-].
  apply guest_is_ok. by eapply py_int_digits_nonneg.
Qed.

Lemma rows_guests {A} (P : A → Prop) (f : string → result (option A))
    (lines : list string) :
  (∀ ln, ∃ o, f ln = Ok o ∧ ∀ v, o = Some v → P v) →
  ∃ l, omap id <$> mapM f lines = Ok l ∧ Forall P l.
Proof.
  intros Hf. induction lines as [|ln lines (l & Hl & HP)]; [by exists []|].
  destruct (Hf ln) as (o & Ho & Hv). cbn. rewrite Ho. cbn.
  destruct (mapM f lines) as [os|]; [|done]. cbn in *. injection Hl as <-.
  destruct o as [v|]; cbn.
  - eexists. split; [reflexivity|]. constructor; [by apply Hv|done].
  - eexists. split; [reflexivity|done].
Qed.

Lemma count_running_bounds (l : list pyval) :
  0 ≤ count_running l ≤ Z.of_nat (length l).
Proof.
  unfold count_running. split; [lia|].
  apply Nat2Z.inj_le. apply length_filter.
Qed.

Lemma proxmox_info_shape (h : Host) :
  ∃ vms lxcs : list pyval,
    proxmox_info h =
      Ok (PDict [("vm_running", PInt (count_running vms));
                 ("vm_total", PInt (Z.of_nat (length vms)));
                 ("lxc_running", PInt (count_running lxcs));
                 ("lxc_total", PInt (Z.of_nat (length lxcs)));
                 ("vms", PList vms); ("lxcs", PList lxcs)])
    ∧ Forall (guest_ok (hostname h) "qemu") vms
    ∧ Forall (guest_ok (hostname h) "lxc") lxcs.
Proof.
  unfold proxmox_info.
  assert (∃ vms, (if which h "qm" then
            omap id <$> mapM (qm_row (hostname h))
              (str_splitlines (sh h "qm list --no-status --full 2>/dev/null || qm list 2>/dev/null"))
          else Ok []) = Ok vms ∧ Forall (guest_ok (hostname h) "qemu") vms)
    as (vms & -> & Hvms).
  { destruct (which h "qm"); [|by exists []].
    apply rows_guests, qm_row_guest. }
  assert (∃ lxcs, (if which h "pct" then
            omap id <$> mapM (pct_row h (hostname h))
              (str_splitlines (sh h "pct list 2>/dev/null"))
          else Ok []) = Ok lxcs ∧ Forall (guest_ok (hostname h) "lxc") lxcs)
    as (lxcs & -> & Hlxcs).
  { destruct (which h "pct"); [|by exists []].
    apply rows_guests, pct_row_guest. }
  by exists vms, lxcs.
Qed.


(** X6. Every entry of the two inventory lists has the five keys [id],
    [name], [status], [node], [type] in this order, with the host name as
    node, [qemu] or [lxc] as type, an identifier that is not negative, a
    name that is not empty, and a status without upper-case letters. *)
Theorem proxmox_entries (h : Host) (info : pyval) (vms lxcs : list pyval) :
  proxmox_info h = Ok info →
  py_get "vms" info = Some (PList vms) →
  py_get "lxcs" info = Some (PList lxcs) →
  Forall (guest_ok (hostname h) "qemu") vms
  ∧ Forall (guest_ok (hostname h) "lxc") lxcs.
Proof.
  destruct (proxmox_info_shape h) as (vms' & lxcs' & -> & Hv & Hl).
  intros [= <-]. cbn. by intros [= <-] [= <-].
Qed.

Lemma proxmox_entries_witness :
  proxmox_info host_pve
  = Ok (PDict [("vm_running", PInt 1); ("vm_total", PInt 2);
               ("lxc_running", PInt 1); ("lxc_total", PInt 1);
               ("vms", PList [guest "thinklab" "qemu" 100 "web" "running";
                              guest "thinklab" "qemu" 101 "db" "stopped"]);
               ("lxcs", PList [guest "thinklab" "lxc" 200 "mail" "running"])]) ∧
  Forall (guest_ok (hostname host_pve) "qemu")
         [guest "thinklab" "qemu" 100 "web" "running";
          guest "thinklab" "qemu" 101 "db" "stopped"]
  ∧ Forall (guest_ok (hostname host_pve) "lxc")
           [guest "thinklab" "lxc" 200 "mail" "running"].
Proof.
  split; [reflexivity|].
  eapply (proxmox_entries host_pve); reflexivity.
Defined.

(** ** Character classes through the text operations *)

Lemma str_all_rev (f : ascii → bool) (s : string) :
  str_all f (String.rev s) = str_all f s.
Proof.
  induction s as [|c s IH]; [done|].
  rewrite rev_cons, str_all_app, IH. cbn. by rewrite andb_true_r, andb_comm.
Qed.

Lemma flush_all (f : ascii → bool) (cur : string) :
  str_all f cur = true → Forall (λ w, str_all f w = true) (flush cur).
Proof.
  intros Hc. destruct cur; cbn [flush]; [done|].
  constructor; [by rewrite str_all_rev|done].
Qed.

Lemma str_split_go_all (f : ascii → bool) (s : string) :
  ∀ cur, str_all f cur = true → str_all f s = true →
         Forall (λ w, str_all f w = true) (str_split_go cur s).
Proof.
  induction s as [|c s IH]; intros cur Hcur; cbn [str_split_go str_all].
  - intros _. by apply flush_all.
  - intros [Hc Hs]%andb_true_iff. destruct (isspace c).
    + apply Forall_app. split; [by apply flush_all|by apply IH].
    + apply IH; [|done]. cbn. by rewrite Hc, Hcur.
Qed.

Lemma str_split_all (f : ascii → bool) (s : string) :
  str_all f s = true → Forall (λ w, str_all f w = true) (str_split s).
Proof. by apply str_split_go_all. Qed.

Lemma readlines_go_all (f : ascii → bool) (s : string) :
  ∀ cur, str_all f cur = true → str_all f s = true →
         Forall (λ ln, str_all f ln = true) (readlines_go cur s).
Proof.
  induction s as [|c s IH]; intros cur Hcur; cbn [readlines_go str_all].
  - intros _. by apply flush_all.
  - intros [Hc Hs]%andb_true_iff. destruct (Ascii.eqb c LF).
    + constructor; [|by apply IH].
      rewrite str_all_rev. cbn. by rewrite Hc, Hcur.
    + apply IH; [|done]. cbn. by rewrite Hc, Hcur.
Qed.

Lemma readlines_all (f : ascii → bool) (s : string) :
  str_all f s = true → Forall (λ ln, str_all f ln = true) (readlines s).
Proof. by apply readlines_go_all. Qed.

Lemma readline_all (f : ascii → bool) (s : string) :
  str_all f s = true → str_all f (readline s) = true.
Proof.
  intros Hs%readlines_all. unfold readline.
  destruct (readlines s); [done|]. by inversion Hs.
Qed.

Lemma lstrip_by_all (f g : ascii → bool) (s : string) :
  str_all f s = true → str_all f (str_lstrip_by g s) = true.
Proof.
  induction s as [|c s IH]; cbn; [done|].
  intros [Hc Hs]%andb_true_iff. destruct (g c); [by apply IH|].
  cbn. by rewrite Hc, Hs.
Qed.

Lemma rstrip_by_all (f g : ascii → bool) (s : string) :
  str_all f s = true → str_all f (str_rstrip_by g s) = true.
Proof.
  induction s as [|c s IH]; [done|].
  rewrite rstrip_by_cons. cbn [str_all]. intros [Hc Hs]%andb_true_iff.
  specialize (IH Hs). destruct (str_rstrip_by g s) as [|a r].
  - destruct (g c); [done|]. cbn. by rewrite Hc.
  - change (f c && str_all f (String a r) = true). by rewrite Hc, IH.
Qed.

Lemma strip_by_all (f g : ascii → bool) (s : string) :
  str_all f s = true → str_all f (str_strip_by g s) = true.
Proof. intros Hs. by apply rstrip_by_all, lstrip_by_all. Qed.

Lemma split1_all (f : ascii → bool) (sep : ascii) (s a b : string) :
  str_split1 sep s = Some (a, b) → str_all f s = true →
  str_all f a = true ∧ str_all f b = true.
Proof.
  revert a. induction s as [|c s IH]; intros a; cbn; [done|].
  destruct (Ascii.eqb c sep).
  - intros [= <- <-] [_ Hs]%andb_true_iff. done.
  - destruct (str_split1 sep s) as [[a' b']|]; [|done].
    intros [= <- <-] [Hc Hs]%andb_true_iff.
    destruct (IH a' eq_refl Hs) as [Ha Hb]. cbn. by rewrite Hc, Ha.
Qed.

Lemma split1_None (sep : ascii) (s : string) :
  str_split1 sep s = None ↔ str_has sep s = false.
Proof.
  induction s as [|c s IH]; cbn; [done|].
  destruct (Ascii.eqb c sep); cbn; [done|].
  rewrite <- IH. by destruct (str_split1 sep s) as [[]|].
Qed.

Lemma py_int_unsigned (w : string) (z : Z) :
  str_all not_minus w = true → py_int w = Some z → 0 ≤ z.
Proof.
  intros Hw. unfold py_int.
  pose proof (strip_by_all not_minus isspace_int w Hw) as Ht.
  destruct (str_strip_by isspace_int w) as [|c t]; [done|].
  destruct (Ascii.eqb_spec c "-") as [->|Hm]; [done|].
  destruct (Ascii.eqb_spec c "+") as [->|Hp].
  - intros Hz. by apply int_digits_nonneg in Hz.
  - intros Hz.
    assert (int_digits 0 false (String c t) = Some z) as Hz'.
    { revert Hz Hm Hp. clear.
      destruct c as [[] [] [] [] [] [] [] []]; try done. }
    by apply int_digits_nonneg in Hz'.
Qed.

(** ** Memory *)

Lemma meminfo_rows_raise (ln : string) (lines : list string) :
  ln ∈ lines → (∀ m, ∃ e, meminfo_row m ln = Raise e) →
  ∀ m, ∃ e, meminfo_rows m lines = Raise e.
Proof.
  intros Hin Hr. induction lines as [|l lines IH]; intros m.
  - by apply elem_of_nil in Hin.
  - cbn. apply elem_of_cons in Hin as [<-|Hin].
    + destruct (Hr m) as [e ->]. by exists e.
    + destruct (meminfo_row m l) as [m'|e]; cbn; [by apply IH|by exists e].
Qed.

(** X7. One line of /proc/meminfo without a colon, a blank line for
    instance, makes all four memory figures null, whatever the other
    lines hold. *)
Theorem mem_info_malformed_line (h : Host) (text ln : string) :
  proc_meminfo h = Some text → ln ∈ readlines text → str_has ":" ln = false →
  mem_info h = (None, None, None, None).
Proof.
  intros Ht Hin Hc. unfold mem_info. rewrite Ht. cbn.
  destruct (meminfo_rows_raise ln (readlines text) Hin) with (m := (∅ : gmap string Z))
    as [e ->]; [|done].
  intros m. unfold meminfo_row. apply split1_None in Hc. rewrite Hc.
  by exists ValueError.
Qed.

Lemma mem_info_malformed_line_witness :
  "" +:+ String LF "" ∈ readlines (text_of ["MemTotal: 8000 kB"; ""; "MemFree: 1000 kB"]) ∧
  mem_info (with_optional None None
              (Some (text_of ["MemTotal: 8000 kB"; ""; "MemFree: 1000 kB"])) host_a)
  = (None, None, None, None).
Proof.
  assert (Hin : "" +:+ String LF ""
                ∈ readlines (text_of ["MemTotal: 8000 kB"; ""; "MemFree: 1000 kB"])).
  { vm_compute. apply elem_of_cons. right. apply elem_of_cons. by left. }
  split; [exact Hin|].
  eapply mem_info_malformed_line; [reflexivity|exact Hin|reflexivity].
Defined.

Lemma meminfo_rows_nonneg (lines : list string) :
  ∀ m m' : gmap string Z,
    meminfo_rows m lines = Ok m' →
    Forall (λ ln, str_all not_minus ln = true) lines →
    map_Forall (λ _ v, 0 ≤ v) m → map_Forall (λ _ v, 0 ≤ v) m'.
Proof.
  induction lines as [|ln lines IH]; intros m m'; cbn.
  - by intros [= <-].
  - destruct (meminfo_row m ln) as [m1|] eqn:Hrow; [|done]. cbn.
    intros Hrows Hall Hm. inversion_clear Hall as [|?? Hln Hlines].
    apply (IH m1 m' Hrows Hlines).
    revert Hrow. unfold meminfo_row.
    destruct (str_split1 ":" ln) as [[k v]|] eqn:Hs; [|done]. cbn.
    destruct (split1_all not_minus _ _ _ _ Hs Hln) as [_ Hv].
    pose proof (str_split_all not_minus _ (strip_by_all not_minus isspace v Hv)) as Hw.
    unfold item. fold (str_strip v) in Hw.
    destruct (str_split (str_strip v)) as [|w ws] eqn:Hws.
    { done. }
    inversion_clear Hw as [|?? Hw0 _].
    cbn. unfold int_of. destruct (py_int w) as [n|] eqn:Hn; [|done]. cbn.
    intros [= <-]. apply map_Forall_insert_2; [|done].
    apply py_int_unsigned in Hn; [lia|done].
Qed.

(** X8. When /proc/meminfo holds no minus sign and a total is reported,
    the total is not negative and the used memory does not exceed it;
    likewise the swap total is not negative and the used swap does not
    exceed it. *)
Theorem mem_used_within_total (h : Host) (text : string) (total used : Z)
    (swap_t swap_u : option Z) :
  proc_meminfo h = Some text → str_all not_minus text = true →
  mem_info h = (Some total, Some used, swap_t, swap_u) →
  0 ≤ total ∧ used ≤ total
  ∧ ∀ st su, swap_t = Some st → swap_u = Some su → 0 ≤ st ∧ su ≤ st.
Proof.
  intros Ht Hm. unfold mem_info. rewrite Ht. cbn.
  destruct (meminfo_rows ∅ (readlines text)) as [m|] eqn:Hrows; [|done].
  pose proof (meminfo_rows_nonneg _ _ _ Hrows (readlines_all _ _ Hm)
                (map_Forall_empty _)) as Hpos.
  assert (Hd : ∀ k, 0 ≤ default 0 (m !! k)).
  { intros k. destruct (m !! k) as [v|] eqn:Hk; cbn; [by apply (Hpos k)|done]. }
  intros [= Htot Hused <- <-].
  rewrite Htot in Hused. cbn in Hused. injection Hused as <-.
  pose proof (Hd "MemFree"). pose proof (Hd "Buffers"). pose proof (Hd "Cached").
  pose proof (Hd "SReclaimable"). pose proof (Hd "SwapFree").
  split; [by apply (Hpos "MemTotal")|]. split; [lia|].
  intros st su Hst [= <-]. rewrite Hst. cbn.
  split; [by apply (Hpos "SwapTotal")|lia].
Qed.

Lemma mem_used_within_total_witness :
  mem_info host_a = (Some 8192000, Some 5017600, Some 2048000, Some 0) ∧
  0 ≤ 8192000 ∧ 5017600 ≤ 8192000
  ∧ ∀ st su, Some 2048000 = Some st → Some 0 = Some su → 0 ≤ st ∧ su ≤ st.
Proof.
  split; [reflexivity|].
  eapply (mem_used_within_total host_a); [reflexivity|reflexivity|reflexivity].
Defined.

(** ** Root filesystem and primary address *)

(** X9. For a fragment size that is not negative and a number of free
    blocks between zero and the number of blocks, [fs_root] reports
    [total_bytes = f_frsize * f_blocks] and
    [used_bytes = f_frsize * (f_blocks - f_bfree)], which lies between
    zero and the total. *)
Theorem fs_root_used_bounds (h : Host) (frsize blocks bfree : Z) :
  statvfs_root h = Some (frsize, blocks, bfree) →
  0 ≤ frsize → 0 ≤ bfree ≤ blocks →
  ∃ total used : Z,
    fs_root h = Ok (PDict [("mount", PStr "/"); ("total_bytes", PInt total);
                           ("used_bytes", PInt used)])
    ∧ total = frsize * blocks
    ∧ used = frsize * (blocks - bfree)
    ∧ 0 ≤ used ≤ total.
Proof.
  intros Hs Hf Hb. unfold fs_root. rewrite Hs. cbn.
  eexists _, _. split; [reflexivity|]. split; [reflexivity|]. nia.
Qed.

Lemma fs_root_used_bounds_witness :
  statvfs_root host_a = Some (4096, 1000, 400) ∧
  ∃ total used : Z,
    fs_root host_a = Ok (PDict [("mount", PStr "/"); ("total_bytes", PInt total);
                                ("used_bytes", PInt used)])
    ∧ total = 4096 * 1000
    ∧ used = 4096 * (1000 - 400)
    ∧ 0 ≤ used ≤ total.
Proof.
  split; [reflexivity|].
  apply fs_root_used_bounds; [reflexivity|lia|lia].
Defined.

Lemma take_while_nonempty_head (f : ascii → bool) (s : string) :
  nonempty (str_take_while f s) = true → str_take_while f s ≠ "".
Proof. by destruct (str_take_while f s). Qed.

Lemma prefix_app (p q : string) : String.prefix p (p +:+ q) = true.
Proof.
  induction p as [|a p IH]; [by destruct q|].
  rewrite app_String. cbn. by destruct (ascii_dec a a).
Qed.

Lemma prefix_app_l (a b c : string) :
  String.prefix (a +:+ b) (a +:+ c) = String.prefix b c.
Proof.
  induction a as [|x a IH]; [by rewrite !app_empty_l|].
  rewrite !app_String. cbn. by destruct (ascii_dec x x).
Qed.

Lemma re_default_route_Some (s gw dev : string) :
  re_default_route s = Some (gw, dev) →
  gw ≠ "" ∧ dev ≠ "" ∧ str_all is_addr_char gw = true
  ∧ str_all (λ c, negb (isspace c)) dev = true
  ∧ str_contains ("default via " +:+ gw +:+ " dev " +:+ dev) s = true.
Proof.
  induction s as [|c s IH].
  - done.
  - cbn [re_default_route str_contains].
    destruct (str_drop_prefix "default via " (String c s)) as [r|] eqn:Hd.
    + destruct (str_drop_prefix " dev " (str_drop_while is_addr_char r))
        as [r'|] eqn:Hd'.
      * destruct (nonempty (str_take_while is_addr_char r)
                  && nonempty (str_take_while (λ c0, negb (isspace c0)) r')) eqn:Hn.
        -- intros [= <- <-]. apply andb_true_iff in Hn as [Hg Hv].
           split; [by apply take_while_nonempty_head|].
           split; [by apply take_while_nonempty_head|].
           split; [apply take_while_all|]. split; [apply take_while_all|].
           apply orb_true_iff. left.
           apply drop_prefix_Some in Hd. apply drop_prefix_Some in Hd'.
           rewrite Hd. rewrite <- (take_drop_while is_addr_char r) at 2.
           rewrite Hd'.
           rewrite <- (take_drop_while (λ c0, negb (isspace c0)) r') at 2.
           rewrite !prefix_app_l. apply prefix_app.
        -- intros Hs. apply IH in Hs as (? & ? & ? & ? & ->).
           by rewrite orb_true_r.
      * intros Hs. apply IH in Hs as (? & ? & ? & ? & ->).
        by rewrite orb_true_r.
    + intros Hs. apply IH in Hs as (? & ? & ? & ? & ->).
      by rewrite orb_true_r.
Qed.

Lemma primary_ip_shape (h : Host) (ip : pyval) :
  primary_ip h = Ok ip →
  ∃ (addrs : list (string * string)) (prim_ip : option string),
    let m := re_default_route (sh h "ip -4 route show default | head -n1") in
    ip = PDict [("primary_ifname", opt_str (snd <$> m));
                ("primary_ipv4", opt_str prim_ip);
                ("gateway_ipv4", opt_str (fst <$> m)); ("route_metric", PNone);
                ("ip_status", PStr "ok");
                ("ipv4_addrs",
                 PList ((λ a : string * string,
                           PDict [("if", PStr a.1); ("addr", PStr a.2)]) <$> addrs))]
    ∧ (∀ addr, prim_ip = Some addr →
         ∃ dev i, snd <$> m = Some dev ∧ addrs !! i = Some (dev, addr)
                  ∧ ∀ j a, addrs !! j = Some a → (j < i)%nat → a.1 ≠ dev).
Proof.
  unfold primary_ip.
  destruct (mapM addr_row _) as [addrs|]; [|done]. cbn.
  intros [= <-]. eexists addrs, _. split; [reflexivity|].
  intros addr.
  destruct (re_default_route _) as [[gw dev]|]; cbn; [|done].
  destruct (nonempty dev); [|done].
  destruct (list_find _ addrs) as [[i [d a]]|] eqn:Hf; cbn; [|done].
  intros [= <-]. apply list_find_Some in Hf as (Hi & Hd & Hlt).
  cbn in Hd. subst d. exists dev, i. split; [done|]. split; [done|].
  intros j b Hj Hji. by apply (Hlt j b).
Qed.

(** X10. When [primary_ip] reports a primary address, it also reports a
    primary interface, and the address is that of the first entry of
    [ipv4_addrs] whose interface is the primary one. *)
Theorem primary_address_listed (h : Host) (ip : pyval) (addr : string) :
  primary_ip h = Ok ip →
  py_get "primary_ipv4" ip = Some (PStr addr) →
  ∃ (dev : string) (addrs : list pyval) (i : nat),
    py_get "primary_ifname" ip = Some (PStr dev)
    ∧ py_get "ipv4_addrs" ip = Some (PList addrs)
    ∧ addrs !! i = Some (PDict [("if", PStr dev); ("addr", PStr addr)])
    ∧ ∀ (j : nat) (e : pyval),
        addrs !! j = Some e → (j < i)%nat → py_get "if" e ≠ Some (PStr dev).
Proof.
  intros (addrs & prim_ip & -> & Hp)%primary_ip_shape. cbn.
  destruct prim_ip as [a|]; cbn; [|done]. intros [= ->].
  destruct (Hp addr eq_refl) as (dev & i & -> & Hi & Hlt). cbn.
  exists dev, ((λ a : string * string,
                  PDict [("if", PStr a.1); ("addr", PStr a.2)]) <$> addrs), i.
  split; [done|]. split; [done|]. split.
  - by rewrite list_lookup_fmap, Hi.
  - intros j e. rewrite list_lookup_fmap.
    destruct (addrs !! j) as [b|] eqn:Hj; cbn; [|done].
    intros [= <-] Hji. cbn. intros [= Hb]. by apply (Hlt j b).
Qed.

Lemma primary_address_listed_witness :
  ∃ ip : pyval,
    primary_ip host_net = Ok ip
    ∧ py_get "primary_ipv4" ip = Some (PStr "192.168.1.10/24")
    ∧ ∃ (dev : string) (addrs : list pyval) (i : nat),
        py_get "primary_ifname" ip = Some (PStr dev)
        ∧ py_get "ipv4_addrs" ip = Some (PList addrs)
        ∧ addrs !! i = Some (PDict [("if", PStr dev); ("addr", PStr "192.168.1.10/24")])
        ∧ ∀ (j : nat) (e : pyval),
            addrs !! j = Some e → (j < i)%nat → py_get "if" e ≠ Some (PStr dev).
Proof.
  eexists. split; [reflexivity|]. split; [reflexivity|].
  eapply (primary_address_listed host_net); reflexivity.
Defined.

(** X11. The primary interface and the gateway are reported together:
    either both are null, and then the primary address is null too, or
    both are texts that are not empty, the gateway made of digits and dots
    only, the interface without whitespace, and the route text contains
    [default via GATEWAY dev INTERFACE]. *)
Theorem default_route_fields (h : Host) (ip : pyval) :
  primary_ip h = Ok ip →
  (py_get "primary_ifname" ip = Some PNone
   ∧ py_get "gateway_ipv4" ip = Some PNone
   ∧ py_get "primary_ipv4" ip = Some PNone)
  ∨ ∃ dev gw : string,
      py_get "primary_ifname" ip = Some (PStr dev)
      ∧ py_get "gateway_ipv4" ip = Some (PStr gw)
      ∧ dev ≠ "" ∧ gw ≠ ""
      ∧ str_all is_addr_char gw = true
      ∧ str_all (λ c, negb (isspace c)) dev = true
      ∧ str_contains ("default via " +:+ gw +:+ " dev " +:+ dev)
          (sh h "ip -4 route show default | head -n1") = true.
Proof.
  intros (addrs & prim_ip & -> & Hp)%primary_ip_shape. cbn.
  destruct (re_default_route _) as [[gw dev]|] eqn:Hr; cbn in *.
  - right. exists dev, gw. split; [done|]. split; [done|].
    apply re_default_route_Some in Hr as (? & ? & ? & ? & ?). done.
  - left. split; [done|]. split; [done|].
    destruct prim_ip as [a|]; [|done].
    by destruct (Hp a eq_refl) as (? & ? & ? & _).
Qed.

Lemma default_route_fields_witness :
  ∃ ip : pyval,
    primary_ip host_net = Ok ip
    ∧ py_get "primary_ifname" ip = Some (PStr "eth0")
    ∧ ((py_get "primary_ifname" ip = Some PNone
        ∧ py_get "gateway_ipv4" ip = Some PNone
        ∧ py_get "primary_ipv4" ip = Some PNone)
       ∨ ∃ dev gw : string,
           py_get "primary_ifname" ip = Some (PStr dev)
           ∧ py_get "gateway_ipv4" ip = Some (PStr gw)
           ∧ dev ≠ "" ∧ gw ≠ ""
           ∧ str_all is_addr_char gw = true
           ∧ str_all (λ c, negb (isspace c)) dev = true
           ∧ str_contains ("default via " +:+ gw +:+ " dev " +:+ dev)
               (sh host_net "ip -4 route show default | head -n1") = true).
Proof.
  eexists. split; [reflexivity|]. split; [reflexivity|].
  apply (default_route_fields host_net). reflexivity.
Defined.

(** ** CPU statistics *)

Lemma mapM_Ok_Forall2 {A B} (f : A → result B) (l : list A) (l' : list B) :
  mapM f l = Ok l' → Forall2 (λ x y, f x = Ok y) l l'.
Proof.
  revert l'. induction l as [|x l IH]; intros l'; cbn.
  - intros [= <-]. constructor.
  - destruct (f x) as [y|] eqn:Hy; [|done]. cbn.
    destruct (mapM f l) as [ys|]; [|done]. cbn. intros [= <-].
    constructor; [done|by apply IH].
Qed.

Lemma sum_Z_nonneg (l : list Z) : Forall (λ v, 0 ≤ v) l → 0 ≤ sum_Z l.
Proof. unfold sum_Z. induction 1; cbn; lia. Qed.

Lemma read_stat_fields (h : Host) (total idle : Z) :
  _read_stat h = Ok (total, idle) →
  ∃ (text : string) (vals : list Z) (v3 : Z),
    proc_stat h = Some text
    ∧ Forall2 (λ w v, py_int w = Some v) (drop 1 (str_split (readline text))) vals
    ∧ vals !! 3%nat = Some v3
    ∧ idle = v3 + default 0 (vals !! 4%nat)
    ∧ total = sum_Z (take 8 vals).
Proof.
  unfold _read_stat. destruct (proc_stat h) as [text|]; [|done]. cbn.
  destruct (mapM int_of _) as [vals|] eqn:Hm; [|done]. cbn.
  unfold item. destruct (vals !! 3%nat) as [v3|] eqn:H3; [|done]. cbn.
  intros Hr. exists text, vals, v3. split; [done|]. split.
  { apply mapM_Ok_Forall2 in Hm. eapply Forall2_impl; [exact Hm|].
    intros w v. unfold int_of. by destruct (py_int w); intros [= ->]. }
  split; [done|].
  destruct (decide (4 < length vals)%nat) as [Hl|Hl].
  - destruct (lookup_lt_is_Some_2 vals 4 Hl) as [v4 H4].
    rewrite H4 in Hr |- *. cbn in Hr. by injection Hr as <- <-.
  - rewrite (lookup_ge_None_2 vals 4) by lia. cbn in Hr. by injection Hr as <- <-.
Qed.

(** X12. When the first line of /proc/stat holds no minus sign, the two
    numbers that [_read_stat] returns satisfy [0 <= idle <= total]. *)
Theorem cpu_idle_within_total (h : Host) (text : string) (total idle : Z) :
  proc_stat h = Some text → str_all not_minus (readline text) = true →
  _read_stat h = Ok (total, idle) → 0 ≤ idle ≤ total.
Proof.
  intros Ht Hm (text' & vals & v3 & Ht' & Hv & H3 & -> & ->)%read_stat_fields.
  rewrite Ht in Ht'. injection Ht' as <-.
  assert (Hpos : Forall (λ v, 0 ≤ v) vals).
  { clear H3. pose proof (str_split_all not_minus _ Hm) as Hw.
    apply (Forall_drop _ 1) in Hw.
    revert Hw. generalize dependent (drop 1 (str_split (readline text))).
    intros ws0 Hv. induction Hv as [|w v ws vs Hwv _ IH]; [done|].
    intros Hw. inversion_clear Hw as [|?? Hw0 Hws].
    constructor; [by eapply py_int_unsigned|by apply IH]. }
  destruct vals as [|a [|b [|c [|d rest]]]]; try done.
  cbn in H3. injection H3 as <-.
  inversion_clear Hpos as [|?? Ha Hpos1]. inversion_clear Hpos1 as [|?? Hb Hpos2].
  inversion_clear Hpos2 as [|?? Hc Hpos3]. inversion_clear Hpos3 as [|?? Hd Hrest].
  destruct rest as [|e rest]; cbn.
  - unfold sum_Z. cbn. lia.
  - inversion_clear Hrest as [|?? He Hrest'].
    pose proof (sum_Z_nonneg (take 3 rest) (Forall_take _ 3 _ Hrest')) as Hs.
    unfold sum_Z in *. cbn. lia.
Qed.

Lemma cpu_idle_within_total_witness :
  _read_stat host_a = Ok (1000, 850) ∧ 0 ≤ 850 ≤ 1000.
Proof.
  split; [reflexivity|].
  eapply (cpu_idle_within_total host_a); reflexivity.
Defined.

Lemma mapM_Raise {A B} (f : A → result B) (l : list A) (e : exn) :
  mapM f l = Raise e → ∃ x, x ∈ l ∧ f x = Raise e.
Proof.
  induction l as [|x l IH]; cbn; [done|].
  destruct (f x) as [y|e'] eqn:Hx; cbn.
  - destruct (mapM f l) as [ys|e']; cbn; [done|].
    intros [= ->]. destruct (IH eq_refl) as (x' & Hin & Hx').
    exists x'. split; [by apply elem_of_cons; right|done].
  - intros [= ->]. exists x. split; [by apply elem_of_cons; left|done].
Qed.

Lemma read_stat_raise (h : Host) (e : exn) :
  _read_stat h = Raise e →
  (e = OSError ∧ proc_stat h = None)
  ∨ (e = ValueError
     ∧ ∃ text w, proc_stat h = Some text
                 ∧ w ∈ drop 1 (str_split (readline text)) ∧ py_int w = None)
  ∨ (e = IndexError
     ∧ ∃ text, proc_stat h = Some text
               ∧ (length (str_split (readline text)) < 5)%nat).
Proof.
  unfold _read_stat. destruct (proc_stat h) as [text|]; cbn.
  2:{ intros [= <-]. by left. }
  destruct (mapM int_of _) as [vals|e'] eqn:Hm; cbn.
  - intros H. right. right.
    apply mapM_Ok_Forall2, Forall2_length in Hm. rewrite length_drop in Hm.
    unfold item in H.
    destruct (vals !! 3%nat) as [v3|] eqn:H3; cbn in H.
    + exfalso. revert H.
      destruct (decide (4 < length vals)%nat) as [Hl|Hl]; cbn; [|done].
      destruct (lookup_lt_is_Some_2 vals 4 Hl) as [v4 ->]. done.
    + injection H as <-. split; [done|]. exists text. split; [done|].
      apply lookup_ge_None_1 in H3. lia.
  - intros [= ->]. right. left.
    apply mapM_Raise in Hm as (w & Hin & Hw). unfold int_of in Hw.
    destruct (py_int w) eqn:Hp; [done|]. injection Hw as <-.
    split; [done|]. by exists text, w.
Qed.

(** X13. When [_read_stat] raises, it is [OSError] and /proc/stat could
    not be opened, or [ValueError] and a field after the first of the
    first line is no integer, or [IndexError] and the first line has fewer
    than five fields (the label and four numbers). *)
Theorem read_stat_faults (h : Host) (e : exn) :
  _read_stat h = Raise e →
  (e = OSError ∧ proc_stat h = None)
  ∨ (e = ValueError
     ∧ ∃ text w, proc_stat h = Some text
                 ∧ w ∈ drop 1 (str_split (readline text)) ∧ py_int w = None)
  ∨ (e = IndexError
     ∧ ∃ text, proc_stat h = Some text
               ∧ (length (str_split (readline text)) < 5)%nat).
Proof. apply read_stat_raise. Qed.

Lemma read_stat_faults_witness :
  _read_stat (with_counters (Some (text_of ["cpu  1 2 3"])) None host_a)
  = Raise IndexError ∧
  ∃ text, Some (text_of ["cpu  1 2 3"]) = Some text
          ∧ (length (str_split (readline text)) < 5)%nat.
Proof.
  split; [reflexivity|].
  destruct (read_stat_faults
              (with_counters (Some (text_of ["cpu  1 2 3"])) None host_a)
              IndexError eq_refl) as [[H _]|[[H _]|[_ H]]];
    [discriminate H|discriminate H|exact H].
Defined.

(** ** CPU percent *)

Lemma Qcompare_comp_l (x y z : Q) : (x == y)%Q → (x ?= z)%Q = (y ?= z)%Q.
Proof. intros E. by rewrite E. Qed.

Lemma round_half_even_comp (x y : Q) :
  (x == y)%Q → round_half_even x = round_half_even y.
Proof.
  intros E. unfold round_half_even.
  rewrite (Qfloor_comp x y E).
  assert (E' : (x - inject_Z (Qfloor y) == y - inject_Z (Qfloor y))%Q) by (by rewrite E).
  by rewrite (Qcompare_comp_l _ _ _ E').
Qed.

Lemma round_half_even_Z (z : Z) : round_half_even (inject_Z z) = z.
Proof.
  unfold round_half_even. rewrite Qfloor_Z.
  assert (E : (inject_Z z - inject_Z z == 0)%Q) by lra.
  by rewrite (Qcompare_comp_l _ _ _ E).
Qed.

Lemma py_round_1_of (u : Q) (k : Z) :
  (u * 10 == inject_Z k)%Q → py_round u 1 = (k # 10)%Q.
Proof.
  intros E. unfold py_round. change (pow10 1) with 10%positive.
  change (inject_Z (Z.pos 10)) with 10%Q.
  by rewrite (round_half_even_comp _ _ E), round_half_even_Z.
Qed.



(** ** Network rates *)

Lemma rates_lookup (h : Host) (n : NetRates) (p cur : gmap string (Z * Z)) (pt : Q) :
  prev n = Some p → prev_t n = Some pt → _read h = Ok cur →
  let dt := Qmax (1 # 1000) (time_rates h - pt) in
  ∃ r : gmap string (Z * Z),
    rates h n = (Ok (dt, r), {| prev := Some cur; prev_t := Some (time_rates h) |})
    ∧ ∀ k, r !! k
           = (λ v : Z * Z,
                let pr := default v (p !! k) in
                (rate_of v.1 pr.1 dt, rate_of v.2 pr.2 dt)) <$> cur !! k.
Proof.
  intros Hp Hpt Hr dt. eexists. split.
  - unfold rates. rewrite Hr, Hp, Hpt. reflexivity.
  - intros k.
    apply (map_fold_insert_lookup _
             (λ (k : string) (v : Z * Z),
                let pr := default v (p !! k) in
                (rate_of v.1 pr.1 dt, rate_of v.2 pr.2 dt))).
    by intros i [??] acc.
Qed.

Lemma rate_of_bound (cur pr : Z) (dt : Q) :
  (1 # 1000 <= dt)%Q →
  Z.abs (rate_of cur pr dt) ≤ 1000 * Z.abs (cur - pr)
  ∧ 0 ≤ rate_of cur pr dt * (cur - pr).
Proof.
  intros Hdt. unfold rate_of. set (d := cur - pr).
  assert (Hpos : (0 < dt)%Q) by lra.
  rewrite Qtruncate_spec.
  destruct (Z.le_gt_cases 0 d) as [Hd|Hd].
  - assert (Hd' : (0 <= inject_Z d)%Q).
    { change 0%Q with (inject_Z 0). by rewrite <- Zle_Qle. }
    assert (Hq0 : (0 <= inject_Z d / dt)%Q).
    { apply Qle_shift_div_l; [done|]. lra. }
    assert (Hq1 : (inject_Z d / dt <= inject_Z (1000 * d))%Q).
    { apply Qle_shift_div_r; [done|]. rewrite inject_Z_mult.
      change (inject_Z 1000) with 1000%Q. nra. }
    apply Qle_bool_iff in Hq0 as Hb. rewrite Hb.
    pose proof (Qfloor_resp_le _ _ Hq0) as Hf0.
    pose proof (Qfloor_resp_le _ _ Hq1) as Hf1.
    change 0%Q with (inject_Z 0) in Hf0. rewrite Qfloor_Z in Hf0, Hf1. nia.
  - assert (Hd' : (inject_Z d < 0)%Q).
    { change 0%Q with (inject_Z 0). by rewrite <- Zlt_Qlt. }
    assert (Hq0 : (inject_Z d / dt < 0)%Q).
    { apply Qlt_shift_div_r; [done|]. lra. }
    assert (Hq1 : (inject_Z (1000 * d) <= inject_Z d / dt)%Q).
    { apply Qle_shift_div_l; [done|]. rewrite inject_Z_mult.
      change (inject_Z 1000) with 1000%Q. nra. }
    destruct (Qle_bool 0 (inject_Z d / dt)) eqn:Hb.
    { apply Qle_bool_iff in Hb. lra. }
    pose proof (Qceiling_resp_le _ _ (Qlt_le_weak _ _ Hq0)) as Hc0.
    pose proof (Qceiling_resp_le _ _ Hq1) as Hc1.
    change 0%Q with (inject_Z 0) in Hc0. rewrite Qceiling_Z in Hc0, Hc1. nia.
Qed.



Lemma read_line_cases (data : gmap string (Z * Z)) (ln : string) :
  (str_has ":" ln = false ∧ net_line_entry ln = None ∧ net_line_ok ln = true
   ∧ _read_line data ln = Ok data)
  ∨ (∃ k v, net_line_entry ln = Some (k, v) ∧ net_line_ok ln = true
            ∧ _read_line data ln = Ok (<[k := v]> data))
  ∨ (net_line_ok ln = false
     ∧ (_read_line data ln = Raise IndexError ∨ _read_line data ln = Raise ValueError)).
Proof.
  unfold _read_line, net_line_entry, net_line_ok.
  destruct (str_has ":" ln) eqn:Hc; cbn.
  - destruct (str_split1 ":" ln) as [[name rest]|] eqn:Hs.
    2:{ apply split1_None in Hs. congruence. }
    cbn. unfold item, int_of.
    destruct (str_split rest !! 0%nat) as [c0|]; cbn; [|right; right; auto].
    destruct (py_int c0) as [rx|]; cbn; [|right; right; auto].
    destruct (str_split rest !! 8%nat) as [c8|]; cbn; [|right; right; auto].
    destruct (py_int c8) as [tx|]; cbn; [|right; right; auto].
    right. left. by eexists _, _.
  - left. apply split1_None in Hc. by rewrite Hc.
Qed.

Lemma read_lines_ok_iff (lines : list string) :
  ∀ data, is_Ok (_read_lines data lines)
          ↔ Forall (λ ln, net_line_ok ln = true) lines.
Proof.
  induction lines as [|ln lines IH]; intros data; cbn.
  - split; [done|]. intros _. by eexists.
  - rewrite Forall_cons.
    destruct (read_line_cases data ln)
      as [(_ & _ & Hok & ->)|[(k & v & _ & Hok & ->)|(Hbad & [-> | ->])]]; cbn.
    + rewrite IH. by intuition.
    + rewrite IH. by intuition.
    + split; [by intros [? [=]]|]. intros [? _]. congruence.
    + split; [by intros [? [=]]|]. intros [? _]. congruence.
Qed.

Lemma read_lines_raise (lines : list string) :
  ∀ data e, _read_lines data lines = Raise e → e = IndexError ∨ e = ValueError.
Proof.
  induction lines as [|ln lines IH]; intros data e; cbn; [done|].
  destruct (read_line_cases data ln)
    as [(_ & _ & _ & ->)|[(k & v & _ & _ & ->)|(_ & [-> | ->])]]; cbn;
    eauto; intros [= <-]; auto.
Qed.

(** X16. [_read] succeeds exactly when every line after the two header
    lines either has no colon or has, after its first colon, at least nine
    fields of which the first and the ninth are integers; and when the
    file can be opened it fails with [IndexError] or [ValueError] only. *)
Theorem net_read_succeeds_iff (h : Host) (text : string) :
  proc_net_dev h = Some text →
  (is_Ok (_read h)
   ↔ Forall (λ ln, net_line_ok ln = true) (drop 2 (readlines text)))
  ∧ ∀ e, _read h = Raise e → e = IndexError ∨ e = ValueError.
Proof.
  intros Ht. unfold _read. rewrite Ht. cbn. split.
  - apply read_lines_ok_iff.
  - apply read_lines_raise.
Qed.

Lemma net_read_succeeds_iff_witness :
  (is_Ok (_read host_a)
   ↔ Forall (λ ln, net_line_ok ln = true)
       (drop 2 (readlines (text_of (net_dev_header ++
          ["    lo: 500 5 0 0 0 0 0 0 500 5 0 0 0 0 0 0";
           "  eth0: 1000 10 0 0 0 0 0 0 2000 20 0 0 0 0 0 0"])))))
  ∧ ∀ e, _read host_a = Raise e → e = IndexError ∨ e = ValueError.
Proof. apply (net_read_succeeds_iff host_a). reflexivity. Defined.

Lemma read_lines_entries (lines : list string) :
  ∀ data cur,
    _read_lines data lines = Ok cur →
    (∀ k v, cur !! k = Some v →
            data !! k = Some v
            ∨ ∃ ln, ln ∈ lines ∧ net_line_entry ln = Some (k, v))
    ∧ (∀ k, is_Some (data !! k) → is_Some (cur !! k))
    ∧ (∀ ln k v, ln ∈ lines → net_line_entry ln = Some (k, v) → is_Some (cur !! k)).
Proof.
  induction lines as [|ln lines IH]; intros data cur; cbn.
  - intros [= <-]. split; [auto|]. split; [auto|].
    intros ln k v Hin. by apply elem_of_nil in Hin.
  - destruct (read_line_cases data ln)
      as [(_ & Hnone & _ & ->)|[(k0 & v0 & Hent & _ & ->)|(_ & [-> | ->])]]; cbn;
      try done.
    + intros (H1 & H2 & H3)%IH. split; [|split].
      * intros k v Hk. destruct (H1 k v Hk) as [?|(l & ? & ?)]; [auto|].
        right. exists l. split; [by apply elem_of_cons; right|done].
      * done.
      * intros l k v [->|Hin]%elem_of_cons Hl; [congruence|by eapply H3].
    + intros (H1 & H2 & H3)%IH. split; [|split].
      * intros k v Hk. destruct (H1 k v Hk) as [Hd|(l & ? & ?)].
        -- destruct (decide (k = k0)) as [->|Hne].
           ++ rewrite lookup_insert_eq in Hd. injection Hd as <-.
              right. exists ln. split; [by apply elem_of_cons; left|done].
           ++ rewrite lookup_insert_ne in Hd by done. by left.
        -- right. exists l. split; [by apply elem_of_cons; right|done].
      * intros k Hk. apply H2. destruct (decide (k = k0)) as [->|Hne].
        -- by rewrite lookup_insert_eq.
        -- by rewrite lookup_insert_ne.
      * intros l k v [->|Hin]%elem_of_cons Hl; [|by eapply H3].
        apply H2. rewrite Hent in Hl. injection Hl as <- <-.
        by rewrite lookup_insert_eq.
Qed.

Lemma net_line_entry_stripped (ln k : string) (v : Z * Z) :
  net_line_entry ln = Some (k, v) → str_strip k = k.
Proof.
  unfold net_line_entry. destruct (str_split1 ":" ln) as [[name rest]|]; [|done].
  cbn. destruct (str_split rest !! 0%nat ≫= py_int) as [rx|]; [|done]. cbn.
  destruct (str_split rest !! 8%nat ≫= py_int) as [tx|]; [|done].
  cbn. intros [= <- _]. apply str_strip_idem.
Qed.

(** X17. The reading of [_read]: every key has no surrounding
    whitespace, and every entry is the trimmed name, the first and the
    ninth field of some line after the two headers; conversely every such
    line has its name among the keys. *)
Theorem net_read_entries (h : Host) (text : string) (cur : gmap string (Z * Z)) :
  proc_net_dev h = Some text → _read h = Ok cur →
  (∀ k v, cur !! k = Some v →
     str_strip k = k
     ∧ ∃ ln, ln ∈ drop 2 (readlines text) ∧ net_line_entry ln = Some (k, v))
  ∧ (∀ ln k v, ln ∈ drop 2 (readlines text) → net_line_entry ln = Some (k, v) →
       is_Some (cur !! k)).
Proof.
  intros Ht. unfold _read. rewrite Ht. cbn.
  intros (H1 & _ & H3)%read_lines_entries. split; [|done].
  intros k v Hk. destruct (H1 k v Hk) as [Hd|(ln & Hin & Hent)]; [done|].
  split; [by eapply net_line_entry_stripped|by exists ln].
Qed.

Lemma net_read_entries_witness :
  _read host_a = Ok counters_a ∧
  (∀ k v, counters_a !! k = Some v →
     str_strip k = k
     ∧ ∃ ln, ln ∈ drop 2 (readlines (text_of (net_dev_header ++
               ["    lo: 500 5 0 0 0 0 0 0 500 5 0 0 0 0 0 0";
                "  eth0: 1000 10 0 0 0 0 0 0 2000 20 0 0 0 0 0 0"])))
             ∧ net_line_entry ln = Some (k, v)).
Proof.
  assert (Hr : _read host_a = Ok counters_a) by (by vm_compute).
  split; [exact Hr|].
  apply (net_read_entries host_a _ counters_a eq_refl Hr).
Defined.

(** ** Snapshot *)

Lemma sorted_items (r : gmap string (Z * Z)) :
  let items := merge_sort item_le (map_to_list r) in
  Sorted String.le items.*1 ∧ NoDup items.*1
  ∧ ∀ k v, (k, v) ∈ items ↔ r !! k = Some v.
Proof.
  intros items. split; [|split].
  - apply (Sorted_fmap fst item_le String.le); [by intros ??|].
    apply Sorted_merge_sort. intros a b. unfold item_le. apply String.le_total.
  - unfold items. rewrite merge_sort_Permutation. apply NoDup_fst_map_to_list.
  - intros k v. unfold items. rewrite merge_sort_Permutation.
    apply elem_of_map_to_list.
Qed.

(** X18. In every assembled snapshot the list [interfaces] has one entry
    per interface of the rates, with the rates of that interface and its
    classification as virtual, in ascending order of the names and without
    repetition. *)
Theorem snapshot_interfaces_sorted `{PyFloat} (h : Host) (c : CpuPercent)
    (n : NetRates) (snap : pyval) (st : CpuPercent * NetRates) :
  build_snapshot h c n = (Ok snap, st) →
  ∃ (net : pyval) (items : list (string * (Z * Z))) (dt : Q)
    (r : gmap string (Z * Z)),
    py_get "net" snap = Some net
    ∧ py_get "interfaces" net
      = Some (PList ((λ it : string * (Z * Z),
                        PDict [("if", PStr it.1); ("rx_Bps", PInt it.2.1);
                               ("tx_Bps", PInt it.2.2);
                               ("virtual", PBool (is_virtual it.1))]) <$> items))
    ∧ (rates h n).1 = Ok (dt, r)
    ∧ Sorted String.le items.*1 ∧ NoDup items.*1
    ∧ ∀ k v, (k, v) ∈ items ↔ r !! k = Some v.
Proof.
  unfold build_snapshot. destruct (compute h c) as [[cpu_pct|e] c']; [|done].
  destruct (rates h n) as [[[dt r]|e] n']; [|done].
  intros [= Hv _]. revert Hv. unfold assemble.
  destruct (mem_info h) as [[[mem_t mem_u] swap_t] swap_u].
  destruct (fs_root h); [|done]. destruct (proxmox_info h); [|done].
  destruct (read_disks h); [|done]. destruct (primary_ip h); [|done].
  cbn [mbind result_bind]. intros [= <-].
  exists (PDict [("window_s", PFloat (py_round dt 3));
                 ("total_rx_Bps", PInt (sum_Z ((λ it : string * (Z * Z), it.2.1) <$> map_to_list r)));
                 ("total_tx_Bps", PInt (sum_Z ((λ it : string * (Z * Z), it.2.2) <$> map_to_list r)));
                 ("total_rx_bps", PInt (sum_Z ((λ it : string * (Z * Z), it.2.1) <$> map_to_list r) * 8));
                 ("total_tx_bps", PInt (sum_Z ((λ it : string * (Z * Z), it.2.2) <$> map_to_list r) * 8));
                 ("interfaces", PList (iface_entry <$> merge_sort item_le (map_to_list r)))]),
    (merge_sort item_le (map_to_list r)), dt, r.
  split; [reflexivity|]. split; [reflexivity|]. split; [reflexivity|].
  apply sorted_items.
Qed.

Lemma snapshot_interfaces_sorted_witness :
  @build_snapshot decimal_floats host_b trackers_a.1 trackers_a.2
  = (Ok payload_b, (@build_snapshot decimal_floats host_b trackers_a.1 trackers_a.2).2) ∧
  ∃ (net : pyval) (items : list (string * (Z * Z))),
    py_get "net" payload_b = Some net
    ∧ py_get "interfaces" net
      = Some (PList ((λ it : string * (Z * Z),
                        PDict [("if", PStr it.1); ("rx_Bps", PInt it.2.1);
                               ("tx_Bps", PInt it.2.2);
                               ("virtual", PBool (is_virtual it.1))]) <$> items))
    ∧ Sorted String.le items.*1 ∧ NoDup items.*1.
Proof.
  assert (Hb : @build_snapshot decimal_floats host_b trackers_a.1 trackers_a.2
               = (Ok payload_b,
                  (@build_snapshot decimal_floats host_b trackers_a.1 trackers_a.2).2))
    by (vm_compute; reflexivity).
  split; [exact Hb|].
  destruct (@snapshot_interfaces_sorted decimal_floats host_b trackers_a.1
              trackers_a.2 payload_b _ Hb)
    as (net & items & dt & r & Hn & Hi & _ & Hs & Hd & _).
  exists net, items. auto.
Defined.

Lemma rates_window (h : Host) (n : NetRates) (dt : Q) (r : gmap string (Z * Z)) :
  (rates h n).1 = Ok (dt, r) → (1 # 1000 <= dt)%Q.
Proof.
  unfold rates. destruct (_read h) as [cur|]; [|done].
  destruct (prev n) as [p|].
  - destruct (prev_t n) as [pt|]; [|done]. cbn. intros [= <- _].
    apply Q.le_max_l.
  - cbn. intros [= <- _]. discriminate.
Qed.

Lemma py_round_3_floor (dt : Q) :
  (1 # 1000 <= dt)%Q → (1 # 1000 <= py_round dt 3)%Q.
Proof.
  intros Hdt. unfold py_round. change (pow10 3) with 1000%positive.
  change (inject_Z (Z.pos 1000)) with 1000%Q.
  destruct (round_half_even_bounds (dt * 1000) 1 (Qceiling (dt * 1000))) as [Hk _].
  - change (inject_Z 1) with 1%Q. lra.
  - apply Qle_ceiling.
  - unfold Qle. cbn. lia.
Qed.

(** X30. In every assembled snapshot [window_s] is at least one
    millisecond, so that a reader may divide by it; it is 1.0 on the
    first request of a tracker. *)
Theorem snapshot_window_positive `{PyFloat} (h : Host) (c : CpuPercent)
    (n : NetRates) (snap : pyval) (st : CpuPercent * NetRates) :
  build_snapshot h c n = (Ok snap, st) →
  ∃ (net : pyval) (w : Q),
    py_get "net" snap = Some net
    ∧ py_get "window_s" net = Some (PFloat w)
    ∧ (1 # 1000 <= w)%Q
    ∧ (prev n = None → (w == 1)%Q).
Proof.
  unfold build_snapshot. destruct (compute h c) as [[cpu_pct|e] c']; [|done].
  destruct (rates h n) as [[[dt r]|e] n'] eqn:Hr; [|done].
  intros [= Hv _]. revert Hv. unfold assemble.
  destruct (mem_info h) as [[[mem_t mem_u] swap_t] swap_u].
  destruct (fs_root h); [|done]. destruct (proxmox_info h); [|done].
  destruct (read_disks h); [|done]. destruct (primary_ip h); [|done].
  cbn [mbind result_bind]. intros [= <-].
  eexists _, _. split; [reflexivity|]. split; [reflexivity|]. split.
  - apply py_round_3_floor. apply (rates_window h n dt r). by rewrite Hr.
  - intros Hp. revert Hr. unfold rates. destruct (_read h); [|done].
    rewrite Hp. intros [= <- _ _]. reflexivity.
Qed.

Lemma snapshot_window_positive_witness :
  @build_snapshot decimal_floats host_b trackers_a.1 trackers_a.2
  = (Ok payload_b, (@build_snapshot decimal_floats host_b trackers_a.1 trackers_a.2).2) ∧
  ∃ (net : pyval) (w : Q),
    py_get "net" payload_b = Some net
    ∧ py_get "window_s" net = Some (PFloat w)
    ∧ (1 # 1000 <= w)%Q.
Proof.
  assert (Hb : @build_snapshot decimal_floats host_b trackers_a.1 trackers_a.2
               = (Ok payload_b,
                  (@build_snapshot decimal_floats host_b trackers_a.1 trackers_a.2).2))
    by (vm_compute; reflexivity).
  split; [exact Hb|].
  destruct (@snapshot_window_positive decimal_floats host_b trackers_a.1
              trackers_a.2 payload_b _ Hb) as (net & w & Hn & Hw & Hle & _).
  exists net, w. auto.
Defined.

Lemma compute_raise (h : Host) (c : CpuPercent) (e : exn) :
  (compute h c).1 = Raise e →
  e = OSError ∨ e = ValueError ∨ e = IndexError ∨ (e = TypeError ∧ ¬ cpu_wf c).
Proof.
  unfold compute. destruct (_read_stat h) as [[total idle]|e'] eqn:Hr.
  - destruct (prev_total c) as [pt|] eqn:Hpt; [|done].
    destruct (prev_idle c) as [pi|] eqn:Hpi.
    + by destruct (_ <=? _).
    + cbn. intros [= <-]. do 3 right. split; [done|].
      unfold cpu_wf. rewrite Hpt, Hpi. intros Hwf.
      by destruct (Hwf (mk_is_Some _ _ eq_refl)).
  - cbn. intros [= ->].
    destruct (read_stat_raise h e Hr) as [[-> _]|[[-> _]|[-> _]]]; auto.
Qed.

Lemma rates_raise (h : Host) (n : NetRates) (e : exn) :
  (rates h n).1 = Raise e →
  e = OSError ∨ e = ValueError ∨ e = IndexError ∨ (e = TypeError ∧ ¬ net_wf n).
Proof.
  unfold rates. destruct (_read h) as [cur|e'] eqn:Hr.
  - destruct (prev n) as [p|] eqn:Hp; [|done].
    destruct (prev_t n) as [pt|] eqn:Hpt; [done|].
    cbn. intros [= <-]. do 3 right. split; [done|].
    unfold net_wf. rewrite Hp, Hpt. intros Hwf.
    by destruct (Hwf (mk_is_Some _ _ eq_refl)).
  - cbn. intros [= ->]. revert Hr. unfold _read.
    destruct (proc_net_dev h) as [text|]; cbn.
    + intros [-> | ->]%read_lines_raise; auto.
    + intros [= <-]. auto.
Qed.

Lemma assemble_raise `{PyFloat} h cpu_pct load dt r e :
  assemble h cpu_pct load dt r = Raise e → e = OSError ∨ e = IndexError.
Proof.
  unfold assemble. destruct (mem_info h) as [[[mem_t mem_u] swap_t] swap_u].
  destruct (fs_root h) as [fs|e1] eqn:Hfs; cbn.
  2:{ intros [= <-]. revert Hfs. unfold fs_root.
      destruct (statvfs_root h) as [[[??]?]|]; cbn; [done|]. intros [= <-]. auto. }
  destruct (proxmox_info_is_Ok h) as [px ->]. cbn.
  destruct (read_disks h) as [disks|e1] eqn:Hd; cbn.
  2:{ intros [= <-]. revert Hd. unfold read_disks, list_block_devices.
      destruct (sys_block h); cbn; [done|]. intros [= <-]. auto. }
  destruct (primary_ip h) as [ip|e1] eqn:Hip; cbn; [done|].
  intros [= <-]. revert Hip. unfold primary_ip.
  destruct (mapM addr_row _) as [addrs|e2] eqn:Hm; cbn; [done|].
  intros [= <-]. apply mapM_Raise in Hm as (ln & _ & Hln).
  revert Hln. unfold addr_row, item.
  destruct (str_split ln !! 1%nat); cbn; [|intros [= <-]; auto].
  destruct (str_split ln !! 3%nat); cbn; [done|intros [= <-]; auto].
Qed.

Lemma build_snapshot_raise `{PyFloat} (h : Host) (c : CpuPercent) (n : NetRates)
    (e : exn) :
  (build_snapshot h c n).1 = Raise e →
  e = OSError ∨ e = ValueError ∨ e = IndexError
  ∨ (e = TypeError ∧ ¬ (cpu_wf c ∧ net_wf n)).
Proof.
  unfold build_snapshot.
  destruct (compute h c) as [[cpu_pct|e1] c'] eqn:Hc.
  - destruct (rates h n) as [[[dt r]|e2] n'] eqn:Hr.
    + cbn. intros [-> | ->]%assemble_raise; auto.
    + cbn. intros [= ->].
      destruct (rates_raise h n e) as [?|[?|[?|[? Hwf]]]]; [by rewrite Hr|auto..|].
      do 3 right. split; [done|]. by intros [_ ?].
  - cbn. intros [= ->].
    destruct (compute_raise h c e) as [?|[?|[?|[? Hwf]]]]; [by rewrite Hc|auto..|].
    do 3 right. split; [done|]. by intros [? _].
Qed.



(** ** The session *)

Lemma snapshot_no_serial_fault `{PyFloat} h c n :
  (build_snapshot h c n).1 ≠ Raise SerialException.
Proof.
  intros Hs. apply build_snapshot_raise in Hs as [?|[?|[?|[? _]]]]; done.
Qed.

Lemma try_body_cases `{PyFloat} (r : Round) (st : CpuPercent * NetRates) :
  ((try_body r st).1.1 = [] ∨ ∃ data, (try_body r st).1.1 = [SerialWrite data])
  ∧ ((try_body r st).1.2 = Raise SerialException →
     rd r = Raise SerialException ∨ wr r = Some SerialException).
Proof.
  unfold try_body. destruct (rd r) as [raw|e].
  2:{ cbn. split; [by left|]. intros [= ->]. by left. }
  destruct (negb _); [cbn; split; [by left|done]|].
  destruct (String.eqb _ _); [|cbn; split; [by left|done]].
  pose proof (snapshot_no_serial_fault (host r) st.1 st.2) as Hns.
  destruct (build_snapshot _ _ _) as [[payload|e] st'].
  - cbn. split; [right; eauto|]. destruct (wr r) as [e|]; [|done].
    intros [= ->]. by right.
  - cbn in *. split; [by left|]. intros [= ->]. done.
Qed.

Lemma wait_for_path_true (polls : list bool) (waits : list action) :
  wait_for_path polls = (waits, true) →
  ∃ pre, waits = pre ++ [PathExists true]
         ∧ Forall (λ a, a = PathExists false ∨ a = Sleep 1) pre.
Proof.
  revert waits. induction polls as [|[] polls IH]; intros waits; cbn; [done| |].
  - intros [= <-]. by exists [].
  - destruct (wait_for_path polls) as [acts found]. intros [= <- ->].
    destruct (IH acts eq_refl) as (pre & -> & Hpre).
    exists (PathExists false :: Sleep 1 :: pre). split; [done|].
    apply Forall_cons. split; [by left|].
    apply Forall_cons. split; [by right|done].
Qed.

Lemma wait_for_path_false (polls : list bool) (waits : list action) :
  wait_for_path polls = (waits, false) →
  Forall (λ a, a = PathExists false ∨ a = Sleep 1) waits.
Proof.
  revert waits. induction polls as [|[] polls IH]; intros waits; cbn.
  - by intros [= <-].
  - done.
  - destruct (wait_for_path polls) as [acts found]. intros [= <- ->].
    apply Forall_cons. split; [by left|].
    apply Forall_cons. split; [by right|by apply IH].
Qed.

Lemma loop_returned `{PyFloat} (rounds : list Round) (polls : list bool)
    (st : CpuPercent * NetRates) (acts : list action) :
  loop rounds polls st = (acts, Returned) →
  (∃ r, r ∈ rounds ∧ (rd r = Raise SerialException ∨ wr r = Some SerialException))
  ∧ ∃ pre, acts = pre ++ [PathExists true; Sleep 1; SerialClose].
Proof.
  revert st acts. induction rounds as [|r rounds IH]; intros st acts; [done|].
  cbn [loop]. pose proof (try_body_cases r st) as [_ Hf].
  destruct (try_body r st) as [[tacts res] st'].
  assert (Hcont : ∀ mid,
    (let '(more, o) := loop rounds polls st' in
     (SerialRead :: tacts ++ mid ++ more, o)) = (acts, Returned) →
    (∃ r0, r0 ∈ r :: rounds
           ∧ (rd r0 = Raise SerialException ∨ wr r0 = Some SerialException))
    ∧ ∃ pre, acts = pre ++ [PathExists true; Sleep 1; SerialClose]).
  { intros mid. destruct (loop rounds polls st') as [more o] eqn:El.
    intros [= <- ->]. destruct (IH st' more El) as [(r0 & Hin & Hr0) (pre & ->)].
    split; [exists r0; split; [by apply elem_of_cons; right|done]|].
    exists (SerialRead :: tacts ++ mid ++ pre).
    cbn. by rewrite <- !app_assoc. }
  destruct res as [[]|e].
  - apply (Hcont []).
  - destruct e; try apply (Hcont [Sleep (1 # 10)]).
    destruct (wait_for_path polls) as [waits found] eqn:Hw.
    destruct found; [|done]. intros [= <-].
    split; [exists r; split; [by apply elem_of_cons; left|by apply Hf]|].
    apply wait_for_path_true in Hw as (pre & -> & _).
    exists (SerialRead :: tacts ++ pre). cbn. by rewrite <- !app_assoc.
Qed.

(** X20. A session returns only after a serial fault: when [serve]
    returns, some round had a read or a write that raised the exception of
    the serial port, and the session ended by finding the device path,
    sleeping one second and leaving the port. Faults of the readers alone
    never end it. *)
Theorem session_returns_only_after_serial_fault `{PyFloat} (w : World) :
  (serve w).2 = Returned →
  (∃ r, r ∈ rounds w ∧ (rd r = Raise SerialException ∨ wr r = Some SerialException))
  ∧ ∃ pre, (serve w).1 = pre ++ [PathExists true; Sleep 1; SerialClose].
Proof.
  unfold serve. destruct (wait_for_path (polls_before w)) as [waits found].
  destruct found; [|done]. destruct (open_fault w); [done|].
  destruct (loop _ _ _) as [acts o] eqn:El. cbn. intros ->.
  destruct (loop_returned _ _ _ _ El) as [Hr (pre & ->)].
  split; [done|]. exists (waits ++ SerialOpen :: pre).
  by rewrite <- app_assoc.
Qed.

Lemma session_returns_only_after_serial_fault_witness :
  (@serve decimal_floats world_a).2 = Returned ∧
  (∃ r, r ∈ rounds world_a
        ∧ (rd r = Raise SerialException ∨ wr r = Some SerialException))
  ∧ ∃ pre, (@serve decimal_floats world_a).1
           = pre ++ [PathExists true; Sleep 1; SerialClose].
Proof.
  assert (Hs : (@serve decimal_floats world_a).2 = Returned)
    by (vm_compute; reflexivity).
  split; [exact Hs|].
  exact (@session_returns_only_after_serial_fault decimal_floats world_a Hs).
Defined.

(** A write directly follows a read. *)
Lemma lookup_write_after_read (pre post : list action) (tacts : list action)
    (i : nat) (data : string) :
  (tacts = [] ∨ ∃ d, tacts = [SerialWrite d]) →
  (∀ d, SerialWrite d ∉ pre) →
  (∀ j d, post !! j = Some (SerialWrite d) →
          ∃ k, j = S k ∧ post !! k = Some SerialRead) →
  (SerialRead :: tacts ++ pre ++ post) !! i = Some (SerialWrite data) →
  ∃ k, i = S k ∧ (SerialRead :: tacts ++ pre ++ post) !! k = Some SerialRead.
Proof.
  intros Ht Hpre Hpost.
  destruct i as [|i]; [done|]. cbn [lookup list_lookup].
  change ((SerialRead :: tacts ++ pre ++ post) !! S i)
    with ((tacts ++ pre ++ post) !! i).
  destruct Ht as [->|[d ->]].
  - cbn [app]. intros Hi. apply lookup_app_Some in Hi as [Hi|[Hlen Hi]].
    + exfalso. apply (Hpre data). by eapply list_elem_of_lookup_2.
    + destruct (Hpost _ _ Hi) as (k & Hk & Hread).
      exists (S (length pre + k)). split; [lia|].
      change ((pre ++ post) !! (length pre + k)%nat = Some SerialRead).
      rewrite lookup_app_r by lia.
      by replace (length pre + k - length pre)%nat with k by lia.
  - destruct i as [|i]; [by exists 0%nat|].
    change (([SerialWrite d] ++ pre ++ post) !! S i)
      with ((pre ++ post) !! i).
    intros Hi. apply lookup_app_Some in Hi as [Hi|[Hlen Hi]].
    + exfalso. apply (Hpre data). by eapply list_elem_of_lookup_2.
    + destruct (Hpost _ _ Hi) as (k & Hk & Hread).
      exists (S (S (length pre + k))). split; [lia|].
      change ((pre ++ post) !! (length pre + k)%nat = Some SerialRead).
      rewrite lookup_app_r by lia.
      by replace (length pre + k - length pre)%nat with k by lia.
Qed.

Lemma wait_for_path_not_write (polls : list bool) (d : string) :
  SerialWrite d ∉ (wait_for_path polls).1.
Proof.
  rewrite list_elem_of_In. apply wait_for_path_no_write.
Qed.

Lemma loop_write_after_read `{PyFloat} (rounds : list Round) (polls : list bool) :
  ∀ (st : CpuPercent * NetRates) (i : nat) (data : string),
    (loop rounds polls st).1 !! i = Some (SerialWrite data) →
    ∃ k, i = S k ∧ (loop rounds polls st).1 !! k = Some SerialRead.
Proof.
  induction rounds as [|r rounds IH]; intros st i data; [done|].
  cbn [loop]. pose proof (try_body_cases r st) as [Ht _].
  destruct (try_body r st) as [[tacts res] st']. cbn [fst] in Ht.
  pose proof (wait_for_path_not_write polls) as Hw.
  destruct res as [[]|e].
  - destruct (loop rounds polls st') as [more o] eqn:El. cbn [fst].
    specialize (IH st'). rewrite El in IH.
    apply (lookup_write_after_read [] more tacts); [done| |done].
    intros d. apply not_elem_of_nil.
  - destruct e.
    1-4: destruct (loop rounds polls st') as [more o] eqn:El; cbn [fst];
         specialize (IH st'); rewrite El in IH;
         apply (lookup_write_after_read [Sleep (1 # 10)] more tacts);
           [done| |done];
         intros d [=]%list_elem_of_singleton.
    destruct (wait_for_path polls) as [waits found]. cbn [fst] in Hw.
    destruct found; cbn [fst].
    + replace (tacts ++ waits ++ [Sleep 1; SerialClose])
        with (tacts ++ (waits ++ [Sleep 1; SerialClose]) ++ [])
        by (by rewrite app_nil_r).
      apply lookup_write_after_read; [done| |done].
      intros d [?|Hin]%elem_of_app; [by apply (Hw d)|].
      apply elem_of_cons in Hin as [?|Hin]; [done|].
      by apply list_elem_of_singleton in Hin.
    + replace (tacts ++ waits) with (tacts ++ waits ++ []) by (by rewrite app_nil_r).
      apply lookup_write_after_read; [done|done|done].
Qed.

(** X21. The session never writes unasked: every write to the port
    directly follows a read of the port. *)
Theorem writes_answer_reads `{PyFloat} (w : World) (i : nat) (data : string) :
  (serve w).1 !! i = Some (SerialWrite data) →
  ∃ k, i = S k ∧ (serve w).1 !! k = Some SerialRead.
Proof.
  unfold serve. pose proof (wait_for_path_not_write (polls_before w)) as Hw.
  destruct (wait_for_path (polls_before w)) as [waits found]. cbn [fst] in Hw.
  assert (Hwaits : ∀ j, waits !! j ≠ Some (SerialWrite data)).
  { intros j Hj. apply (Hw data). by eapply list_elem_of_lookup_2. }
  destruct found; [|by intros ?%Hwaits].
  destruct (open_fault w) as [e|].
  - cbn [fst]. intros [Hi|[_ Hi]]%lookup_app_Some; [by apply Hwaits in Hi|].
    by destruct (i - length waits)%nat as [|[|]].
  - pose proof (loop_write_after_read (rounds w) (polls_after w)
                  (CpuPercent_init, NetRates_init)) as Hl.
    destruct (loop _ _ _) as [acts o]. cbn [fst] in *.
    intros [Hi|[Hlen Hi]]%lookup_app_Some; [by apply Hwaits in Hi|].
    destruct (i - length waits)%nat as [|j] eqn:Hj; [done|]. cbn in Hi.
    destruct (Hl j data Hi) as (k & -> & Hk).
    exists (length waits + S k)%nat. split; [lia|].
    rewrite lookup_app_r by lia.
    by replace (length waits + S k - length waits)%nat with (S k) by lia.
Qed.

Lemma writes_answer_reads_witness :
  (@serve decimal_floats world_a).1 !! 5%nat = Some (SerialWrite response_a) ∧
  ∃ k, 5%nat = S k ∧ (@serve decimal_floats world_a).1 !! k = Some SerialRead.
Proof.
  assert (Hs : (@serve decimal_floats world_a).1 !! 5%nat
               = Some (SerialWrite response_a)) by (vm_compute; reflexivity).
  split; [exact Hs|].
  exact (@writes_answer_reads decimal_floats world_a 5 response_a Hs).
Defined.

Lemma wait_for_path_actions (polls : list bool) :
  Forall (λ a, ∃ b, a = PathExists b ∨ a = Sleep 1) (wait_for_path polls).1.
Proof.
  induction polls as [|[] polls IH]; cbn.
  - constructor.
  - apply Forall_cons. split; [exists true; by left|constructor].
  - destruct (wait_for_path polls) as [acts found]. cbn in *.
    apply Forall_cons. split; [exists false; by left|].
    apply Forall_cons. split; [exists false; by right|done].
Qed.

Lemma loop_no_open `{PyFloat} (rounds : list Round) (polls : list bool) :
  ∀ st, SerialOpen ∉ (loop rounds polls st).1.
Proof.
  induction rounds as [|r rounds IH]; intros st; [apply not_elem_of_nil|].
  cbn [loop]. pose proof (try_body_cases r st) as [Ht _].
  destruct (try_body r st) as [[tacts res] st']. cbn [fst] in Ht.
  assert (Htacts : SerialOpen ∉ tacts).
  { destruct Ht as [->|[d ->]]; [apply not_elem_of_nil|].
    by intros [=]%list_elem_of_singleton. }
  assert (Hwaits : SerialOpen ∉ (wait_for_path polls).1).
  { intros Hin. pose proof (wait_for_path_actions polls) as Hall.
    rewrite Forall_forall in Hall. by destruct (Hall _ Hin) as [b [?|?]]. }
  destruct res as [[]|e].
  - specialize (IH st'). destruct (loop rounds polls st') as [more o]. cbn [fst] in *.
    intros [?|[?|?]%elem_of_app]%elem_of_cons; done.
  - destruct e.
    1-4: specialize (IH st'); destruct (loop rounds polls st') as [more o];
         cbn [fst] in *;
         intros [?|[?|[?|?]%elem_of_cons]%elem_of_app]%elem_of_cons; done.
    destruct (wait_for_path polls) as [waits found]. cbn [fst] in Hwaits.
    destruct found; cbn [fst].
    + intros [?|[?|[?|Hin]%elem_of_app]%elem_of_app]%elem_of_cons; try done.
      apply elem_of_cons in Hin as [?|Hin]; [done|].
      by apply list_elem_of_singleton in Hin.
    + intros [?|[?|?]%elem_of_app]%elem_of_cons; done.
Qed.

(** X22. The port is opened at most once per session, directly after a
    poll that found the device path; before that the session only polls
    and sleeps. *)
Theorem port_opened_once `{PyFloat} (w : World) (i : nat) :
  (serve w).1 !! i = Some SerialOpen →
  (∃ k, i = S k ∧ (serve w).1 !! k = Some (PathExists true))
  ∧ (∀ j a, (j < i)%nat → (serve w).1 !! j = Some a →
            ∃ b, a = PathExists b ∨ a = Sleep 1)
  ∧ (∀ j, (serve w).1 !! j = Some SerialOpen → j = i).
Proof.
  unfold serve. pose proof (wait_for_path_actions (polls_before w)) as Hall.
  destruct (wait_for_path (polls_before w)) as [waits found] eqn:Hw.
  cbn [fst] in Hall.
  assert (Hwaits : ∀ j, waits !! j ≠ Some SerialOpen).
  { intros j Hj. rewrite Forall_forall in Hall.
    destruct (Hall _ (list_elem_of_lookup_2 _ _ _ Hj)) as [b [?|?]]; done. }
  destruct found; [|by intros ?%Hwaits].
  apply wait_for_path_true in Hw as (pre & -> & _).
  assert (Hshape : ∀ rest : list action,
    SerialOpen ∉ rest →
    ((pre ++ [PathExists true]) ++ SerialOpen :: rest) !! i = Some SerialOpen →
    (∃ k, i = S k
          ∧ ((pre ++ [PathExists true]) ++ SerialOpen :: rest) !! k
            = Some (PathExists true))
    ∧ (∀ j a, (j < i)%nat →
              ((pre ++ [PathExists true]) ++ SerialOpen :: rest) !! j = Some a →
              ∃ b, a = PathExists b ∨ a = Sleep 1)
    ∧ (∀ j, ((pre ++ [PathExists true]) ++ SerialOpen :: rest) !! j
            = Some SerialOpen → j = i)).
  { intros rest Hrest.
    assert (Honly : ∀ j, ((pre ++ [PathExists true]) ++ SerialOpen :: rest) !! j
                         = Some SerialOpen → j = length (pre ++ [PathExists true])).
    { intros j [Hj|[Hlen Hj]]%lookup_app_Some; [by apply Hwaits in Hj|].
      destruct (j - length (pre ++ [PathExists true]))%nat as [|m] eqn:Hm; [lia|].
      cbn in Hj. exfalso. apply Hrest. by eapply list_elem_of_lookup_2. }
    intros Hi. apply Honly in Hi as ->. split; [|split].
    - exists (length pre). split; [rewrite length_app; cbn; lia|].
      rewrite lookup_app_l by (rewrite length_app; cbn; lia).
      rewrite lookup_app_r by lia. by rewrite Nat.sub_diag.
    - intros j a Hj Ha. rewrite lookup_app_l in Ha by done.
      rewrite Forall_forall in Hall. by eapply Hall, list_elem_of_lookup_2.
    - intros j Hj. by apply Honly. }
  destruct (open_fault w) as [e|].
  - cbn [fst]. replace ((pre ++ [PathExists true]) ++ [SerialOpen])
      with ((pre ++ [PathExists true]) ++ SerialOpen :: []) by done.
    apply Hshape, not_elem_of_nil.
  - pose proof (loop_no_open (rounds w) (polls_after w)
                  (CpuPercent_init, NetRates_init)) as Hl.
    destruct (loop _ _ _) as [acts o]. cbn [fst] in *. by apply Hshape.
Qed.

Lemma port_opened_once_witness :
  (@serve decimal_floats world_a).1 !! 3%nat = Some SerialOpen ∧
  (∃ k, 3%nat = S k ∧ (@serve decimal_floats world_a).1 !! k = Some (PathExists true))
  ∧ (∀ j, (@serve decimal_floats world_a).1 !! j = Some SerialOpen → j = 3%nat).
Proof.
  assert (Hs : (@serve decimal_floats world_a).1 !! 3%nat = Some SerialOpen)
    by (vm_compute; reflexivity).
  split; [exact Hs|].
  destruct (@port_opened_once decimal_floats world_a 3 Hs) as (H1 & _ & H3).
  split; [exact H1|exact H3].
Defined.

(** ** The configuration file *)

Lemma lstrip_by_app_l (f : ascii → bool) (ws s : string) :
  str_all f ws = true → str_lstrip_by f (ws +:+ s) = str_lstrip_by f s.
Proof.
  induction ws as [|c ws IH]; [by rewrite app_empty_l|].
  cbn [str_all]. intros [Hc Hws]%andb_true_iff.
  rewrite app_String. cbn [str_lstrip_by]. rewrite Hc. by apply IH.
Qed.

Lemma lstrip_by_all_space (f : ascii → bool) (ws : string) :
  str_all f ws = true → str_lstrip_by f ws = "".
Proof.
  intros Hws. rewrite <- (app_empty_r ws). by rewrite lstrip_by_app_l.
Qed.

Lemma rstrip_by_all_space (f : ascii → bool) (ws : string) :
  str_all f ws = true → str_rstrip_by f ws = "".
Proof.
  induction ws as [|c ws IH]; [done|].
  cbn [str_all]. intros [Hc Hws]%andb_true_iff.
  by rewrite rstrip_by_cons, (IH Hws), Hc.
Qed.

Lemma rstrip_by_app_r (f : ascii → bool) (s ws : string) :
  str_all f ws = true → str_rstrip_by f (s +:+ ws) = str_rstrip_by f s.
Proof.
  intros Hws. induction s as [|c s IH].
  - rewrite app_empty_l. by apply rstrip_by_all_space.
  - by rewrite app_String, !rstrip_by_cons, IH.
Qed.

Lemma lstrip_by_length (f : ascii → bool) (s : string) :
  str_lstrip_by f s = s ∨ (String.length (str_lstrip_by f s) < String.length s)%nat.
Proof.
  induction s as [|c s IH]; [by left|]. cbn. destruct (f c); [|by left].
  right. destruct IH as [->|]; lia.
Qed.

Lemma rstrip_by_length (f : ascii → bool) (s : string) :
  (String.length (str_rstrip_by f s) ≤ String.length s)%nat.
Proof.
  induction s as [|c s IH]; [done|]. rewrite rstrip_by_cons.
  destruct (str_rstrip_by f s); [destruct (f c)|]; cbn in *; lia.
Qed.

Lemma strip_by_fixed (f : ascii → bool) (s : string) :
  str_strip_by f s = s → str_lstrip_by f s = s ∧ str_rstrip_by f s = s.
Proof.
  unfold str_strip_by. intros Hs.
  destruct (lstrip_by_length f s) as [Hl|Hl].
  - by rewrite Hl in Hs.
  - pose proof (rstrip_by_length f (str_lstrip_by f s)) as Hr.
    rewrite Hs in Hr. lia.
Qed.

Lemma take_while_app (f : ascii → bool) (a b : string) :
  str_all f a = true →
  match b with String c _ => f c = false | EmptyString => True end →
  str_take_while f (a +:+ b) = a ∧ str_drop_while f (a +:+ b) = b.
Proof.
  intros Ha Hb. induction a as [|c a IH].
  - rewrite app_empty_l. destruct b as [|c b]; [done|]. cbn. by rewrite Hb.
  - cbn [str_all] in Ha. apply andb_true_iff in Ha as [Hc Ha].
    rewrite app_String. cbn. rewrite Hc. destruct (IH Ha) as [-> ->]. done.
Qed.

Lemma word_not_space (c : ascii) : is_word_char c = true → isspace c = false.
Proof. by destruct c as [[] [] [] [] [] [] [] []]. Qed.

Lemma strip_framed (sp2 v sp3 : string) :
  str_all isspace sp2 = true → str_all isspace sp3 = true →
  str_strip v = v → str_strip (sp2 +:+ v +:+ sp3) = v.
Proof.
  intros H2 H3 Hv. apply strip_by_fixed in Hv as [Hl Hr].
  unfold str_strip, str_strip_by. rewrite lstrip_by_app_l by done.
  destruct v as [|c v].
  - rewrite app_empty_l, lstrip_by_all_space by done. done.
  - assert (Hc : isspace c = false).
    { revert Hl. cbn. destruct (isspace c); [|done]. intros Hl.
      pose proof (lstrip_by_length isspace v) as [E|E]; rewrite Hl in E.
      - exfalso. clear -E. induction v as [|d v IH]; [done|].
        injection E as -> E. by apply IH.
      - cbn in E. lia. }
    rewrite app_String. cbn [str_lstrip_by]. rewrite Hc.
    rewrite <- app_String. by rewrite rstrip_by_app_r.
Qed.

Lemma re_key_value_spec (ind k sp1 sp2 v sp3 : string) :
  str_all isspace ind = true → str_all isspace sp1 = true →
  str_all isspace sp2 = true → str_all isspace sp3 = true →
  k ≠ "" → str_all is_word_char k = true →
  str_strip v = v → str_has LF v = false →
  re_key_value (ind +:+ k +:+ sp1 +:+ ":" +:+ sp2 +:+ v +:+ sp3) = Some (k, v).
Proof.
  intros Hind H1 H2 H3 Hk Hkw Hv Hlf. unfold re_key_value.
  assert (Hhead : match sp1 +:+ ":" +:+ sp2 +:+ v +:+ sp3 with
                  | String c _ => is_word_char c = false
                  | EmptyString => True
                  end).
  { destruct sp1 as [|c sp1].
    - by rewrite app_empty_l, app_String.
    - rewrite app_String. cbn in H1. apply andb_true_iff in H1 as [Hc _].
      destruct (is_word_char c) eqn:Hw; [|done].
      apply word_not_space in Hw. congruence. }
  assert (Hl : str_lstrip (ind +:+ k +:+ sp1 +:+ ":" +:+ sp2 +:+ v +:+ sp3)
               = k +:+ sp1 +:+ ":" +:+ sp2 +:+ v +:+ sp3).
  { unfold str_lstrip. rewrite lstrip_by_app_l by done.
    destruct k as [|c k]; [done|]. rewrite app_String. cbn [str_lstrip_by].
    cbn in Hkw. apply andb_true_iff in Hkw as [Hc _].
    by rewrite (word_not_space c Hc). }
  rewrite Hl.
  destruct (take_while_app is_word_char k _ Hkw Hhead) as [-> ->].
  destruct k as [|c k]; [done|]. cbn [nonempty].
  unfold str_lstrip. rewrite lstrip_by_app_l by done.
  rewrite app_String, app_empty_l. cbn [str_lstrip_by].
  change (isspace ":") with false. cbv iota.
  rewrite (strip_framed sp2 v sp3) by done. by rewrite Hlf.
Qed.

Lemma re_key_value_Some (ln k v : string) :
  re_key_value ln = Some (k, v) →
  k ≠ "" ∧ str_all is_word_char k = true ∧ str_strip v = v ∧ str_has LF v = false
  ∧ str_has ":" ln = true.
Proof.
  unfold re_key_value.
  destruct (nonempty (str_take_while is_word_char (str_lstrip ln))) eqn:Hk; [|done].
  destruct (str_lstrip (str_drop_while is_word_char (str_lstrip ln)))
    as [|c rest] eqn:Hrest; [done|].
  destruct (Ascii.eqb_spec c ":") as [->|Hc].
  2:{ by destruct c as [[] [] [] [] [] [] [] []]. }
  destruct (str_has LF (str_strip rest)) eqn:Hlf; [done|].
  intros [= <- <-]. split; [by destruct (str_take_while _ _)|].
  split; [apply take_while_all|]. split; [apply str_strip_idem|].
  split; [done|].
  assert (Hcolon : str_all (λ c, negb (Ascii.eqb c ":")) ln = true → False).
  { intros Hall.
    pose proof (lstrip_by_all _ isspace ln Hall) as H1. fold (str_lstrip ln) in H1.
    rewrite <- (take_drop_while is_word_char (str_lstrip ln)), str_all_app in H1.
    apply andb_true_iff in H1 as [_ H1].
    apply (lstrip_by_all _ isspace) in H1.
    fold (str_lstrip (str_drop_while is_word_char (str_lstrip ln))) in H1.
    by rewrite Hrest in H1. }
  destruct (str_has ":" ln) eqn:Hh; [done|]. exfalso. apply Hcolon.
  clear -Hh. induction ln as [|c ln IH]; [done|]. cbn in *.
  apply orb_false_iff in Hh as [-> Hh]. by rewrite IH.
Qed.

Lemma yaml_scalar_ok (v : string) :
  str_strip v = v → str_has LF v = false →
  ∃ x, yaml_scalar v = Ok x ∧ cfgval_ok x
       ∧ ((∃ b : bool, x = CBool b ∧ str_lower v = if b then "true" else "false")
          ∨ (∃ z, x = CInt z ∧ str_isdigit v = true ∧ py_int v = Some z)
          ∨ x = CStr v).
Proof.
  intros Hv Hlf. unfold yaml_scalar.
  destruct (String.eqb_spec (str_lower v) "true") as [Ht|Ht].
  { eexists. split; [reflexivity|]. split; [done|]. left. by exists true. }
  destruct (String.eqb_spec (str_lower v) "false") as [Hf|Hf].
  { eexists. split; [reflexivity|]. split; [done|]. left. by exists false. }
  cbn [orb]. destruct (str_isdigit v) eqn:Hd.
  - destruct (py_int_digits v Hd) as [z Hz]. unfold int_of. rewrite Hz. cbn.
    eexists. split; [reflexivity|]. split.
    + by eapply py_int_digits_nonneg.
    + right. left. by exists z.
  - eexists. split; [reflexivity|]. split; [done|]. by right; right.
Qed.

Lemma yaml_row_cases (cfg : gmap string cfgval) (ln : string) :
  yaml_row cfg ln = Ok cfg
  ∨ ∃ k x, yaml_row cfg ln = Ok (<[k := x]> cfg)
           ∧ k ≠ "" ∧ str_all is_word_char k = true ∧ cfgval_ok x.
Proof.
  unfold yaml_row. destruct (re_key_value ln) as [[k v]|] eqn:Hr; [|by left].
  apply re_key_value_Some in Hr as (Hk & Hkw & Hv & Hlf & _).
  destruct (yaml_scalar_ok v Hv Hlf) as (x & -> & Hx & _).
  right. by exists k, x.
Qed.

Lemma yaml_rows_values (lines : list string) :
  ∀ cfg : gmap string cfgval,
    map_Forall (λ k x, k ≠ "" ∧ str_all is_word_char k = true ∧ cfgval_ok x) cfg →
    ∃ cfg', yaml_rows cfg lines = Ok cfg'
            ∧ map_Forall (λ k x, k ≠ "" ∧ str_all is_word_char k = true ∧ cfgval_ok x)
                cfg'.
Proof.
  induction lines as [|ln lines IH]; intros cfg Hcfg; cbn; [by exists cfg|].
  destruct (yaml_row_cases cfg ln) as [->|(k & x & -> & Hk & Hkw & Hx)]; cbn.
  - by apply IH.
  - apply IH. by apply map_Forall_insert_2.
Qed.




Lemma yaml_rows_ignored (lines : list string) (cfg : gmap string cfgval) :
  Forall (λ ln, re_key_value ln = None) lines → yaml_rows cfg lines = Ok cfg.
Proof.
  induction 1 as [|ln lines Hln _ IH]; [done|].
  cbn. unfold yaml_row. rewrite Hln. cbn. exact IH.
Qed.



(** X26. The settings of [serve]: the serial path is never a false
    value, the log level (when [.lower()] applies) is a lower-case text
    that is not empty, and a key that is absent gives the default:
    [/dev/ttyACM0], 115200, no trace, [info]. *)
Theorem settings_defaults (cfg : gmap string cfgval) :
  truthy (serial_path cfg) = true
  ∧ (∀ l, log_level cfg = Some l → l ≠ "" ∧ str_lower l = l)
  ∧ (cfg !! "serial_device" = None → serial_path cfg = CStr "/dev/ttyACM0")
  ∧ (cfg !! "baud" = None → baud cfg = Ok 115200)
  ∧ (cfg !! "trace_payloads" = None → trace cfg = false)
  ∧ (cfg !! "log_level" = None → log_level cfg = Some "info").
Proof.
  split; [|split; [|split; [|split; [|split]]]].
  - unfold serial_path, py_or. destruct (cfg !! "serial_device") as [v|]; [|done].
    by destruct (truthy v) eqn:Hv.
  - intros l. unfold log_level, py_or.
    destruct (truthy (default (CStr "info") (cfg !! "log_level"))) eqn:Ht.
    + destruct (default _ _) as [b|z|s]; [done|done|]. intros [= <-].
      split; [|apply str_lower_idem]. cbn in Ht. by destruct s.
    + by intros [= <-].
  - unfold serial_path. by intros ->.
  - unfold baud. by intros ->.
  - unfold trace. by intros ->.
  - unfold log_level. by intros ->.
Qed.

(** ** Load average, uptime and timestamp *)

(** X27. The three load averages are read together or not at all:
    either all three are the first three fields of /proc/loadavg, or all
    three are 0.0 (so a third field that is no number also discards the
    first two). *)
Theorem loadavg_all_or_nothing `{PyFloat} (h : Host) :
  loadavg h = (0, 0, 0)%Q
  ∨ ∃ (text a b c : string) (rest : list string) (l1 l5 l15 : Q),
      proc_loadavg h = Some text
      ∧ str_split text = a :: b :: c :: rest
      ∧ float_of_str a = Some l1 ∧ float_of_str b = Some l5
      ∧ float_of_str c = Some l15
      ∧ loadavg h = (l1, l5, l15).
Proof.
  unfold loadavg. destruct (proc_loadavg h) as [text|]; [|by left]. cbn.
  destruct (str_split text) as [|a [|b [|c rest]]] eqn:Hs; cbn; try by left.
  - destruct (float_of_str a); by left.
  - destruct (float_of_str a); [|by left]. cbn. destruct (float_of_str b); by left.
  - destruct (float_of_str a) as [l1|] eqn:Ha; [|by left]. cbn.
    destruct (float_of_str b) as [l5|] eqn:Hb; [|by left]. cbn.
    destruct (float_of_str c) as [l15|] eqn:Hc; [|by left]. cbn.
    right. by exists text, a, b, c, rest, l1, l5, l15.
Qed.

Lemma Qtruncate_nonneg (q : Q) :
  (0 <= q)%Q →
  0 ≤ Qtruncate q ∧ (inject_Z (Qtruncate q) <= q)%Q
  ∧ (q < inject_Z (Qtruncate q) + 1)%Q.
Proof.
  intros Hq. rewrite Qtruncate_spec.
  apply Qle_bool_iff in Hq as Hb. rewrite Hb.
  split; [|split].
  - pose proof (Qfloor_resp_le _ _ Hq) as Hf. exact Hf.
  - apply Qfloor_le.
  - pose proof (Qlt_floor q) as Hlt. rewrite inject_Z_plus in Hlt. exact Hlt.
Qed.



(** ** Tracker state after a request *)

Lemma compute_state (h : Host) (c : CpuPercent) (t i : Z) :
  _read_stat h = Ok (t, i) → cpu_wf c →
  ∃ v, compute h c
       = (Ok v, {| prev_total := Some t; prev_idle := Some i; value := v |}).
Proof.
  intros Hr Hwf. unfold compute. rewrite Hr.
  destruct (prev_total c) as [pt|] eqn:Hpt; [|by eexists].
  assert (is_Some (prev_idle c)) as [pi ->] by (apply Hwf; by rewrite Hpt).
  destruct (_ <=? _); by eexists.
Qed.

Lemma rates_state (h : Host) (n : NetRates) (cur : gmap string (Z * Z)) :
  _read h = Ok cur → net_wf n →
  ∃ v, rates h n = (Ok v, {| prev := Some cur; prev_t := Some (time_rates h) |}).
Proof.
  intros Hr Hwf. unfold rates. rewrite Hr.
  destruct (prev n) as [p|] eqn:Hp; [|by eexists].
  assert (is_Some (prev_t n)) as [pt ->] by (apply Hwf; by rewrite Hp).
  by eexists.
Qed.

(** X29. The trackers advance even when the request fails later: once
    the CPU statistics and the network counters have been read, the state
    after [build_snapshot] holds these two readings, whether or not the
    rest of the assembly raised. *)
Theorem trackers_advance_despite_faults `{PyFloat} (h : Host) (c : CpuPercent)
    (n : NetRates) (t i : Z) (cur : gmap string (Z * Z)) :
  cpu_wf c → net_wf n → _read_stat h = Ok (t, i) → _read h = Ok cur →
  ∃ v : option Q,
    (build_snapshot h c n).2
    = ({| prev_total := Some t; prev_idle := Some i; value := v |},
       {| prev := Some cur; prev_t := Some (time_rates h) |})
    ∧ (compute h c).1 = Ok v.
Proof.
  intros Hc Hn Hs Hr. unfold build_snapshot.
  destruct (compute_state h c t i Hs Hc) as [v ->].
  destruct (rates_state h n cur Hr Hn) as [[dt r] ->].
  by exists v.
Qed.

Lemma trackers_advance_despite_faults_witness :
  (@build_snapshot decimal_floats host_no_statvfs CpuPercent_init NetRates_init).1
  = Raise OSError ∧
  ∃ v : option Q,
    (@build_snapshot decimal_floats host_no_statvfs CpuPercent_init NetRates_init).2
    = ({| prev_total := Some 2000; prev_idle := Some 1600; value := v |},
       {| prev := Some counters_b; prev_t := Some (time_rates host_no_statvfs) |})
    ∧ (compute host_no_statvfs CpuPercent_init).1 = Ok v.
Proof.
  split; [vm_compute; reflexivity|].
  apply (@trackers_advance_despite_faults decimal_floats host_no_statvfs).
  - by intros [? [=]].
  - by intros [? [=]].
  - vm_compute; reflexivity.
  - vm_compute; reflexivity.
Defined.
